(** * The ID-anchored document edit pipeline of [document_pipeline.py]

    A shallow embedding of the Node Identifier ([add_ids_to_nodes]), the Tree
    Flattener ([flatten_nodes_to_list]), Dump/Render ([dump_flattened_nodes]),
    the Edit Reconciler ([_parse_edited_content]), the orchestrator
    ([process_jsonnode]) and the section outline ([_flatten_sections]) of
    class [DocumentPipeline], followed by the properties of the
    specification that were checked against them and by further properties
    of the code.

    Python data is modelled as the code has it:
    - a [str] is the list of its Unicode code points ([pystr]);
    - a JSON value is the tree [json]; a [dict] keeps its insertion order and
      is an association list;
    - a [set] of strings is a [gset pystr], the lookup table
      [original_nodes_by_id] a [gmap];
    - the two random sources ([random.randint] and [uuid.uuid4]) are explicit:
      the sequence of values they return is an argument of the model. *)

From Stdlib Require Import ZArith NArith List Lia Bool.
From Stdlib Require Import Floats.SpecFloat Strings.Ascii.
From stdpp Require Import gmap list strings.

Local Open Scope N_scope.

(** ** Strings *)

Module PyStr.

(** A Python [str]: the sequence of its code points. *)
Definition pystr := list N.

(** Reading a literal of this file as a Python string. *)
Fixpoint py (s : string) : pystr :=
  match s with
  | EmptyString => []
  | String a s' => N_of_ascii a :: py s'
  end.

(** The characters [str.strip()] removes and the regex class [\s] matches on
    [str] patterns: the Unicode whitespace code points. *)
Definition is_space (c : N) : bool :=
  ((9 <=? c) && (c <=? 13)) || ((28 <=? c) && (c <=? 32))
  || (c =? 133) || (c =? 160) || (c =? 5760)
  || ((8192 <=? c) && (c <=? 8202))
  || (c =? 8232) || (c =? 8233) || (c =? 8239) || (c =? 8287) || (c =? 12288).

(** The regex class [[a-zA-Z0-9]]. *)
Definition is_alnum (c : N) : bool :=
  ((48 <=? c) && (c <=? 57)) || ((65 <=? c) && (c <=? 90))
  || ((97 <=? c) && (c <=? 122)).

Fixpoint lstrip (s : pystr) : pystr :=
  match s with
  | [] => []
  | c :: s' => if is_space c then lstrip s' else s
  end.

Fixpoint rstrip (s : pystr) : pystr :=
  match s with
  | [] => []
  | c :: s' =>
      match rstrip s' with
      | [] => if is_space c then [] else [c]
      | r => c :: r
      end
  end.

(** [s.strip()] *)
Definition strip (s : pystr) : pystr := rstrip (lstrip s).

(** [s[len(p):]] when [s.startswith(p)] *)
Fixpoint strip_prefix (p s : pystr) : option pystr :=
  match p, s with
  | [], _ => Some s
  | a :: p', b :: s' => if a =? b then strip_prefix p' s' else None
  | _ :: _, [] => None
  end.

(** [s.startswith(p)] *)
Definition startswith (s p : pystr) : bool :=
  match strip_prefix p s with Some _ => true | None => false end.

(** [s.replace(old, '', 1)] for a non-empty [old]: the leftmost occurrence of
    [old] is removed. *)
Fixpoint remove_first (old s : pystr) : pystr :=
  match strip_prefix old s with
  | Some rest => rest
  | None => match s with
            | [] => []
            | c :: s' => c :: remove_first old s'
            end
  end.

(** [s.split('\n')] *)
Fixpoint split_nl (s : pystr) : list pystr :=
  match s with
  | [] => [[]]
  | c :: s' =>
      if c =? 10 then [] :: split_nl s'
      else match split_nl s' with
           | l :: ls => (c :: l) :: ls
           | [] => [[c]]
           end
  end.

(** [sep.join(parts)] *)
Fixpoint join (sep : pystr) (parts : list pystr) : pystr :=
  match parts with
  | [] => []
  | [x] => x
  | x :: rest => x ++ sep ++ join sep rest
  end.

(** The longest prefix of characters satisfying [p], and what follows it. *)
Fixpoint span (p : N -> bool) (s : pystr) : pystr * pystr :=
  match s with
  | [] => ([], [])
  | c :: s' => if p c then let '(a, b) := span p s' in (c :: a, b) else ([], s)
  end.

(** Truth value of a string: [bool(s)]. *)
Definition nonempty (s : pystr) : bool :=
  match s with [] => false | _ :: _ => true end.

End PyStr.
Export PyStr.

Arguments py _%_string : simpl never.

(** ** The id tag pattern

    [id_pattern = r'\[ID:?\s*([a-zA-Z0-9]+)\]'].  The three parts that can
    repeat are followed by a character outside their own class, so the
    backtracking matcher has a single way to match at a given position: take
    the colon if it is there, all the whitespace, all the alphanumerics.
    [match_id_at_spec] below relates [match_id_at] to the language of the
    pattern. *)

Module Re.

(** [:?] *)
Definition skip_colon (s : pystr) : pystr :=
  match s with
  | c :: t => if c =? 58 then t else s
  | [] => s
  end.

(** A match of [id_pattern] at the start of [s]: group 1 and the text after
    the match. *)
Definition match_id_at (s : pystr) : option (pystr * pystr) :=
  match strip_prefix (py "[ID") s with
  | None => None
  | Some s1 =>
      let s2 := skip_colon s1 in
      let s3 := lstrip s2 in
      let '(g, s4) := span is_alnum s3 in
      match g, s4 with
      | _ :: _, c :: rest => if c =? 93 then Some (g, rest) else None
      | _, _ => None
      end
  end.

(** [re.search(id_pattern, s)]: the leftmost match, as (text before the match,
    group 1, text after the match). *)
Fixpoint re_search (s : pystr) : option (pystr * pystr * pystr) :=
  match match_id_at s with
  | Some (g, rest) => Some ([], g, rest)
  | None =>
      match s with
      | [] => None
      | c :: s' =>
          match re_search s' with
          | Some (before, g, rest) => Some (c :: before, g, rest)
          | None => None
          end
      end
  end.

(** [re.sub(id_pattern, '', s, 1)]: the leftmost match is removed. *)
Definition re_sub1 (s : pystr) : pystr :=
  match re_search s with
  | Some (before, _, rest) => before ++ rest
  | None => s
  end.

End Re.
Export Re.

(** ** JSON values *)

Module Json.

Unset Elimination Schemes.

(** What [json.loads] returns: [None], [bool], [int], [float], [str], [list]
    and [dict] (string keys, insertion order kept). *)
Inductive json : Type :=
| JNull
| JBool (b : bool)
| JInt (z : Z)
| JFloat (f : spec_float)
| JStr (s : pystr)
| JList (items : list json)
| JDict (entries : list (pystr * json)).

Set Elimination Schemes.

(** Structural induction that reaches the values inside lists and dicts. *)
Definition json_ind (P : json -> Prop)
    (HNull : P JNull) (HBool : forall b, P (JBool b))
    (HInt : forall z, P (JInt z)) (HFloat : forall f, P (JFloat f))
    (HStr : forall s, P (JStr s))
    (HList : forall items, Forall P items -> P (JList items))
    (HDict : forall entries, Forall (fun kv => P (snd kv)) entries
                             -> P (JDict entries)) :
  forall v, P v :=
  fix F (v : json) : P v :=
    match v with
    | JNull => HNull
    | JBool b => HBool b
    | JInt z => HInt z
    | JFloat f => HFloat f
    | JStr s => HStr s
    | JList items =>
        HList items
          ((fix G (l : list json) : Forall P l :=
              match l with
              | [] => List.Forall_nil _
              | x :: l' => @List.Forall_cons _ _ _ _ (F x) (G l')
              end) items)
    | JDict entries =>
        HDict entries
          ((fix G (l : list (pystr * json)) : Forall (fun kv => P (snd kv)) l :=
              match l with
              | [] => List.Forall_nil _
              | kv :: l' => @List.Forall_cons _ _ _ _ (F (snd kv)) (G l')
              end) entries)
    end.

Definition dict := list (pystr * json).

(** [d[k]] when [k in d] *)
Fixpoint dict_get (d : dict) (k : pystr) : option json :=
  match d with
  | [] => None
  | (k', v) :: d' => if bool_decide (k' = k) then Some v else dict_get d' k
  end.

(** [k in d] *)
Definition dict_has (d : dict) (k : pystr) : bool :=
  match dict_get d k with Some _ => true | None => false end.

(** [d[k] = v]: an existing key keeps its place, a new key goes last. *)
Fixpoint dict_set (d : dict) (k : pystr) (v : json) : dict :=
  match d with
  | [] => [(k, v)]
  | (k', v') :: d' =>
      if bool_decide (k' = k) then (k', v) :: d' else (k', v') :: dict_set d' k v
  end.

(** [d.get(k)]: [None] when the key is missing. *)
Definition dict_get_default (d : dict) (k : pystr) : json :=
  match dict_get d k with Some v => v | None => JNull end.

(** [bool(v)] *)
Definition truthy (v : json) : bool :=
  match v with
  | JNull => false
  | JBool b => b
  | JInt z => negb (z =? 0)%Z
  | JFloat f => match f with S754_zero _ => false | _ => true end
  | JStr s => nonempty s
  | JList items => match items with [] => false | _ => true end
  | JDict entries => match entries with [] => false | _ => true end
  end.

Definition is_str (v : json) : bool :=
  match v with JStr _ => true | _ => false end.
Definition is_list (v : json) : bool :=
  match v with JList _ => true | _ => false end.
Definition is_dict (v : json) : bool :=
  match v with JDict _ => true | _ => false end.

End Json.
Export Json.

(** ** Exceptions and results *)

(** The exceptions the modelled code can meet: the [TypeError] of an
    unhashable dict key, the [UnboundLocalError] of a local name read before
    its binding, and whatever the text-generation service raises. *)
Inductive exn : Type :=
| TypeError
| UnboundLocalError (name : pystr)
| ServiceError (msg : pystr).

Inductive outcome (A : Type) : Type :=
| Return (a : A)
| Raise (e : exn).
Arguments Return {A} a.
Arguments Raise {A} e.

(** ** Edit Reconciler *)

Module Reconciler.

(** One entry of the flattened list: [{'id': ..., 'text': ...}].  The id is
    whatever value the tree carries; the text is a [str]. *)
Record FlatNode : Type := { flat_id : json; flat_text : pystr }.

(** One entry of [path_updates]: [{'path': 'new' | None, 'content', 'id'}]. *)
Record PathUpdate : Type :=
  { upd_path : option pystr; upd_content : pystr; upd_id : pystr }.

(** [original_nodes_by_id = {node['id']: node for node in original_nodes}].
    A list or dict id is unhashable and raises [TypeError].  The table is only
    ever read with a parsed tag, a [str], which no key of another type equals:
    the model keeps the string keys.  A later node with the same id replaces
    the earlier one. *)
Fixpoint index_by_id (nodes : list FlatNode) (acc : gmap pystr FlatNode)
  : outcome (gmap pystr FlatNode) :=
  match nodes with
  | [] => Return acc
  | node :: rest =>
      match flat_id node with
      | JList _ | JDict _ => Raise TypeError
      | JStr s => index_by_id rest (<[s := node]> acc)
      | _ => index_by_id rest acc
      end
  end.

(** The variables the loop of [_parse_edited_content] updates, and the number
    of [uuid.uuid4()] calls made so far. *)
Record parse_state : Type :=
  { path_updates : list PathUpdate;
    processed_ids : gset pystr;
    uuid_calls : nat }.

Definition initial_state : parse_state :=
  {| path_updates := []; processed_ids := ∅; uuid_calls := 0 |}.

Section Parse.

(** [uuid4 k] is [str(uuid.uuid4())] of the [k]-th call. *)
Variable uuid4 : nat -> pystr.
Variable original_nodes_by_id : gmap pystr FlatNode.

(** The text and tag of a line once [[NEW]] and the first id tag are taken
    off: [(is_new_node, parsed_node_id_from_tag, final_text_content)]. *)
Definition parse_line (current_paragraph_stripped : pystr)
  : bool * option pystr * pystr :=
  let is_new_node := startswith current_paragraph_stripped (py "[NEW]") in
  let content_after_new_tag_processing :=
    if is_new_node
    then strip (remove_first (py "[NEW]") current_paragraph_stripped)
    else current_paragraph_stripped in
  let id_match := re_search content_after_new_tag_processing in
  let parsed_node_id_from_tag :=
    match id_match with
    | Some (_, group1, _) => Some (strip group1)
    | None => None
    end in
  let final_text_content :=
    match id_match with
    | Some _ => strip (re_sub1 content_after_new_tag_processing)
    | None => content_after_new_tag_processing
    end in
  let final_text_content :=
    if bool_decide (final_text_content = py "(empty)") then []
    else final_text_content in
  (is_new_node, parsed_node_id_from_tag, final_text_content).

(** The branch [if is_new_node:] of the loop body.  [tagged] is the truth
    value of [parsed_node_id_from_tag] and [tag] its value; [uuid.uuid4()] is
    called only when there is no tag. *)
Definition handle_new (st : parse_state) (tagged : bool)
    (tag final_text_content : pystr) : parse_state :=
  let node_id_for_update :=
    if tagged then tag else take 4 (uuid4 (uuid_calls st)) in
  let calls := if tagged then uuid_calls st else S (uuid_calls st) in
  if tagged && bool_decide (tag ∈ processed_ids st)
  then st
  else
    {| path_updates :=
         path_updates st ++
           [{| upd_path := Some (py "new");
               upd_content := final_text_content;
               upd_id := node_id_for_update |}];
       processed_ids :=
         if tagged then {[tag]} ∪ processed_ids st else processed_ids st;
       uuid_calls := calls |}.

(** The branch [else:] of the loop body, once the line is known to carry a
    tag. *)
Definition handle_existing (st : parse_state) (tag final_text_content : pystr)
  : parse_state :=
  if bool_decide (tag ∈ processed_ids st) then st
  else if startswith final_text_content (py "[ID:")
          && (length final_text_content <? 15)%nat
  then st
  else
    let processed := {[tag]} ∪ processed_ids st in
    match original_nodes_by_id !! tag with
    | Some original_node =>
        let original_text := flat_text original_node in
        if bool_decide (final_text_content ≠ original_text)
        then {| path_updates :=
                  path_updates st ++
                    [{| upd_path := None;
                        upd_content := final_text_content;
                        upd_id := tag |}];
                processed_ids := processed;
                uuid_calls := uuid_calls st |}
        else {| path_updates := path_updates st;
                processed_ids := processed;
                uuid_calls := uuid_calls st |}
    | None =>
        {| path_updates := path_updates st;
           processed_ids := processed;
           uuid_calls := uuid_calls st |}
    end.

(** One iteration of [for paragraph_text in paragraphs]. *)
Definition process_paragraph (st : parse_state) (paragraph_text : pystr)
  : parse_state :=
  let current_paragraph_stripped := strip paragraph_text in
  if negb (nonempty current_paragraph_stripped) then st
  else
    let '(is_new_node, parsed_node_id_from_tag, final_text_content) :=
      parse_line current_paragraph_stripped in
    let tagged :=
      match parsed_node_id_from_tag with
      | Some tag => nonempty tag
      | None => false
      end in
    let tag := default [] parsed_node_id_from_tag in
    if is_new_node then handle_new st tagged tag final_text_content
    else if negb tagged then st
    else handle_existing st tag final_text_content.

(** The loop over [edited_content.split('\n')]. *)
Definition parse_loop (edited_content : pystr) : parse_state :=
  fold_left process_paragraph (split_nl edited_content) initial_state.

End Parse.

Definition _parse_edited_content (uuid4 : nat -> pystr)
    (edited_content : pystr) (original_nodes : list FlatNode)
  : outcome (list PathUpdate) :=
  match index_by_id original_nodes ∅ with
  | Raise e => Raise e
  | Return original_nodes_by_id =>
      Return (path_updates
                (parse_loop uuid4 original_nodes_by_id edited_content))
  end.

End Reconciler.
Export Reconciler.

(** ** Node Identifier *)

Module Identifier.

Definition hex_digit (d : N) : N := if d <? 10 then 48 + d else 87 + d.

Fixpoint hex_digits (fuel : nat) (n : N) (acc : pystr) : pystr :=
  match fuel with
  | O => acc
  | S fuel' =>
      let acc' := hex_digit (n mod 16) :: acc in
      if n / 16 =? 0 then acc' else hex_digits fuel' (n / 16) acc'
  end.

(** [f"{n:x}"]: lower-case hexadecimal digits, at least one. *)
Definition hex (n : N) : pystr := hex_digits (S (N.size_nat n)) n [].

(** [f"{n:04x}"]: zero-padded to four digits. *)
Definition format_04x (n : N) : pystr :=
  let digits := hex n in
  repeat 48 (4 - length digits)%nat ++ digits.

(** The state the identification pass threads: the set [existing_ids], which
    the calls share and update in place, and the values [random.randint(0,
    0xFFFF)] is still to return.  A run that needs more values than it is
    given has no result. *)
Definition id_state : Type := gset pystr * list N.
Definition M (A : Type) : Type := id_state -> option (A * id_state).

Definition ret {A} (a : A) : M A := fun st => Some (a, st).
Definition bind {A B} (m : M A) (k : A -> M B) : M B :=
  fun st => match m st with
            | Some (a, st') => k a st'
            | None => None
            end.

Notation "'let*' x ':=' m 'in' k" := (bind m (fun x => k))
  (at level 10, x pattern, m at level 100, k at level 200).

(** [_generate_random_hex_id(existing_ids)]: draw until the id is not in the
    set. *)
Fixpoint generate_random_hex_id (existing_ids : gset pystr) (draws : list N)
  : option (pystr * list N) :=
  match draws with
  | [] => None
  | r :: draws' =>
      let new_id := format_04x r in
      if bool_decide (new_id ∈ existing_ids)
      then generate_random_hex_id existing_ids draws'
      else Some (new_id, draws')
  end.

(** [new_id = self._generate_random_hex_id(existing_ids)] followed by
    [existing_ids.add(new_id)]. *)
Definition fresh_id : M pystr :=
  fun '(existing_ids, draws) =>
    match generate_random_hex_id existing_ids draws with
    | Some (new_id, draws') => Some (new_id, ({[new_id]} ∪ existing_ids, draws'))
    | None => None
    end.

(** [for i, item in enumerate(node): node[i] = f(item)] *)
Definition for_each (f : json -> M json) : list json -> M (list json) :=
  fix go (items : list json) : M (list json) :=
    match items with
    | [] => ret []
    | item :: items' =>
        let* item' := f item in
        let* rest := go items' in
        ret (item' :: rest)
    end.

(** [for key, value in node.items(): node[key] = f(value)] *)
Definition for_items (f : json -> M json) : dict -> M dict :=
  fix go (entries : dict) : M dict :=
    match entries with
    | [] => ret []
    | (key, value) :: entries' =>
        let* value' := f value in
        let* rest := go entries' in
        ret ((key, value') :: rest)
    end.

(** ['type' in node and not node.get('id')] *)
Definition needs_id (node : dict) : bool :=
  dict_has node (py "type") && negb (truthy (dict_get_default node (py "id"))).

(** [add_ids_to_nodes(node, node_id, existing_ids)].  The argument [node_id]
    is only handed down and never read, so it is left out.

    The source first stores the new id in the dict and then walks the items
    of the dict, the new entry included.  Here the walk is over the entries
    the dict arrived with and the id is stored afterwards, which keeps the
    recursion structural; [add_ids_to_nodes_dict] proves that the function
    satisfies the equation of the source. *)
Fixpoint add_ids_to_nodes (node : json) : M json :=
  match node with
  | JDict entries =>
      if needs_id entries then
        let* new_id := fresh_id in
        let* entries' := for_items add_ids_to_nodes entries in
        ret (JDict (dict_set entries' (py "id") (JStr new_id)))
      else
        let* entries' := for_items add_ids_to_nodes entries in
        ret (JDict entries')
  | JList items =>
      let* items' := for_each add_ids_to_nodes items in
      ret (JList items')
  | _ => ret node
  end.

End Identifier.
Export Identifier.

(** ** Tree Flattener *)

Module Flattener.

(** The value found under [key] when it is a list: [f] applied to it, and
    [dflt] when the key is missing or holds something else. *)
Definition list_at {A} (key : pystr) (f : list json -> A) (dflt : A)
  : dict -> A :=
  fix go (entries : dict) : A :=
    match entries with
    | [] => dflt
    | (k, v) :: entries' =>
        if bool_decide (k = key)
        then match v with
             | JList items => f items
             | _ => dflt
             end
        else go entries'
    end.

(** What one iteration of the loop of [_extract_text_from_content] appends to
    [text_parts]. *)
Fixpoint extract_item (item : json) : list pystr :=
  match item with
  | JDict entries =>
      match dict_get entries (py "text") with
      | Some (JStr text) => [text]
      | _ =>
          list_at (py "content")
            (fun content =>
               let nested_text :=
                 join (py " ") (flat_map extract_item content) in
               if nonempty nested_text then [nested_text] else [])
            [] entries
      end
  | _ => []
  end.

Definition _extract_text_from_content (content : list json) : pystr :=
  join (py " ") (flat_map extract_item content).

(** ['text' in node and isinstance(node['text'], str) and node['text'].strip()] *)
Definition has_visible_text (node : dict) : bool :=
  match dict_get node (py "text") with
  | Some (JStr text) => nonempty (strip text)
  | _ => false
  end.

(** ['content' in item and isinstance(item['content'], list)] *)
Definition has_content_list (node : dict) : bool :=
  match dict_get node (py "content") with
  | Some (JList _) => true
  | _ => false
  end.

(** The id of a node: its own [id] key, else [attrs.id], else [None]. *)
Definition node_id_of (node : dict) : json :=
  match dict_get node (py "id") with
  | Some v => v
  | None =>
      match dict_get node (py "attrs") with
      | Some (JDict attrs) => dict_get_default attrs (py "id")
      | _ => JNull
      end
  end.

(** The two tests the loop over [node['content']] counts. *)
Definition item_has_text (item : json) : bool :=
  match item with
  | JDict i => has_visible_text i
  | _ => false
  end.

Definition item_has_content (item : json) : bool :=
  match item with
  | JDict i => has_content_list i
  | _ => false
  end.

Definition is_leaf_node (node : dict) : bool :=
  if has_visible_text node then true
  else
    match dict_get node (py "content") with
    | Some (JList content) =>
        let text_items := length (List.filter item_has_text content) in
        let nested_content_items :=
          length (List.filter item_has_content content) in
        (0 <? text_items)%nat && (nested_content_items =? 0)%nat
    | _ => false
    end.

(** The body of [if is_leaf_node and node_id is not None]. *)
Definition emit_leaf (node : dict) (node_id : json) (result : list FlatNode)
  : list FlatNode :=
  match dict_get node (py "text") with
  | Some (JStr text) => result ++ [{| flat_id := node_id; flat_text := text |}]
  | _ =>
      match dict_get node (py "content") with
      | Some (JList content) =>
          let text_content := _extract_text_from_content content in
          if nonempty text_content
          then result ++ [{| flat_id := node_id; flat_text := text_content |}]
          else result
      | _ => result
      end
  end.

Definition is_none (v : json) : bool :=
  match v with JNull => true | _ => false end.

(** [key not in ['id', 'text', 'children', 'content', 'attrs']] *)
Definition other_key (key : pystr) : bool :=
  negb (bool_decide
          (key ∈ [py "id"; py "text"; py "children"; py "content"; py "attrs"])).

(** [for key, value in node.items()], with the test of the loop for the
    other attributes: the values that are dicts or lists, under keys other
    than the five named ones, are handed to [f]. *)
Definition for_other_attrs
    (f : json -> list FlatNode -> list FlatNode)
  : dict -> list FlatNode -> list FlatNode :=
  fix others (items : dict) (result : list FlatNode) : list FlatNode :=
    match items with
    | [] => result
    | (key, value) :: items' =>
        others items'
          (if other_key key && (is_dict value || is_list value)
           then f value result
           else result)
    end.

(** [flatten_nodes_to_list(node, result, current_path, parent_idx)].  The two
    path arguments are built and handed down but never reach the result, so
    they are left out.  [result] is the list the calls append to. *)
Fixpoint flatten_nodes_to_list (node : json) (result : list FlatNode)
  : list FlatNode :=
  match node with
  | JDict entries =>
      let node_id := node_id_of entries in
      if is_leaf_node entries && negb (is_none node_id)
      then emit_leaf entries node_id result
      else
        let result :=
          list_at (py "children")
            (fun children =>
               fold_left (fun r child => flatten_nodes_to_list child r)
                 children result)
            result entries in
        let result :=
          list_at (py "content")
            (fun content =>
               fold_left (fun r item => flatten_nodes_to_list item r)
                 content result)
            result entries in
        for_other_attrs flatten_nodes_to_list entries result
  | JList items =>
      fold_left (fun r item => flatten_nodes_to_list item r) items result
  | _ => result
  end.

End Flattener.
Export Flattener.

(** ** Dump/Render and the orchestrator *)

Module Pipeline.

Definition nl : pystr := [10].

(** A value of the dict [process_jsonnode] returns. *)
Inductive rvalue : Type :=
| RStr (s : pystr)
| RUpdates (updates : list PathUpdate).

Definition result : Type := list (pystr * rvalue).

Fixpoint result_get (r : result) (k : pystr) : option rvalue :=
  match r with
  | [] => None
  | (k', v) :: r' => if bool_decide (k' = k) then Some v else result_get r' k
  end.

(** Reading a local name of a function body: a name the body binds somewhere
    but has not bound yet raises [UnboundLocalError]. *)
Definition read_local {A} (name : pystr) (binding : option A) : outcome A :=
  match binding with
  | Some v => Return v
  | None => Raise (UnboundLocalError name)
  end.

(** The message of the empty-output branch, a literal of the source. *)
Definition empty_output_message : pystr :=
  [76; 76; 77; 36820; 22238; 20102; 31354; 20869; 23481; 65292; 26080; 27861;
   36827; 34892; 35299; 26512].

Section Orchestrator.

(** [str(v)] for the values that are not strings, as an f-string needs it. *)
Variable str_other : json -> pystr.
(** [uuid4 k] is [str(uuid.uuid4())] of the [k]-th call. *)
Variable uuid4 : nat -> pystr.
(** The chat history is only handed to the generation service. *)
Variable history : Type.
(** The injected text-generation service, called with the prompt, the system
    message and the chat history; it returns a string or raises. *)
Variable generate_text : pystr -> pystr -> history -> outcome pystr.
(** [user_prompt_template.format(dumpstr=..., message=...,
    selected_paragraphs=...)] and [ModifyPrompts.modify_prompt_system()]. *)
Variable format_user_prompt : pystr -> pystr -> pystr -> pystr.
Variable system_prompt : pystr.
(** [str(e)] of a caught exception. *)
Variable exn_str : exn -> pystr.

(** [f"{v}"] *)
Definition fstr (v : json) : pystr :=
  match v with
  | JStr s => s
  | _ => str_other v
  end.

Definition dump_line (node : FlatNode) : pystr :=
  py "[ID:" ++ fstr (flat_id node) ++ py "] " ++ flat_text node.

Definition dump_flattened_nodes (flattened : list FlatNode) : pystr :=
  join nl (map dump_line flattened).

(** [node['id'] in selected_nodes_ids], the latter a list of strings. *)
Definition selected (selected_nodes_ids : list pystr) (node : FlatNode) : bool :=
  match flat_id node with
  | JStr s => bool_decide (s ∈ selected_nodes_ids)
  | _ => false
  end.

(** [process_jsonnode(jsonnode, message, selected_text, selected_nodes_ids,
    chat_history)].  [selected_text] is not read.  The function imports
    [logging] inside its exception handler only, which makes [logging] a
    local name of the whole function: in the [try] body it is not bound. *)
Definition process_jsonnode (jsonnode : json) (message : pystr)
    (selected_nodes_ids : list pystr) (chat_history : history) : result :=
  let flattened := flatten_nodes_to_list jsonnode [] in
  let dumpstr := dump_flattened_nodes flattened in
  let flattened_selected :=
    List.filter (selected selected_nodes_ids) flattened in
  let selected_paragraphs := dump_flattened_nodes flattened_selected in
  let logging : option unit := None in
  let try_body : outcome result :=
    let user_prompt :=
      format_user_prompt dumpstr message selected_paragraphs in
    match generate_text user_prompt system_prompt chat_history with
    | Raise e => Raise e
    | Return edited_content =>
        if (length edited_content =? 0)%nat then
          match read_local (py "logging") logging with
          | Raise e => Raise e
          | Return _ =>
              Return [(py "error", RStr empty_output_message);
                      (py "message", RStr message)]
          end
        else
          match _parse_edited_content uuid4 edited_content flattened with
          | Raise e => Raise e
          | Return path_updates =>
              Return [(py "original", RStr dumpstr);
                      (py "edited", RStr edited_content);
                      (py "message", RStr message);
                      (py "path_updates", RUpdates path_updates)]
          end
    end in
  match try_body with
  | Return r => r
  | Raise e =>
      [(py "original", RStr dumpstr);
       (py "error", RStr (exn_str e));
       (py "message", RStr message)]
  end.

End Orchestrator.

End Pipeline.
Export Pipeline.


(** ** Section outline

    [_flatten_sections] works on the outline the document analyzer returns: a
    list of section dicts, the sub-sections of a section under its
    [children] key. *)

Module Sections.

(** The exceptions the walk meets on a value that is not such an outline:
    [TypeError: ... object is not iterable], [AttributeError: ... object has
    no attribute 'copy'] and [TypeError: list indices must be integers or
    slices, not str]. *)
Inductive section_error : Type :=
| NotIterable
| NoCopyAttribute
| ListIndexNotInt.

Inductive walk (A : Type) : Type :=
| Done (a : A)
| Failed (e : section_error).
Arguments Done {A} a.
Arguments Failed {A} e.

(** [del d[k]] for a key of [d]; the other entries keep their order. *)
Fixpoint dict_del (d : dict) (k : pystr) : dict :=
  match d with
  | [] => []
  | (k', v) :: d' =>
      if bool_decide (k' = k) then dict_del d' k else (k', v) :: dict_del d' k
  end.

(** [k in l] for a list [l] and a string [k]: some item equals the string. *)
Definition list_has (l : list json) (k : pystr) : bool :=
  existsb (fun v => match v with
                    | JStr s => bool_decide (s = k)
                    | _ => false
                    end) l.

(** [f] applied to [d[key]] when [key in d], and [dflt] otherwise. *)
Definition value_at {A} (key : pystr) (f : json -> A) (dflt : A)
  : dict -> A :=
  fix go (entries : dict) : A :=
    match entries with
    | [] => dflt
    | (k, v) :: entries' => if bool_decide (k = key) then f v else go entries'
    end.

(** [for section in sections: body], the list [flattened] handed from one
    iteration to the next; an exception ends the loop. *)
Definition for_sections (body : json -> list json -> walk (list json))
  : list json -> list json -> walk (list json) :=
  fix go (sections : list json) (flattened : list json) : walk (list json) :=
    match sections with
    | [] => Done flattened
    | section :: sections' =>
        match body section flattened with
        | Done flattened' => go sections' flattened'
        | Failed e => Failed e
        end
    end.

(** [_flatten_recursive(section_list)], the inner function of
    [_flatten_sections]; [flattened] is the list of the enclosing function,
    which the calls append to.

    The loop iterates over whatever it is given: the items of a list, the
    keys of a dict, the characters of a string; the other values are not
    iterable.  Its body copies the section, which a dict and a list allow,
    and tests the copy for ['children'] and ['title'] with [in]; a list
    that holds the string ['children'] is then indexed with it, which
    raises.  The copy is shallow and nothing is written through it but its
    own [children] key, so the sections of the argument stay as they are. *)
Fixpoint _flatten_recursive (section_list : json) (flattened : list json)
  : walk (list json) :=
  match section_list with
  | JList sections =>
      for_sections
        (fun section flattened =>
           match section with
           | JDict section_copy =>
               match
                 value_at (py "children")
                   (fun children =>
                      match _flatten_recursive children flattened with
                      | Done flattened =>
                          Done (flattened,
                                dict_del section_copy (py "children"))
                      | Failed e => Failed e
                      end)
                   (Done (flattened, section_copy)) section_copy
               with
               | Failed e => Failed e
               | Done (flattened, section_copy) =>
                   Done (if dict_has section_copy (py "title")
                         then flattened ++ [JDict section_copy]
                         else flattened)
               end
           | JList section_copy =>
               if list_has section_copy (py "children")
               then Failed ListIndexNotInt
               else Done (if list_has section_copy (py "title")
                          then flattened ++ [JList section_copy]
                          else flattened)
           | _ => Failed NoCopyAttribute
           end)
        sections flattened
  | JDict [] | JStr [] => Done flattened
  | JDict (_ :: _) | JStr (_ :: _) => Failed NoCopyAttribute
  | _ => Failed NotIterable
  end.

(** The body of the loop of [_flatten_recursive], for one section. *)
Definition flatten_section (section : json) (flattened : list json)
  : walk (list json) :=
  match section with
  | JDict section_copy =>
      match
        value_at (py "children")
          (fun children =>
             match _flatten_recursive children flattened with
             | Done flattened =>
                 Done (flattened, dict_del section_copy (py "children"))
             | Failed e => Failed e
             end)
          (Done (flattened, section_copy)) section_copy
      with
      | Failed e => Failed e
      | Done (flattened, section_copy) =>
          Done (if dict_has section_copy (py "title")
                then flattened ++ [JDict section_copy]
                else flattened)
      end
  | JList section_copy =>
      if list_has section_copy (py "children")
      then Failed ListIndexNotInt
      else Done (if list_has section_copy (py "title")
                 then flattened ++ [JList section_copy]
                 else flattened)
  | _ => Failed NoCopyAttribute
  end.

(** [_flatten_sections(sections)] *)
Definition _flatten_sections (sections : json) : walk (list json) :=
  _flatten_recursive sections [].

End Sections.
Export Sections.

(** ** The diff of a section edit

    [DocumentPipeline.apply_edit] obtains the edit of a section from
    [SectionEditor.get_ai_edit], which hands the answer of the model to
    [_extract_diff] of [section_editor.py]. *)

Module Diff.

(** [for i, line in enumerate(lines): if line.startswith('---'): diff_start =
    i; break], the enumeration starting at [i]; [None] when the loop ends
    without finding a line. *)
Fixpoint find_diff_start (i : nat) (lines : list pystr) : option nat :=
  match lines with
  | [] => None
  | line :: lines' =>
      if startswith line (py "---") then Some i
      else find_diff_start (S i) lines'
  end.

(** [_extract_diff(response)] *)
Definition _extract_diff (response : pystr) : pystr :=
  let lines := split_nl response in
  match find_diff_start 0 lines with
  | None => []
  | Some diff_start => join nl (drop diff_start lines)
  end.

End Diff.
Export Diff.

(** * Vocabulary of the properties *)

Module Spec.

(** The language of [id_pattern]: the strings it can match. *)
Definition id_tag (colon ws g : pystr) : Prop :=
  (colon = [] \/ colon = [58])
  /\ Forall (fun c => is_space c = true) ws
  /\ g <> [] /\ Forall (fun c => is_alnum c = true) g.

(** Every dict with a [type] key carries a truthy [id]. *)
Fixpoint ids_assigned (v : json) : bool :=
  match v with
  | JDict entries =>
      negb (needs_id entries)
      && forallb (fun kv => ids_assigned (snd kv)) entries
  | JList items => forallb ids_assigned items
  | _ => true
  end.

Definition is_container (v : json) : bool := is_list v || is_dict v.

(** [T'] is [T] with an [id] set on dicts that have a [type] key and no truthy
    [id], and nothing else changed: lists keep their items in order, dicts
    keep their keys in order, and a new [id] key goes last. *)
Unset Elimination Schemes.
Inductive id_frame : json -> json -> Prop :=
| frame_scalar v : is_container v = false -> id_frame v v
| frame_list items items' :
    Forall2 id_frame items items' -> id_frame (JList items) (JList items')
| frame_dict_kept entries entries' :
    needs_id entries = false ->
    Forall2 (fun kv kv' => kv.1 = kv'.1 /\ id_frame kv.2 kv'.2)
      entries entries' ->
    id_frame (JDict entries) (JDict entries')
| frame_dict_new entries entries' new_id :
    needs_id entries = true ->
    Forall2 (fun kv kv' => kv.1 = kv'.1 /\ id_frame kv.2 kv'.2)
      entries entries' ->
    id_frame (JDict entries)
      (JDict (dict_set entries' (py "id") (JStr new_id))).
Set Elimination Schemes.

(** A place in a tree: keys and indices from the root. *)
Inductive step : Type :=
| Key (k : pystr)
| Index (i : nat).

Fixpoint get_path (p : list step) (v : json) : option json :=
  match p with
  | [] => Some v
  | Key k :: p' =>
      match v with
      | JDict entries =>
          match dict_get entries k with
          | Some x => get_path p' x
          | None => None
          end
      | _ => None
      end
  | Index i :: p' =>
      match v with
      | JList items =>
          match items !! i with
          | Some x => get_path p' x
          | None => None
          end
      | _ => None
      end
  end.

(** The place [p] of [T] is not the [id] entry of a dict that is due to
    receive an id. *)
Definition kept_place (T : json) (p : list step) : Prop :=
  forall p0 entries,
    p = p0 ++ [Key (py "id")] -> get_path p0 T = Some (JDict entries) ->
    needs_id entries = false.

(** A run of a loop that threads the state through the elements of a list. *)
Inductive threaded {A B : Type}
    (R : A -> id_state -> B -> id_state -> Prop)
  : list A -> id_state -> list B -> id_state -> Prop :=
| threaded_nil st : threaded R [] st [] st
| threaded_cons a l st b st1 l' st2 :
    R a st b st1 -> threaded R l st1 l' st2 ->
    threaded R (a :: l) st (b :: l') st2.

(** The ids [gen] were generated, in this order, on the way from the state
    [(ex, draws)] to the state [(ex', draws')]. *)
Record generated (ex : gset pystr) (draws : list N)
    (ex' : gset pystr) (draws' : list N) (gen : list pystr) : Prop :=
  { gen_set : ex' = list_to_set gen ∪ ex;
    gen_draws :
      exists used,
        draws = used ++ draws'
        /\ forall g, g ∈ gen -> exists r, r ∈ used /\ g = format_04x r;
    gen_nodup : NoDup gen;
    gen_fresh : forall g, g ∈ gen -> g ∉ ex }.

(** The values still to be drawn render to pairwise distinct ids, none of
    them in the set: no draw will be rejected. *)
Definition fresh_draws (st : id_state) : Prop :=
  NoDup (map format_04x st.2)
  /\ forall r, r ∈ st.2 -> format_04x r ∉ st.1.

(** The state after [n] draws, each accepted. *)
Definition after_draws (n : nat) (st : id_state) : id_state :=
  (list_to_set (map format_04x (take n st.2)) ∪ st.1, drop n st.2).

Definition zip_flat {A B C : Type} (f : A -> B -> list C)
  : list A -> list B -> list C :=
  fix go (l : list A) (l' : list B) : list C :=
    match l, l' with
    | a :: l1, b :: l1' => f a b ++ go l1 l1'
    | _, _ => []
    end.

(** The ids that the dicts of [T] due to receive one carry in [T'], in
    document order. *)
Fixpoint assigned_ids (T T' : json) {struct T} : list json :=
  match T, T' with
  | JDict entries, JDict entries' =>
      (if needs_id entries then [dict_get_default entries' (py "id")] else [])
      ++ zip_flat (fun kv kv' => assigned_ids kv.2 kv'.2) entries entries'
  | JList items, JList items' => zip_flat assigned_ids items items'
  | _, _ => []
  end.

Definition sum_with {A : Type} (f : A -> nat) : list A -> nat :=
  fix go (l : list A) : nat :=
    match l with
    | [] => 0%nat
    | x :: l' => (f x + go l')%nat
    end.

(** The number of dicts of [T] due to receive an id. *)
Fixpoint need_ids (T : json) : nat :=
  match T with
  | JDict entries =>
      ((if needs_id entries then 1 else 0)
       + sum_with (fun kv => need_ids kv.2) entries)%nat
  | JList items => sum_with need_ids items
  | _ => 0%nat
  end.

(** The [id] values of the dicts of [T] that have an [id] key, in document
    order. *)
Fixpoint node_ids (T : json) : list json :=
  match T with
  | JDict entries =>
      match dict_get entries (py "id") with
      | Some v => [v]
      | None => []
      end ++ flat_map (fun kv => node_ids kv.2) entries
  | JList items => flat_map node_ids items
  | _ => []
  end.

(** ID uniqueness as the specification words it, for a tree that may carry
    ids already. *)
Definition id_uniqueness : Prop :=
  forall (T : json) (draws : list N) (T' : json) (st' : id_state),
    add_ids_to_nodes T (∅, draws) = Some (T', st') ->
    ids_assigned T' = true /\ NoDup (node_ids T').

(** [ok] holds of every dict of the tree. *)
Fixpoint all_dicts (ok : dict -> bool) (v : json) : bool :=
  match v with
  | JDict entries =>
      ok entries && forallb (fun kv => all_dicts ok kv.2) entries
  | JList items => forallb (all_dicts ok) items
  | _ => true
  end.

(** A dict that passes the leaf test while its own [text] is a blank
    string. *)
Definition blank_text_leaf (node : dict) : bool :=
  match dict_get node (py "text") with
  | Some (JStr text) => negb (nonempty (strip text)) && is_leaf_node node
  | _ => false
  end.

(** A flat node the render/parse round trip gives back as it was: its id is a
    non-empty alphanumeric string, its text has no newline, no leading or
    trailing whitespace, and is not the placeholder [(empty)]. *)
Definition roundtrip_safe (node : FlatNode) : bool :=
  match flat_id node with
  | JStr s =>
      nonempty s && forallb is_alnum s
      && negb (bool_decide (10 ∈ flat_text node))
      && bool_decide (strip (flat_text node) = flat_text node)
      && negb (bool_decide (flat_text node = py "(empty)"))
  | _ => false
  end.

(** The round-trip identity as the specification words it. *)
Definition round_trip_identity : Prop :=
  forall (str_other : json -> pystr) (uuid4 : nat -> pystr) (T : json),
    ids_assigned T = true ->
    _parse_edited_content uuid4
      (dump_flattened_nodes str_other (flatten_nodes_to_list T []))
      (flatten_nodes_to_list T [])
    = Return [].

(** The rendering of an empty paragraph as the specification words it. *)
Definition render_writes_empty_marker : Prop :=
  forall str_other : json -> pystr,
    dump_flattened_nodes str_other
      [{| flat_id := JStr (py "c3"); flat_text := [] |}]
    = py "[ID:c3] (empty)".

(** A line that is [[DELETE:x]] once stripped, with no further bracket in
    [x]. *)
Definition delete_line (line : pystr) : Prop :=
  exists x, (91 ∉ x) /\ strip line = py "[DELETE:" ++ x ++ py "]".

(** The id tag the parser reads on a line of the response, if any. *)
Definition line_tag (line : pystr) : option pystr :=
  (parse_line (strip line)).1.2.

(** The id synthesized by the [k]-th call of [uuid.uuid4()]. *)
Definition synthesized (uuid4 : nat -> pystr) (k : nat) : pystr :=
  take 4 (uuid4 k).

(** What one line of the response does to the state of the loop: nothing
    ([line_skip]); it marks its tag as processed and emits at most one update,
    with that tag as id ([line_tagged]); or it emits an update with a
    synthesized id ([line_synthesized]). *)
Inductive line_effect (uuid4 : nat -> pystr) (line : pystr)
  (st st' : parse_state) : Prop :=
| line_skip : st' = st -> line_effect uuid4 line st st'
| line_tagged tag :
    line_tag line = Some tag ->
    tag ∉ processed_ids st ->
    processed_ids st' = {[tag]} ∪ processed_ids st ->
    uuid_calls st' = uuid_calls st ->
    (path_updates st' = path_updates st
     \/ exists u, path_updates st' = path_updates st ++ [u] /\ upd_id u = tag) ->
    line_effect uuid4 line st st'
| line_synthesized u :
    path_updates st' = path_updates st ++ [u] ->
    upd_id u = synthesized uuid4 (uuid_calls st) ->
    upd_path u = Some (py "new") ->
    processed_ids st' = processed_ids st ->
    uuid_calls st' = S (uuid_calls st) ->
    line_effect uuid4 line st st'.

(** The updates that replace the content of an existing node. *)
Definition is_modification (u : PathUpdate) : bool :=
  match upd_path u with None => true | Some _ => false end.

(** The invariant of the loop of [_parse_edited_content], for a response
    whose lines are [lines]. *)
Record loop_invariant (uuid4 : nat -> pystr) (lines : list pystr)
  (st : parse_state) : Prop :=
  { inv_origin :
      forall u, u ∈ path_updates st ->
                upd_id u ∈ processed_ids st
                \/ exists k, (k < uuid_calls st)%nat
                             /\ upd_id u = synthesized uuid4 k;
    inv_tags :
      forall s, s ∈ processed_ids st ->
                exists line, line ∈ lines /\ line_tag line = Some s;
    inv_existing :
      forall u, u ∈ path_updates st -> upd_path u = None ->
                upd_id u ∈ processed_ids st;
    inv_modifications :
      NoDup (map upd_id (List.filter is_modification (path_updates st))) }.

(** The ids [uuid.uuid4()] can give to the lines of a response are pairwise
    distinct, and none is the tag of a line. *)
Definition fresh_supply (uuid4 : nat -> pystr) (lines : list pystr) : bool :=
  bool_decide (NoDup (map (synthesized uuid4) (seq 0 (length lines))))
  && forallb
       (fun k =>
          forallb
            (fun line =>
               negb (bool_decide (line_tag line = Some (synthesized uuid4 k))))
            lines)
       (seq 0 (length lines)).

(** Duplicate-free output as the specification words it. *)
Definition duplicate_free_output : Prop :=
  forall (uuid4 : nat -> pystr) (edited : pystr) (original : list FlatNode)
         (updates : list PathUpdate),
    _parse_edited_content uuid4 edited original = Return updates ->
    NoDup (map upd_id updates).

(** The orchestrator running the Node Identifier before it flattens, as the
    specification words it: a call on [tree] returns what a call on the
    identified tree returns. *)
Definition orchestrator_assigns_ids : Prop :=
  forall (str_other : json -> pystr) (uuid4 : nat -> pystr)
         (generate_text : pystr -> pystr -> unit -> outcome pystr)
         (format_user_prompt : pystr -> pystr -> pystr -> pystr)
         (system_prompt : pystr) (exn_str : exn -> pystr)
         (tree : json) (message : pystr) (selected_nodes_ids : list pystr),
  exists draws tree' st',
    add_ids_to_nodes tree (∅, draws) = Some (tree', st')
    /\ process_jsonnode str_other uuid4 unit generate_text format_user_prompt
         system_prompt exn_str tree message selected_nodes_ids tt
       = process_jsonnode str_other uuid4 unit generate_text format_user_prompt
           system_prompt exn_str tree' message selected_nodes_ids tt.

(** *** Inputs of the examples *)

(** A text-generation service that returns the empty string. *)
Definition generate_nothing {history : Type}
  (prompt system_message : pystr) (chat_history : history) : outcome pystr :=
  Return [].

(** A text-generation service that returns one tagged line. *)
Definition generate_line (prompt system_message : pystr) (chat_history : unit)
  : outcome pystr :=
  Return (py "[ID:a1] Hello!").

(** The prompt, for the examples: the three parts one after the other. *)
Definition format_plain (dumpstr message selected_paragraphs : pystr) : pystr :=
  dumpstr ++ nl ++ message ++ nl ++ selected_paragraphs.

(** [str(e)], for the examples. *)
Definition exn_text (e : exn) : pystr :=
  match e with
  | TypeError => py "unhashable type"
  | UnboundLocalError name =>
      py "cannot access local variable '" ++ name
      ++ py "' where it is not associated with a value"
  | ServiceError msg => msg
  end.

(** [[{"type": "paragraph", "id": "00a0"}, {"type": "paragraph"}]] *)
Definition tree_one_id : json :=
  JList [JDict [(py "type", JStr (py "paragraph")); (py "id", JStr (py "00a0"))];
         JDict [(py "type", JStr (py "paragraph"))]].

(** The document of the end-to-end scenario of the specification, without
    ids. *)
Definition tree_scenario : json :=
  JDict [(py "type", JStr (py "doc"));
         (py "content",
          JList
            [JDict [(py "type", JStr (py "paragraph"));
                    (py "content",
                     JList [JDict [(py "type", JStr (py "text"));
                                   (py "text", JStr (py "A"))]])];
             JDict [(py "type", JStr (py "paragraph"));
                    (py "content",
                     JList [JDict [(py "type", JStr (py "text"));
                                   (py "text", JStr (py "B"))]])]])].

(** Five values of [random.randint(0, 0xFFFF)]. *)
Definition scenario_draws : list N := [6699; 15437; 7; 8; 9].

(** [{"type": "paragraph", "text": "Hello"}]: a node without id. *)
Definition tree_without_id : json :=
  JDict [(py "type", JStr (py "paragraph")); (py "text", JStr (py "Hello"))].

(** [{"id": "a1", "text": "", "content": [{"type": "text", "text": "Hello"}]}] *)
Definition tree_blank_text : json :=
  JDict [(py "id", JStr (py "a1")); (py "text", JStr []);
         (py "content",
          JList [JDict [(py "type", JStr (py "text"));
                        (py "text", JStr (py "Hello"))]])].


(** [str(uuid.uuid4())] returning a different value at every call. *)
Definition uuid_seq (k : nat) : pystr :=
  format_04x (N.of_nat k) ++ py "f561-a97d-4838-a827-88033fe6c0f3".


(** [str(uuid.uuid4())] returning the same value at every call. *)
Definition uuid_const (k : nat) : pystr :=
  py "519bf561-a97d-4838-a827-88033fe6c0f3".

(** [str(v)] of the values that are not strings, for the examples, none of
    which formats one. *)
Definition str_none (v : json) : pystr := py "None".

Definition flat (i t : string) : FlatNode :=
  {| flat_id := JStr (py i); flat_text := py t |}.

(** [{"type": "paragraph", "id": "a1", "text": "(empty)"}] *)
Definition tree_placeholder : json :=
  JDict [(py "type", JStr (py "paragraph")); (py "id", JStr (py "a1"));
         (py "text", JStr (py "(empty)"))].

(** [{"type": "paragraph", "id": "a1", "text": " Hello "}] *)
Definition tree_padded : json :=
  JDict [(py "type", JStr (py "paragraph")); (py "id", JStr (py "a1"));
         (py "text", JStr (py " Hello "))].

(** [{"type": "doc", "id": "d0", "content": [
       {"type": "paragraph", "id": "a1", "content": [{"type": "text", "text": "Hello"}]},
       {"type": "paragraph", "id": "b2", "content": [{"type": "text", "text": "World"}]}]}] *)
Definition tree_two_paragraphs : json :=
  JDict [(py "type", JStr (py "doc")); (py "id", JStr (py "d0"));
         (py "content",
          JList
            [JDict [(py "type", JStr (py "paragraph")); (py "id", JStr (py "a1"));
                    (py "content",
                     JList [JDict [(py "type", JStr (py "text"));
                                   (py "text", JStr (py "Hello"))]])];
             JDict [(py "type", JStr (py "paragraph")); (py "id", JStr (py "b2"));
                    (py "content",
                     JList [JDict [(py "type", JStr (py "text"));
                                   (py "text", JStr (py "World"))]])]])].

End Spec.
Export Spec.

(** * Vocabulary of the further properties *)

Module Contracts.

(** ** Edit Reconciler *)

(** The text the parser reads on a line of the response, tags taken off. *)
Definition line_content (line : pystr) : pystr :=
  (parse_line (strip line)).2.

(** A line that starts with [[NEW]] once stripped. *)
Definition new_line (line : pystr) : bool :=
  startswith (strip line) (py "[NEW]").

(** [final_text_content] for a text [t] that has no tag left: stripped, the
    placeholder [(empty)] read as the empty string. *)
Definition read_text (t : pystr) : pystr :=
  if bool_decide (strip t = py "(empty)") then [] else strip t.

Section Effects.

Variable uuid4 : nat -> pystr.
Variable original_nodes_by_id : gmap pystr FlatNode.

(** What one iteration of the loop of [_parse_edited_content] does to its
    variables, branch by branch: nothing; the tag of the line is marked as
    processed; a modification of the node of the tag is emitted; a new node
    with the tag of the line is emitted; a new node with a synthesized id is
    emitted. *)
Inductive paragraph_effect (st : parse_state) (line : pystr)
  : parse_state -> Prop :=
| effect_none : paragraph_effect st line st
| effect_mark tag :
    new_line line = false ->
    line_tag line = Some tag ->
    tag ∉ processed_ids st ->
    paragraph_effect st line
      {| path_updates := path_updates st;
         processed_ids := {[tag]} ∪ processed_ids st;
         uuid_calls := uuid_calls st |}
| effect_modify tag original_node :
    new_line line = false ->
    line_tag line = Some tag ->
    tag ∉ processed_ids st ->
    original_nodes_by_id !! tag = Some original_node ->
    line_content line <> flat_text original_node ->
    paragraph_effect st line
      {| path_updates :=
           path_updates st ++
             [{| upd_path := None;
                 upd_content := line_content line;
                 upd_id := tag |}];
         processed_ids := {[tag]} ∪ processed_ids st;
         uuid_calls := uuid_calls st |}
| effect_new_tagged tag :
    new_line line = true ->
    line_tag line = Some tag ->
    tag ∉ processed_ids st ->
    paragraph_effect st line
      {| path_updates :=
           path_updates st ++
             [{| upd_path := Some (py "new");
                 upd_content := line_content line;
                 upd_id := tag |}];
         processed_ids := {[tag]} ∪ processed_ids st;
         uuid_calls := uuid_calls st |}
| effect_new_untagged :
    new_line line = true ->
    line_tag line = None ->
    paragraph_effect st line
      {| path_updates :=
           path_updates st ++
             [{| upd_path := Some (py "new");
                 upd_content := line_content line;
                 upd_id := take 4 (uuid4 (uuid_calls st)) |}];
         processed_ids := processed_ids st;
         uuid_calls := S (uuid_calls st) |}.

End Effects.

(** ** Tree Flattener *)


(** The flat nodes of the items of the list under [key], each item flattened
    by itself. *)
Definition flat_under (key : pystr) (node : dict) : list FlatNode :=
  match dict_get node key with
  | Some (JList items) =>
      flat_map (fun item => flatten_nodes_to_list item []) items
  | _ => []
  end.

(** The flat nodes of the values the loop over the other attributes of a
    dict descends into, each value flattened by itself. *)
Definition flat_others (node : dict) : list FlatNode :=
  flat_map
    (fun kv =>
       if other_key kv.1 && (is_dict kv.2 || is_list kv.2)
       then flatten_nodes_to_list kv.2 []
       else [])
    node.


(** A text run of the editor: [{"type": "text", "text": t}]. *)
Definition text_run (t : string) : json :=
  JDict [(py "type", JStr (py "text")); (py "text", JStr (py t))].

(** [{"type": "doc", "marks": [{"id": "m1", "text": "Note"}],
      "content": [{"id": "a1", "text": "Hello"}],
      "children": [{"id": "c1", "text": "Child"}]}] *)
Definition tree_three_places : json :=
  JDict [(py "type", JStr (py "doc"));
         (py "marks",
          JList [JDict [(py "id", JStr (py "m1"));
                        (py "text", JStr (py "Note"))]]);
         (py "content",
          JList [JDict [(py "id", JStr (py "a1"));
                        (py "text", JStr (py "Hello"))]]);
         (py "children",
          JList [JDict [(py "id", JStr (py "c1"));
                        (py "text", JStr (py "Child"))]])].

(** ** Node Identifier *)

(** A lower-case hexadecimal digit. *)
Definition hex_char (c : N) : bool :=
  ((48 <=? c) && (c <=? 57)) || ((97 <=? c) && (c <=? 102)).

(** The number a string of lower-case hexadecimal digits writes. *)
Definition hex_value (s : pystr) : N :=
  fold_left (fun v c => 16 * v + (if c <? 58 then c - 48 else c - 87)) s 0.

(** [start], [start + 1], ...: [n] numbers. *)
Fixpoint upto (n : nat) (start : N) : list N :=
  match n with
  | O => []
  | S n' => start :: upto n' (N.succ start)
  end.

(** The values [random.randint(0, 0xFFFF)] can return. *)
Definition randint_range : list N := upto (N.to_nat 65536) 0.

(** A set that holds every id the generator can make. *)
Definition every_hex_id : gset pystr :=
  list_to_set (map format_04x randint_range).

(** ** Section outline *)

(** A section as the flattened list holds it: a copy that has a [title] and
    no [children]. *)
Definition flat_section (section : json) : bool :=
  match section with
  | JDict d => dict_has d (py "title") && negb (dict_has d (py "children"))
  | JList l => list_has l (py "title") && negb (list_has l (py "children"))
  | _ => false
  end.

(** An outline: a list of dicts, the [children] of each, where present, an
    outline again. *)
Fixpoint outline (v : json) : bool :=
  match v with
  | JList sections =>
      forallb
        (fun section =>
           match section with
           | JDict d => value_at (py "children") outline true d
           | _ => false
           end)
        sections
  | _ => false
  end.

(** The list [acc] with the result of a walk appended. *)
Definition after (acc : list json) (w : walk (list json)) : walk (list json) :=
  match w with
  | Done out => Done (acc ++ out)
  | Failed e => Failed e
  end.

(** The copy of a section, if it goes to the flattened list. *)
Definition titled_copy (d : dict) : list json :=
  if dict_has (dict_del d (py "children")) (py "title")
  then [JDict (dict_del d (py "children"))]
  else [].

(** [[{"title": "1", "lines": "1-9",
       "children": [{"title": "1.1", "lines": "2-5"}, {"lines": "6-9"}]},
      {"title": "2", "lines": "10-12"}]] *)
Definition outline_two_levels : json :=
  JList
    [JDict [(py "title", JStr (py "1")); (py "lines", JStr (py "1-9"));
            (py "children",
             JList [JDict [(py "title", JStr (py "1.1"));
                           (py "lines", JStr (py "2-5"))];
                    JDict [(py "lines", JStr (py "6-9"))]])];
     JDict [(py "title", JStr (py "2")); (py "lines", JStr (py "10-12"))]].

(** ** Orchestrator *)

(** [{"id": ["x"], "text": "Hello"}]: a leaf whose id is a list. *)
Definition tree_list_id : json :=
  JDict [(py "id", JList [JStr (py "x")]); (py "text", JStr (py "Hello"))].

End Contracts.
Export Contracts.

(** * Properties *)

(** ** Facts about strings *)

Module PyStrFacts.

Lemma forallb_Forall {A} (f : A -> bool) (l : list A) :
  forallb f l = true <-> Forall (fun x => f x = true) l.
Proof.
  induction l as [|x l IH]; simpl.
  - split; [constructor | done].
  - rewrite andb_true_iff, IH. split.
    + intros [? ?]. by constructor.
    + by inversion 1.
Qed.

Lemma is_space_range c : is_space c = true -> c <= 32 \/ 133 <= c.
Proof.
  unfold is_space.
  rewrite !orb_true_iff, !andb_true_iff, !N.leb_le, !N.eqb_eq. lia.
Qed.

Lemma is_alnum_range c : is_alnum c = true -> 48 <= c <= 122.
Proof.
  unfold is_alnum.
  rewrite !orb_true_iff, !andb_true_iff, !N.leb_le. lia.
Qed.

Lemma is_alnum_not_space c : is_alnum c = true -> is_space c = false.
Proof.
  intros Ha. destruct (is_space c) eqn:Hs; [|done].
  apply is_space_range in Hs. apply is_alnum_range in Ha. lia.
Qed.

Lemma lstrip_nonspace c s : is_space c = false -> lstrip (c :: s) = c :: s.
Proof. intros H. simpl. by rewrite H. Qed.

Lemma rstrip_cons_nonspace c s :
  is_space c = false -> rstrip (c :: s) = c :: rstrip s.
Proof. intros H. simpl. rewrite H. by destruct (rstrip s). Qed.

Lemma rstrip_app_nonspace p s :
  Forall (fun c => is_space c = false) p -> rstrip (p ++ s) = p ++ rstrip s.
Proof.
  induction 1 as [|c p Hc _ IH]; [done|].
  rewrite <- !app_comm_cons, rstrip_cons_nonspace, IH; done.
Qed.

Lemma lstrip_rstrip s : lstrip (rstrip s) = rstrip (lstrip s).
Proof.
  induction s as [|c s IH]; [done|].
  destruct (is_space c) eqn:Hc.
  - simpl lstrip at 2. rewrite Hc. simpl rstrip at 1.
    destruct (rstrip s) as [|r rs] eqn:Hr.
    + rewrite Hc. simpl. rewrite <- IH. done.
    + rewrite <- IH. simpl. by rewrite Hc.
  - rewrite (lstrip_nonspace c s Hc), rstrip_cons_nonspace by done.
    by apply lstrip_nonspace.
Qed.

Lemma rstrip_idem s : rstrip (rstrip s) = rstrip s.
Proof.
  induction s as [|c s IH]; [done|].
  simpl. destruct (rstrip s) as [|r rs] eqn:Hr.
  - destruct (is_space c) eqn:Hc; [done|]. simpl. by rewrite Hc.
  - change (rstrip (c :: r :: rs)) with
      (match rstrip (r :: rs) with
       | [] => if is_space c then [] else [c]
       | x => c :: x
       end).
    rewrite IH. done.
Qed.

Lemma lstrip_idem s : lstrip (lstrip s) = lstrip s.
Proof.
  induction s as [|c s IH]; [done|].
  simpl. destruct (is_space c) eqn:Hc; [done|]. simpl. by rewrite Hc.
Qed.

Lemma strip_idem s : strip (strip s) = strip s.
Proof.
  unfold strip. by rewrite lstrip_rstrip, lstrip_idem, rstrip_idem.
Qed.

Lemma strip_rstrip s : strip (rstrip s) = strip s.
Proof. unfold strip. by rewrite lstrip_rstrip, rstrip_idem. Qed.

Lemma strip_cons_space c s : is_space c = true -> strip (c :: s) = strip s.
Proof. intros H. unfold strip. simpl. by rewrite H. Qed.

Lemma strip_alnum s : Forall (fun c => is_alnum c = true) s -> strip s = s.
Proof.
  intros H. unfold strip.
  assert (Hl : lstrip s = s).
  { destruct H as [|c s Hc _]; [done|].
    apply lstrip_nonspace, is_alnum_not_space, Hc. }
  rewrite Hl. rewrite <- (app_nil_r s) at 1.
  rewrite rstrip_app_nonspace; [by rewrite app_nil_r|].
  eapply Forall_impl; [exact H|]. intros c. apply is_alnum_not_space.
Qed.

Lemma strip_prefix_app p s : strip_prefix p (p ++ s) = Some s.
Proof. induction p as [|a p IH]; [done|]. simpl. by rewrite N.eqb_refl. Qed.

Lemma strip_prefix_Some p s r : strip_prefix p s = Some r -> s = p ++ r.
Proof.
  revert s. induction p as [|a p IH]; intros s H; simpl in *.
  - by inversion H.
  - destruct s as [|b s]; [done|].
    destruct (N.eqb_spec a b); [|done]. subst. f_equal. by apply IH.
Qed.

Lemma span_app_stop p a c s :
  Forall (fun x => p x = true) a -> p c = false ->
  span p (a ++ c :: s) = (a, c :: s).
Proof.
  intros Ha Hc. induction Ha as [|x a Hx _ IH]; simpl.
  - by rewrite Hc.
  - by rewrite Hx, IH.
Qed.

Lemma span_spec p s a b :
  span p s = (a, b) ->
  s = a ++ b /\ Forall (fun x => p x = true) a
  /\ match b with [] => True | c :: _ => p c = false end.
Proof.
  revert a b. induction s as [|c s IH]; intros a b H; simpl in H.
  - inversion H. by repeat split.
  - destruct (p c) eqn:Hc.
    + destruct (span p s) as [a' b'] eqn:Hs. inversion H; subst.
      destruct (IH _ _ eq_refl) as (-> & Ha & Hb).
      repeat split; [by constructor | done].
    + inversion H; subst. repeat split; [constructor | done].
Qed.

Lemma split_nl_single a : 10 ∉ a -> split_nl a = [a].
Proof.
  induction a as [|c a IH]; intros H; [done|].
  simpl. destruct (N.eqb_spec c 10) as [->|Hc].
  - exfalso. apply H. constructor.
  - rewrite IH; [done|]. intros Hin. apply H. by constructor.
Qed.

Lemma split_nl_app a b : 10 ∉ a -> split_nl (a ++ 10 :: b) = a :: split_nl b.
Proof.
  induction a as [|c a IH]; intros H; [done|].
  simpl. destruct (N.eqb_spec c 10) as [->|Hc].
  - exfalso. apply H. constructor.
  - rewrite IH; [done|]. intros Hin. apply H. by constructor.
Qed.

Lemma split_nl_join lines :
  lines <> [] -> Forall (fun l => 10 ∉ l) lines ->
  split_nl (join [10] lines) = lines.
Proof.
  intros Hne H. induction H as [|l lines Hl Hrest IH]; [done|].
  destruct lines as [|l' lines'].
  - simpl. by apply split_nl_single.
  - change (join [10] (l :: l' :: lines')) with
      (l ++ 10 :: join [10] (l' :: lines')).
    rewrite split_nl_app by done. f_equal. by apply IH.
Qed.

Lemma lstrip_nil_or_visible s :
  lstrip s = [] \/ exists c, c ∈ s /\ is_space c = false.
Proof.
  induction s as [|c s IH]; [by left|]. simpl.
  destruct (is_space c) eqn:Hc.
  - destruct IH as [IH | (x & Hx & Hsp)]; [by left|].
    right. exists x. split; [by constructor | done].
  - right. exists c. split; [constructor | done].
Qed.

Lemma lstrip_keeps_visible s c :
  c ∈ s -> is_space c = false -> c ∈ lstrip s.
Proof.
  induction s as [|x s IH]; intros Hin Hc; [done|]. simpl.
  destruct (is_space x) eqn:Hx; [|done].
  apply elem_of_cons in Hin as [-> | Hin]; [congruence | by apply IH].
Qed.

Lemma rstrip_nil s : rstrip s = [] -> Forall (fun c => is_space c = true) s.
Proof.
  induction s as [|c s IH]; [constructor|]. simpl.
  destruct (rstrip s) as [|r rs]; [|done].
  destruct (is_space c) eqn:Hc; [|done]. intros _. constructor; auto.
Qed.

(** A string has a non-empty strip exactly when one of its characters is
    not whitespace. *)
Lemma strip_visible s :
  strip s <> [] <-> exists c, c ∈ s /\ is_space c = false.
Proof.
  unfold strip. split.
  - intros H. destruct (lstrip_nil_or_visible s) as [Hl | Hv]; [|done].
    by rewrite Hl in H.
  - intros (c & Hin & Hc) H. apply rstrip_nil in H.
    rewrite Forall_forall in H.
    specialize (H c (lstrip_keeps_visible s c Hin Hc)). congruence.
Qed.

Lemma elem_of_join sep parts s c : s ∈ parts -> c ∈ s -> c ∈ join sep parts.
Proof.
  intros Hs Hc. induction parts as [|x parts IH]; [by apply elem_of_nil in Hs|].
  apply elem_of_cons in Hs as [<- | Hs].
  - destruct parts; [done|]. simpl. apply elem_of_app. by left.
  - destruct parts as [|y parts]; [by apply elem_of_nil in Hs|].
    change (join sep (x :: y :: parts)) with (x ++ sep ++ join sep (y :: parts)).
    rewrite !elem_of_app. right. right. by apply IH.
Qed.

End PyStrFacts.
Import PyStrFacts.

(** ** Facts about the id tag pattern *)

Module ReFacts.

Lemma lstrip_app_space ws s :
  Forall (fun c => is_space c = true) ws -> lstrip (ws ++ s) = lstrip s.
Proof. induction 1 as [|c ws Hc _ IH]; [done|]. simpl. by rewrite Hc. Qed.

Lemma lstrip_spec s :
  exists ws, s = ws ++ lstrip s /\ Forall (fun c => is_space c = true) ws.
Proof.
  induction s as [|c s (ws & Hs & Hws)]; [by exists []|].
  simpl. destruct (is_space c) eqn:Hc.
  - exists (c :: ws). split; [by rewrite <- app_comm_cons, <- Hs | by constructor].
  - by exists [].
Qed.

(** [match_id_at] finds a match exactly when the string starts with a word of
    the pattern's language, and the word is then unique: the order in which a
    backtracking matcher tries the alternatives does not matter. *)
Lemma skip_colon_spec s1 :
  exists colon, (colon = [] \/ colon = [58]) /\ s1 = colon ++ skip_colon s1.
Proof.
  destruct s1 as [|c t]; [exists []; auto|].
  simpl. destruct (N.eqb_spec c 58) as [->|].
  - exists [58]. auto.
  - exists []. auto.
Qed.

Lemma skip_colon_app colon s :
  (colon = [] \/ colon = [58]) ->
  match s with [] => True | c :: _ => c <> 58 end ->
  skip_colon (colon ++ s) = s.
Proof.
  intros [-> | ->] Hs; [|done].
  destruct s as [|c s]; [done|]. simpl.
  by destruct (N.eqb_spec c 58).
Qed.

Lemma match_id_at_spec s g rest :
  match_id_at s = Some (g, rest) <->
  exists colon ws,
    id_tag colon ws g /\ s = py "[ID" ++ colon ++ ws ++ g ++ 93 :: rest.
Proof.
  unfold match_id_at, id_tag. split.
  - destruct (strip_prefix (py "[ID") s) as [s1|] eqn:Hp; [|done].
    apply strip_prefix_Some in Hp. subst s.
    destruct (skip_colon_spec s1) as (colon & Hc & Hs1).
    destruct (lstrip_spec (skip_colon s1)) as (ws & Hs2 & Hws).
    destruct (span is_alnum (lstrip (skip_colon s1))) as [g' s4] eqn:Hsp.
    apply span_spec in Hsp as (Hs3 & Hg & _).
    destruct g' as [|x g']; [done|].
    destruct s4 as [|c s4]; [done|].
    destruct (N.eqb_spec c 93) as [->|]; [|done].
    intros [= Hg' Hrest]. subst g rest.
    exists colon, ws. repeat split; try done.
    rewrite Hs1 at 1. rewrite Hs2 at 1. by rewrite Hs3.
  - intros (colon & ws & (Hc & Hws & Hne & Hg) & ->).
    rewrite strip_prefix_app.
    assert (Hhead : forall t, lstrip (ws ++ g ++ t) = g ++ t).
    { intros t. rewrite lstrip_app_space by done.
      destruct Hg as [|x g Hx _]; [done|].
      apply lstrip_nonspace, is_alnum_not_space, Hx. }
    rewrite skip_colon_app, Hhead, span_app_stop; try done.
    + destruct g; [done|]. done.
    + destruct ws as [|c ws].
      * destruct Hg as [|x g Hx _]; [done|]. simpl.
        intros ->. done.
      * simpl. intros ->. by inversion Hws.
Qed.

Lemma match_id_at_tag g rest :
  g <> [] -> Forall (fun c => is_alnum c = true) g ->
  match_id_at (py "[ID:" ++ g ++ 93 :: rest) = Some (g, rest).
Proof.
  intros Hne Hg. apply match_id_at_spec. exists [58], [].
  repeat split; auto.
Qed.

Lemma re_search_here s g rest :
  match_id_at s = Some (g, rest) -> re_search s = Some ([], g, rest).
Proof. intros H. destruct s; cbn [re_search]; by rewrite H. Qed.

Lemma re_search_skip c s :
  match_id_at (c :: s) = None ->
  re_search (c :: s) =
    match re_search s with
    | Some (before, g, rest) => Some (c :: before, g, rest)
    | None => None
    end.
Proof. intros H. cbn [re_search]. by rewrite H. Qed.

Lemma re_search_tag g rest :
  g <> [] -> Forall (fun c => is_alnum c = true) g ->
  re_search (py "[ID:" ++ g ++ 93 :: rest) = Some ([], g, rest).
Proof. intros Hne Hg. by apply re_search_here, match_id_at_tag. Qed.

Lemma match_id_at_head c s : c <> 91 -> match_id_at (c :: s) = None.
Proof.
  intros Hc. destruct (match_id_at (c :: s)) as [[g rest]|] eqn:H; [|done].
  apply match_id_at_spec in H as (colon & ws & _ & H).
  change (py "[ID") with [91; 73; 68] in H. simpl in H. congruence.
Qed.

Lemma re_search_no_bracket s : 91 ∉ s -> re_search s = None.
Proof.
  induction s as [|c s IH]; intros H; [done|].
  rewrite re_search_skip.
  - rewrite IH; [done|]. intros Hin. apply H. by constructor.
  - apply match_id_at_head. intros ->. apply H. constructor.
Qed.

End ReFacts.
Import ReFacts.

(** ** The Edit Reconciler *)

Module ReconcilerFacts.

Section Lines.

Variable uuid4 : nat -> pystr.
Variable by_id : gmap pystr FlatNode.

(** A blank line changes nothing. *)
Lemma process_paragraph_blank st line :
  strip line = [] -> process_paragraph uuid4 by_id st line = st.
Proof. intros H. unfold process_paragraph. by rewrite H. Qed.

(** A line without [[NEW]] and without id tag changes nothing. *)
Lemma process_paragraph_untagged st line :
  startswith (strip line) (py "[NEW]") = false ->
  re_search (strip line) = None ->
  process_paragraph uuid4 by_id st line = st.
Proof.
  intros Hnew Hre. unfold process_paragraph, parse_line.
  rewrite Hnew, Hre. simpl. by destruct (nonempty (strip line)).
Qed.

(** What the parser reads on a line [[ID:s]rest]. *)
Lemma parse_line_tagged s rest :
  s <> [] -> Forall (fun c => is_alnum c = true) s ->
  parse_line (py "[ID:" ++ s ++ 93 :: rest) =
    (false, Some s,
     if bool_decide (strip rest = py "(empty)") then [] else strip rest).
Proof.
  intros Hne Hs. unfold parse_line, re_sub1. cbv zeta.
  replace (startswith (py "[ID:" ++ s ++ 93 :: rest) (py "[NEW]")) with false
    by reflexivity.
  rewrite re_search_tag by done.
  by rewrite strip_alnum.
Qed.

(** The rendered line of a flat node, once stripped. *)
Lemma strip_tag_line s t :
  Forall (fun c => is_alnum c = true) s ->
  strip (py "[ID:" ++ s ++ py "] " ++ t)
  = py "[ID:" ++ s ++ 93 :: rstrip (32 :: t).
Proof.
  intros Hs. unfold strip.
  change (py "[ID:" ++ s ++ py "] " ++ t)
    with (91 :: (73 :: 68 :: 58 :: s ++ 93 :: 32 :: t)).
  rewrite lstrip_nonspace by done.
  change (91 :: 73 :: 68 :: 58 :: s ++ 93 :: 32 :: t)
    with ([91; 73; 68; 58] ++ s ++ [93] ++ 32 :: t).
  rewrite !rstrip_app_nonspace; try done.
  - by repeat constructor.
  - eapply Forall_impl; [exact Hs|]. intros c. apply is_alnum_not_space.
  - by repeat constructor.
Qed.

(** A line that is [[ID:s]rest] once stripped takes the branch of existing
    nodes. *)
Lemma process_paragraph_tagged st line s rest :
  s <> [] -> Forall (fun c => is_alnum c = true) s ->
  strip line = py "[ID:" ++ s ++ 93 :: rest ->
  process_paragraph uuid4 by_id st line =
    handle_existing by_id st s
      (if bool_decide (strip rest = py "(empty)") then [] else strip rest).
Proof.
  intros Hne Hs Hline. unfold process_paragraph.
  rewrite Hline, parse_line_tagged by done.
  replace (nonempty (py "[ID:" ++ s ++ 93 :: rest)) with true by reflexivity.
  destruct s; [done|]. done.
Qed.

(** The line [dump_flattened_nodes] writes for a node with an alphanumeric
    string id. *)
Lemma process_paragraph_dump_line st s t :
  s <> [] -> Forall (fun c => is_alnum c = true) s ->
  process_paragraph uuid4 by_id st (py "[ID:" ++ s ++ py "] " ++ t) =
    handle_existing by_id st s
      (if bool_decide (strip t = py "(empty)") then [] else strip t).
Proof.
  intros Hne Hs.
  rewrite (process_paragraph_tagged st _ s (rstrip (32 :: t)) Hne Hs)
    by (by apply strip_tag_line).
  by rewrite strip_rstrip, strip_cons_space.
Qed.

(** A deletion line is neither new nor tagged. *)
Lemma process_paragraph_delete st line :
  delete_line line -> process_paragraph uuid4 by_id st line = st.
Proof.
  intros (x & Hx & Hline). apply process_paragraph_untagged; rewrite Hline.
  - reflexivity.
  - change (py "[DELETE:" ++ x ++ py "]")
      with (91 :: ([68; 69; 76; 69; 84; 69; 58] ++ x ++ [93])).
    rewrite re_search_skip.
    + rewrite re_search_no_bracket; [done|].
      rewrite !elem_of_app, !elem_of_cons, elem_of_nil. intros H.
      decompose [or] H; try done.
    + destruct (match_id_at _) as [[g rest]|] eqn:H; [|done].
      apply match_id_at_spec in H as (colon & ws & _ & H).
      change (py "[ID") with [91; 73; 68] in H. simpl in H. congruence.
Qed.

(** A tagged line whose text is the original text of the node adds no
    update. *)
Lemma handle_existing_same st tag final node :
  by_id !! tag = Some node -> flat_text node = final ->
  path_updates (handle_existing by_id st tag final) = path_updates st
  /\ processed_ids (handle_existing by_id st tag final)
     ⊆ {[tag]} ∪ processed_ids st
  /\ uuid_calls (handle_existing by_id st tag final) = uuid_calls st.
Proof.
  intros Hget Htext. unfold handle_existing.
  destruct (bool_decide (tag ∈ processed_ids st)); [set_solver|].
  destruct (startswith final (py "[ID:") && (length final <? 15)%nat);
    [set_solver|].
  rewrite Hget, Htext.
  rewrite bool_decide_eq_false_2 by (intros H; by apply H).
  simpl. set_solver.
Qed.

End Lines.

End ReconcilerFacts.
Import ReconcilerFacts.

(** ** The Tree Flattener *)

Module FlattenerFacts.

(** [list_at] reads the dict the way the source does. *)
Lemma list_at_get {A} key (f : list json -> A) dflt entries :
  list_at key f dflt entries =
    match dict_get entries key with
    | Some (JList items) => f items
    | _ => dflt
    end.
Proof.
  induction entries as [|[k v] entries IH]; [done|].
  simpl. destruct (bool_decide (k = key)); [by destruct v | done].
Qed.

Lemma dict_get_In entries key v :
  dict_get entries key = Some v -> In (key, v) entries.
Proof.
  induction entries as [|[k v'] entries IH]; [done|]. simpl.
  destruct (bool_decide (k = key)) eqn:Hk.
  - apply bool_decide_eq_true in Hk as ->. intros [= ->]. by left.
  - intros H. right. by apply IH.
Qed.

(** The equation of the source for a dict node. *)
Lemma flatten_nodes_to_list_dict entries result :
  flatten_nodes_to_list (JDict entries) result =
    let node_id := node_id_of entries in
    if is_leaf_node entries && negb (is_none node_id)
    then emit_leaf entries node_id result
    else
      let result :=
        match dict_get entries (py "children") with
        | Some (JList children) =>
            fold_left (fun r child => flatten_nodes_to_list child r)
              children result
        | _ => result
        end in
      let result :=
        match dict_get entries (py "content") with
        | Some (JList content) =>
            fold_left (fun r item => flatten_nodes_to_list item r)
              content result
        | _ => result
        end in
      for_other_attrs flatten_nodes_to_list entries result.
Proof.
  cbn [flatten_nodes_to_list]. cbv zeta.
  destruct (is_leaf_node entries && negb (is_none (node_id_of entries)));
    [done|].
  by rewrite !list_at_get.
Qed.

Lemma all_dicts_true node : all_dicts (fun _ => true) node = true.
Proof.
  induction node as [| | | | |items IH|entries IH] using json_ind; try done.
  - simpl. induction IH as [|v items Hv _ IHl]; [done|].
    simpl. by rewrite Hv, IHl.
  - simpl. induction IH as [|kv entries Hv _ IHl]; [done|].
    simpl. by rewrite Hv, IHl.
Qed.

(** A property of flat nodes that every emission establishes, on the dicts
    that satisfy [ok], holds of the whole flattened list of a tree whose
    dicts satisfy [ok]. *)
Lemma flatten_Forall (P : FlatNode -> Prop) (ok : dict -> bool) :
  (forall entries result,
      ok entries = true ->
      is_leaf_node entries && negb (is_none (node_id_of entries)) = true ->
      Forall P result ->
      Forall P (emit_leaf entries (node_id_of entries) result)) ->
  forall node result,
    all_dicts ok node = true ->
    Forall P result -> Forall P (flatten_nodes_to_list node result).
Proof.
  intros Hemit.
  assert (Hfold : forall items,
             Forall (fun v => forall result,
                        all_dicts ok v = true -> Forall P result ->
                        Forall P (flatten_nodes_to_list v result)) items ->
             forallb (all_dicts ok) items = true ->
             forall result, Forall P result ->
               Forall P (fold_left
                           (fun r item => flatten_nodes_to_list item r)
                           items result)).
  { induction 1 as [|v items Hv _ IH]; intros Hok result Hres; [done|].
    simpl in Hok. apply andb_true_iff in Hok as [Hokv Hok].
    simpl. apply IH; [done|]. by apply Hv. }
  induction node as [| | | | |items IH|entries IH] using json_ind;
    intros result Hok Hres; try done.
  - by apply Hfold.
  - rewrite flatten_nodes_to_list_dict. cbv zeta.
    cbn [all_dicts] in Hok. apply andb_true_iff in Hok as [Hoke Hok].
    destruct (is_leaf_node entries && negb (is_none (node_id_of entries)))
      eqn:Hleaf; [by apply Hemit|].
    assert (Hvalues : Forall (fun kv => forall result,
                          Forall P result ->
                          Forall P (flatten_nodes_to_list kv.2 result))
                        entries).
    { clear -IH Hok. induction IH as [|kv entries Hv _ IHe]; [constructor|].
      simpl in Hok. apply andb_true_iff in Hok as [Hokv Hok].
      constructor; [|by apply IHe]. intros result. by apply Hv. }
    clear IH Hok Hoke Hleaf.
    assert (Hsub : forall key items result,
               dict_get entries key = Some (JList items) ->
               Forall P result ->
               Forall P (fold_left
                           (fun r item => flatten_nodes_to_list item r)
                           items result)).
    { intros key items res Hget Hr.
      apply dict_get_In, list_elem_of_In in Hget.
      rewrite Forall_forall in Hvalues.
      by apply (Hvalues _ Hget res). }
    set (r1 := match dict_get entries (py "children") with
               | Some (JList children) => _
               | _ => result
               end).
    assert (Hr1 : Forall P r1).
    { subst r1. destruct (dict_get entries (py "children")) as [[]|] eqn:Hc;
        try done. by apply (Hsub (py "children")). }
    set (r2 := match dict_get entries (py "content") with
               | Some (JList content) => _
               | _ => r1
               end).
    assert (Hr2 : Forall P r2).
    { subst r2. destruct (dict_get entries (py "content")) as [[]|] eqn:Hc;
        try done. by apply (Hsub (py "content")). }
    clear Hsub. generalize r2 Hr2. clear -Hvalues.
    induction Hvalues as [|[k v] entries Hv _ IHe]; intros r Hr; [done|].
    simpl. apply IHe.
    destruct (other_key k && (is_dict v || is_list v)); [|done].
    by apply Hv.
Qed.

(** A flat node never has the id [None]. *)
Lemma flatten_ids_not_none node :
  Forall (fun n => flat_id n <> JNull) (flatten_nodes_to_list node []).
Proof.
  apply (flatten_Forall _ (fun _ => true));
    [|apply all_dicts_true|constructor].
  intros entries result _ Hleaf Hres.
  apply andb_true_iff in Hleaf as [_ Hid]. apply negb_true_iff in Hid.
  assert (Hne : node_id_of entries <> JNull)
    by (intros Heq; by rewrite Heq in Hid).
  unfold emit_leaf.
  destruct (dict_get entries (py "text")) as [[]|];
    try (destruct (dict_get entries (py "content")) as [[]|]; try done;
         destruct (nonempty _); try done);
    apply Forall_app; split; try done; by repeat constructor.
Qed.

(** The text the content branch of the emission builds for a leaf is not
    blank. *)
Lemma leaf_content_text_visible content :
  (0 <? length (List.filter item_has_text content))%nat = true ->
  strip (_extract_text_from_content content) <> [].
Proof.
  intros Hcount. apply Nat.ltb_lt in Hcount.
  destruct (List.filter item_has_text content) as [|item rest] eqn:Hf;
    [simpl in Hcount; lia|].
  assert (Hin : In item (List.filter item_has_text content))
    by (rewrite Hf; by left).
  apply filter_In in Hin as [Hin Htext].
  destruct item as [| | | | | |i]; try done. simpl in Htext.
  unfold has_visible_text in Htext.
  destruct (dict_get i (py "text")) as [[| | | |text| |]|] eqn:Hget; try done.
  assert (Hvis : strip text <> []) by (by destruct (strip text)).
  apply strip_visible in Hvis as (c & Hc & Hsp).
  apply strip_visible. exists c. split; [|done].
  apply (elem_of_join _ _ text); [|done].
  apply list_elem_of_In, in_flat_map. exists (JDict i). split; [done|].
  simpl. rewrite Hget. by left.
Qed.

(** Every flat node of a tree without blank-text leaves has a text that is
    not blank. *)
Lemma flatten_texts_visible node :
  all_dicts (fun d => negb (blank_text_leaf d)) node = true ->
  Forall (fun n => strip (flat_text n) <> []) (flatten_nodes_to_list node []).
Proof.
  intros Hok.
  apply (flatten_Forall _ (fun d => negb (blank_text_leaf d)));
    [|done|constructor].
  clear. intros entries result Hok Hleaf Hres.
  apply andb_true_iff in Hleaf as [Hleaf _].
  apply negb_true_iff in Hok. unfold blank_text_leaf in Hok.
  unfold emit_leaf. unfold is_leaf_node, has_visible_text in Hleaf.
  destruct (dict_get entries (py "text")) as [[| | | |text| |]|] eqn:Htext;
    try (destruct (dict_get entries (py "content"))
           as [[| | | | |content|]|] eqn:Hcontent; try done;
         destruct (nonempty (_extract_text_from_content content)); [|done];
         apply Forall_app; split; [done|]; constructor; [|done]; simpl;
         apply leaf_content_text_visible;
         by apply andb_true_iff in Hleaf as [Hleaf _]).
  apply Forall_app. split; [done|]. constructor; [|done]. simpl.
  destruct (nonempty (strip text)) eqn:Hvis.
  - by destruct (strip text).
  - simpl in Hok. unfold is_leaf_node, has_visible_text in Hok.
    rewrite Htext, Hvis in Hok. congruence.
Qed.

End FlattenerFacts.
Import FlattenerFacts.

(** ** The Node Identifier *)

Module IdentifierFacts.

Lemma bind_Some {A B} (m : M A) (k : A -> M B) st b st' :
  bind m k st = Some (b, st') <->
  exists a st1, m st = Some (a, st1) /\ k a st1 = Some (b, st').
Proof.
  unfold bind. destruct (m st) as [[a st1]|]; split.
  - intros H. by exists a, st1.
  - by intros (a' & st1' & [= <- <-] & H).
  - done.
  - by intros (a' & st1' & ? & _).
Qed.

Lemma ret_Some {A} (a : A) st b st' :
  ret a st = Some (b, st') <-> b = a /\ st' = st.
Proof. unfold ret. split; [by intros [= <- <-] | by intros [-> ->]]. Qed.

Lemma for_each_threaded f items st items' st' :
  for_each f items st = Some (items', st') <->
  threaded (fun a s b s' => f a s = Some (b, s')) items st items' st'.
Proof.
  revert st items' st'. induction items as [|a items IH]; intros st items' st'.
  - simpl. rewrite ret_Some. split.
    + intros [-> ->]. constructor.
    + by inversion 1.
  - cbn [for_each]. rewrite bind_Some. split.
    + intros (b & st1 & Hf & Hrest).
      apply bind_Some in Hrest as (rest & st2 & Hrest & Hret).
      apply ret_Some in Hret as [-> ->].
      econstructor; [exact Hf|]. by apply IH.
    + inversion 1 as [|? ? ? b st1 rest ? Hf Hrest]; subst.
      exists b, st1. split; [done|]. apply bind_Some.
      exists rest, st'. split; [by apply IH | done].
Qed.

Lemma for_items_threaded f entries st entries' st' :
  for_items f entries st = Some (entries', st') <->
  threaded (fun kv s kv' s' => kv'.1 = kv.1 /\ f kv.2 s = Some (kv'.2, s'))
    entries st entries' st'.
Proof.
  revert st entries' st'.
  induction entries as [|[k v] entries IH]; intros st entries' st'.
  - simpl. rewrite ret_Some. split.
    + intros [-> ->]. constructor.
    + by inversion 1.
  - cbn [for_items]. rewrite bind_Some. split.
    + intros (v' & st1 & Hf & Hrest).
      apply bind_Some in Hrest as (rest & st2 & Hrest & Hret).
      apply ret_Some in Hret as [-> ->].
      econstructor; [|by apply IH]. done.
    + inversion 1 as [|? ? ? [k' v'] st1 rest ? [Hk Hf] Hrest]; subst.
      simpl in *. subst k'.
      exists v', st1. split; [done|]. apply bind_Some.
      exists rest, st'. split; [by apply IH | done].
Qed.

Lemma hex_digits_nonempty fuel n acc : hex_digits (S fuel) n acc <> [].
Proof.
  revert n acc. induction fuel as [|fuel IH]; intros n acc; simpl.
  - by destruct (n / 16 =? 0).
  - destruct (n / 16 =? 0); [done|]. apply IH.
Qed.

Lemma format_04x_nonempty n : format_04x n <> [].
Proof.
  unfold format_04x, hex. intros H. apply app_eq_nil in H as [_ H].
  by apply hex_digits_nonempty in H.
Qed.

(** What [_generate_random_hex_id] returns: the rendering of the first drawn
    value that is not in the set; the values before it are in the set. *)
Lemma generate_random_hex_id_spec existing draws new_id draws' :
  generate_random_hex_id existing draws = Some (new_id, draws') ->
  exists skipped r,
    draws = skipped ++ r :: draws'
    /\ new_id = format_04x r
    /\ (new_id ∉ existing)
    /\ Forall (fun x => format_04x x ∈ existing) skipped.
Proof.
  induction draws as [|x draws IH]; [done|]. simpl.
  destruct (bool_decide (format_04x x ∈ existing)) eqn:Hin.
  - apply bool_decide_eq_true in Hin. intros H.
    destruct (IH H) as (skipped & r & -> & Hid & Hnotin & Hsk).
    exists (x :: skipped), r. repeat split; try done. by constructor.
  - apply bool_decide_eq_false in Hin. intros [= <- <-].
    exists [], x. repeat split; try done.
Qed.

Lemma fresh_id_spec existing draws new_id existing' draws' :
  fresh_id (existing, draws) = Some (new_id, (existing', draws')) ->
  existing' = {[new_id]} ∪ existing
  /\ exists skipped r,
       draws = skipped ++ r :: draws'
       /\ new_id = format_04x r
       /\ (new_id ∉ existing)
       /\ Forall (fun x => format_04x x ∈ existing) skipped.
Proof.
  unfold fresh_id.
  destruct (generate_random_hex_id existing draws) as [[id rest]|] eqn:Hgen;
    [|done].
  intros [= <- <- <-]. split; [done|].
  by apply generate_random_hex_id_spec.
Qed.

(** Scalars are returned as they are. *)
Lemma add_ids_to_nodes_scalar v st :
  is_container v = false -> add_ids_to_nodes v st = Some (v, st).
Proof. by destruct v. Qed.

(** A falsy value has nothing to identify. *)
Lemma add_ids_to_nodes_falsy v st :
  truthy v = false -> add_ids_to_nodes v st = Some (v, st).
Proof.
  destruct v as [| | | | |items|entries]; try done.
  - by destruct items.
  - by destruct entries.
Qed.

Lemma for_items_cons f k v entries st :
  for_items f ((k, v) :: entries) st =
    match f v st with
    | Some (v', st1) =>
        match for_items f entries st1 with
        | Some (rest, st2) => Some ((k, v') :: rest, st2)
        | None => None
        end
    | None => None
    end.
Proof.
  change (for_items f ((k, v) :: entries) st)
    with (bind (f v)
            (fun v' => bind (for_items f entries)
                         (fun rest => ret ((k, v') :: rest))) st).
  unfold bind, ret. destruct (f v st) as [[v' st1]|]; [|done].
  by destruct (for_items f entries st1) as [[rest st2]|].
Qed.

Lemma for_items_dict_set entries new_id st :
  truthy (dict_get_default entries (py "id")) = false ->
  for_items add_ids_to_nodes (dict_set entries (py "id") (JStr new_id)) st
  = match for_items add_ids_to_nodes entries st with
    | Some (entries', st') =>
        Some (dict_set entries' (py "id") (JStr new_id), st')
    | None => None
    end.
Proof.
  revert st. induction entries as [|[k v] entries IH]; intros st Hfalsy.
  - done.
  - unfold dict_get_default in Hfalsy. simpl in Hfalsy. simpl dict_set.
    destruct (bool_decide (k = py "id")) eqn:Hk.
    + rewrite !for_items_cons.
      rewrite (add_ids_to_nodes_falsy v st Hfalsy).
      rewrite add_ids_to_nodes_scalar by done.
      destruct (for_items add_ids_to_nodes entries st) as [[rest st1]|];
        [|done].
      simpl. by rewrite Hk.
    + rewrite !for_items_cons.
      destruct (add_ids_to_nodes v st) as [[v' st1]|]; [|done].
      rewrite IH by done.
      destruct (for_items add_ids_to_nodes entries st1) as [[rest st2]|];
        [|done].
      simpl. by rewrite Hk.
Qed.

(** The equation of the source for a dict node: the id is stored first, then
    the items of the dict, the new one included, are walked. *)
Lemma add_ids_to_nodes_dict entries st :
  add_ids_to_nodes (JDict entries) st =
    bind (if needs_id entries
          then bind fresh_id
                 (fun new_id =>
                    ret (dict_set entries (py "id") (JStr new_id)))
          else ret entries)
      (fun node =>
         bind (for_items add_ids_to_nodes node)
           (fun node' => ret (JDict node'))) st.
Proof.
  cbn [add_ids_to_nodes].
  destruct (needs_id entries) eqn:Hneeds; [|done].
  unfold bind, ret. destruct (fresh_id st) as [[new_id st1]|]; [|done].
  rewrite for_items_dict_set.
  - by destruct (for_items add_ids_to_nodes entries st1) as [[? ?]|].
  - unfold needs_id in Hneeds. apply andb_true_iff in Hneeds as [_ H].
    by apply negb_true_iff in H.
Qed.

Lemma threaded_Forall2 {A B} (R : A -> id_state -> B -> id_state -> Prop)
    (Q : A -> B -> Prop) l st l' st' :
  threaded R l st l' st' ->
  Forall (fun a => forall s b s', R a s b s' -> Q a b) l ->
  Forall2 Q l l'.
Proof.
  induction 1 as [|a l st b st1 l' st2 HR _ IH]; intros HQ; [constructor|].
  inversion HQ as [|? ? Ha Hl]; subst.
  constructor; [by eapply Ha | by apply IH].
Qed.

Lemma dict_get_set_eq entries k v : dict_get (dict_set entries k v) k = Some v.
Proof.
  induction entries as [|[k' v'] entries IH]; simpl.
  - by rewrite bool_decide_eq_true_2.
  - destruct (bool_decide (k' = k)) eqn:Hk; simpl; by rewrite Hk.
Qed.

Lemma dict_get_set_ne entries k v k' :
  k <> k' -> dict_get (dict_set entries k v) k' = dict_get entries k'.
Proof.
  intros Hne. induction entries as [|[k0 v0] entries IH]; simpl.
  - by rewrite bool_decide_eq_false_2.
  - destruct (bool_decide (k0 = k)) eqn:Hk; simpl.
    + apply bool_decide_eq_true in Hk as ->.
      by rewrite bool_decide_eq_false_2.
    + by rewrite IH.
Qed.

Lemma forallb_dict_set (f : json -> bool) entries k v :
  forallb (fun kv => f kv.2) entries = true -> f v = true ->
  forallb (fun kv => f kv.2) (dict_set entries k v) = true.
Proof.
  intros He Hv. induction entries as [|[k0 v0] entries IH]; simpl.
  - by rewrite Hv.
  - simpl in He. apply andb_true_iff in He as [H0 He].
    destruct (bool_decide (k0 = k)); simpl.
    + by rewrite Hv, He.
    + by rewrite H0, IH.
Qed.

Lemma needs_id_dict_set entries new_id :
  new_id <> [] -> needs_id (dict_set entries (py "id") (JStr new_id)) = false.
Proof.
  intros Hne. unfold needs_id, dict_get_default.
  rewrite dict_get_set_eq. simpl. destruct new_id; [done|].
  simpl. apply andb_false_r.
Qed.

(** The frame keeps the truth value of a value. *)
Lemma id_frame_truthy v v' : id_frame v v' -> truthy v' = truthy v.
Proof.
  inversion 1 as [| items items' Hl | entries entries' _ He
                  | entries entries' new_id Hn He]; subst; try done.
  - simpl. by destruct Hl.
  - simpl. by destruct He.
  - simpl. unfold needs_id in Hn. apply andb_true_iff in Hn as [Ht _].
    destruct entries as [|kv entries]; [done|].
    by destruct entries' as [|[k' v'] entries']; simpl;
      [|destruct (bool_decide (k' = py "id"))].
Qed.

Lemma dict_get_frame entries entries' k :
  Forall2 (fun kv kv' => kv.1 = kv'.1 /\ id_frame kv.2 kv'.2)
    entries entries' ->
  match dict_get entries k with
  | Some v => exists v', dict_get entries' k = Some v' /\ id_frame v v'
  | None => dict_get entries' k = None
  end.
Proof.
  induction 1 as [|[k0 v0] [k0' v0'] entries entries' [Hk Hv] _ IH];
    simpl in *; [done|]. subst k0'.
  destruct (bool_decide (k0 = k)); [by exists v0' | done].
Qed.

Lemma needs_id_frame entries entries' :
  Forall2 (fun kv kv' => kv.1 = kv'.1 /\ id_frame kv.2 kv'.2)
    entries entries' ->
  needs_id entries' = needs_id entries.
Proof.
  intros H. unfold needs_id, dict_has, dict_get_default.
  assert (Ht := dict_get_frame _ _ (py "type") H).
  assert (Hi := dict_get_frame _ _ (py "id") H).
  destruct (dict_get entries (py "type")) as [t|].
  - destruct Ht as (t' & -> & _).
    destruct (dict_get entries (py "id")) as [i|].
    + destruct Hi as (i' & -> & Hfr). by rewrite (id_frame_truthy _ _ Hfr).
    + by rewrite Hi.
  - by rewrite Ht.
Qed.

(** What a run of the Node Identifier makes of a tree: the frame of [T], with
    every typed dict identified. *)
Lemma add_ids_structure T :
  forall st T' st',
    add_ids_to_nodes T st = Some (T', st') ->
    id_frame T T' /\ ids_assigned T' = true.
Proof.
  induction T as [| | | | |items IH|entries IH] using json_ind;
    intros st T' st' Hrun;
    try (cbn in Hrun; apply ret_Some in Hrun as [-> ->];
         split; [by apply frame_scalar | done]).
  - cbn [add_ids_to_nodes] in Hrun.
    apply bind_Some in Hrun as (items' & st1 & Hrun & Hret).
    apply ret_Some in Hret as [-> ->].
    apply for_each_threaded in Hrun.
    assert (H2 : Forall2 (fun a b => id_frame a b /\ ids_assigned b = true)
                   items items').
    { eapply threaded_Forall2; [exact Hrun|].
      eapply Forall_impl; [exact IH|]. intros a Ha s b s' Hr. by eapply Ha. }
    split.
    + constructor. eapply Forall2_impl; [exact H2|]. by intros ? ? [? ?].
    + simpl. clear -H2. induction H2 as [|a b l l' [_ Hb] _ IHl]; [done|].
      simpl. by rewrite Hb, IHl.
  - cbn [add_ids_to_nodes] in Hrun.
    assert (Hitems : forall st1 entries' st2,
               for_items add_ids_to_nodes entries st1 = Some (entries', st2) ->
               Forall2 (fun kv kv' => kv.1 = kv'.1 /\ id_frame kv.2 kv'.2)
                 entries entries'
               /\ forallb (fun kv => ids_assigned kv.2) entries' = true).
    { intros st1 entries' st2 Hit. apply for_items_threaded in Hit.
      assert (H2 : Forall2 (fun kv kv' => kv.1 = kv'.1 /\ id_frame kv.2 kv'.2
                                          /\ ids_assigned kv'.2 = true)
                     entries entries').
      { eapply threaded_Forall2; [exact Hit|].
        eapply Forall_impl; [exact IH|].
        intros kv Hkv s kv' s' [Hk Hr].
        destruct (Hkv _ _ _ Hr). by rewrite Hk. }
      split.
      - eapply Forall2_impl; [exact H2|]. by intros ? ? (? & ? & ?).
      - clear -H2. induction H2 as [|a b l l' (_ & _ & Hb) _ IHl]; [done|].
        simpl. by rewrite Hb, IHl. }
    destruct (needs_id entries) eqn:Hneeds.
    + apply bind_Some in Hrun as (new_id & [ex1 d1] & Hfresh & Hrun).
      apply bind_Some in Hrun as (entries' & st2 & Hrun & Hret).
      apply ret_Some in Hret as [-> ->].
      destruct (Hitems _ _ _ Hrun) as [Hfr Hall].
      destruct st as [ex d].
      apply fresh_id_spec in Hfresh as (_ & _ & r & _ & -> & _).
      split; [by constructor|].
      cbn [ids_assigned].
      rewrite needs_id_dict_set by apply format_04x_nonempty.
      by apply forallb_dict_set.
    + apply bind_Some in Hrun as (entries' & st2 & Hrun & Hret).
      apply ret_Some in Hret as [-> ->].
      destruct (Hitems _ _ _ Hrun) as [Hfr Hall].
      split; [by constructor|].
      cbn [ids_assigned]. by rewrite (needs_id_frame _ _ Hfr), Hneeds.
Qed.

Lemma generated_nil ex draws : generated ex draws ex draws [].
Proof.
  split.
  - simpl. by rewrite union_empty_l_L.
  - exists []. split; [done|]. intros g Hg. by apply elem_of_nil in Hg.
  - constructor.
  - intros g Hg. by apply elem_of_nil in Hg.
Qed.

Lemma generated_app ex d ex1 d1 ex2 d2 g1 g2 :
  generated ex d ex1 d1 g1 -> generated ex1 d1 ex2 d2 g2 ->
  generated ex d ex2 d2 (g1 ++ g2).
Proof.
  intros [Hs1 (u1 & Hd1 & Hu1) Hn1 Hf1] [Hs2 (u2 & Hd2 & Hu2) Hn2 Hf2].
  split.
  - rewrite Hs2, Hs1, list_to_set_app_L.
    by rewrite (assoc_L (∪)), (comm_L (∪) (list_to_set g2) (list_to_set g1)).
  - exists (u1 ++ u2). split; [by rewrite Hd1, Hd2, app_assoc|].
    intros g Hg. apply elem_of_app in Hg as [Hg | Hg].
    + destruct (Hu1 g Hg) as (r & Hr & ->). exists r. split; [|done].
      apply elem_of_app. by left.
    + destruct (Hu2 g Hg) as (r & Hr & ->). exists r. split; [|done].
      apply elem_of_app. by right.
  - apply NoDup_app. split; [done|]. split; [|done].
    intros g Hg1 Hg2. apply (Hf2 g Hg2). rewrite Hs1.
    apply elem_of_union_l. by apply elem_of_list_to_set.
  - intros g Hg. apply elem_of_app in Hg as [Hg | Hg]; [by apply Hf1|].
    intros Hin. apply (Hf2 g Hg). rewrite Hs1. by apply elem_of_union_r.
Qed.

Lemma generated_fresh_id ex draws new_id ex' draws' :
  fresh_id (ex, draws) = Some (new_id, (ex', draws')) ->
  generated ex draws ex' draws' [new_id].
Proof.
  intros H. apply fresh_id_spec in H
    as (-> & skipped & r & -> & -> & Hnotin & _).
  split.
  - simpl. by rewrite union_empty_r_L.
  - exists (skipped ++ [r]). split; [by rewrite <- app_assoc|].
    intros g Hg. apply list_elem_of_singleton in Hg as ->.
    exists r. split; [|done]. apply elem_of_app. right. constructor.
  - apply NoDup_singleton.
  - intros g Hg. by apply list_elem_of_singleton in Hg as ->.
Qed.

Lemma threaded_generated {A B}
    (R : A -> id_state -> B -> id_state -> Prop)
    (ids : A -> B -> list json) (need : A -> nat) l st l' st' :
  threaded R l st l' st' ->
  Forall (fun a => forall s b s',
              R a s b s' ->
              exists gen, generated s.1 s.2 s'.1 s'.2 gen
                          /\ ids a b = map JStr gen
                          /\ length gen = need a) l ->
  exists gen, generated st.1 st.2 st'.1 st'.2 gen
              /\ zip_flat ids l l' = map JStr gen
              /\ length gen = sum_with need l.
Proof.
  induction 1 as [st|a l st b st1 l' st2 HR _ IH]; intros Hall.
  - exists []. split; [apply generated_nil | done].
  - inversion Hall as [|? ? Ha Hl]; subst.
    destruct (Ha _ _ _ HR) as (g1 & Hg1 & Hids1 & Hlen1).
    destruct (IH Hl) as (g2 & Hg2 & Hids2 & Hlen2).
    exists (g1 ++ g2). split; [by eapply generated_app|]. split.
    + simpl. by rewrite Hids1, Hids2, map_app.
    + simpl. rewrite length_app. lia.
Qed.

Lemma assigned_ids_falsy v v' : truthy v = false -> assigned_ids v v' = [].
Proof.
  destruct v as [| | | | |items|entries]; try done.
  - destruct items; [|done]. by destruct v'.
  - destruct entries; [|done]. by destruct v'.
Qed.

Lemma zip_flat_dict_set entries entries' new_id :
  Forall2 (fun kv kv' => kv.1 = kv'.1 /\ id_frame kv.2 kv'.2)
    entries entries' ->
  truthy (dict_get_default entries (py "id")) = false ->
  zip_flat (fun kv kv' => assigned_ids kv.2 kv'.2) entries
    (dict_set entries' (py "id") (JStr new_id))
  = zip_flat (fun kv kv' => assigned_ids kv.2 kv'.2) entries entries'.
Proof.
  induction 1 as [|[k v] [k' v'] entries entries' [Hk Hv] _ IH];
    intros Hfalsy; [done|].
  simpl in Hk. subst k'. unfold dict_get_default in Hfalsy.
  simpl in Hfalsy. simpl.
  destruct (bool_decide (k = py "id")); simpl.
  - by rewrite !assigned_ids_falsy.
  - by rewrite IH.
Qed.

(** The ids a run generates: pairwise distinct, not in the set the run
    started with, one for each dict due to receive an id, in document
    order. *)
Lemma add_ids_generation T :
  forall ex draws T' ex' draws',
    add_ids_to_nodes T (ex, draws) = Some (T', (ex', draws')) ->
    exists gen, generated ex draws ex' draws' gen
                /\ assigned_ids T T' = map JStr gen
                /\ length gen = need_ids T.
Proof.
  induction T as [| | | | |items IH|entries IH] using json_ind;
    intros ex draws T' ex' draws' Hrun;
    try (cbn in Hrun; apply ret_Some in Hrun as [-> [= -> ->]];
         exists []; split; [apply generated_nil | done]).
  - cbn [add_ids_to_nodes] in Hrun.
    apply bind_Some in Hrun as (items' & st1 & Hrun & Hret).
    apply ret_Some in Hret as [-> <-].
    apply for_each_threaded in Hrun.
    apply (threaded_generated _ assigned_ids need_ids) in Hrun; [done|].
    eapply Forall_impl; [exact IH|].
    intros a Ha [ex0 d0] b [ex1 d1] Hr. by apply Ha.
  - cbn [add_ids_to_nodes] in Hrun.
    assert (Hitems : forall st1 entries' st2,
               for_items add_ids_to_nodes entries st1 = Some (entries', st2) ->
               Forall2 (fun kv kv' => kv.1 = kv'.1 /\ id_frame kv.2 kv'.2)
                 entries entries'
               /\ exists gen,
                    generated st1.1 st1.2 st2.1 st2.2 gen
                    /\ zip_flat (fun kv kv' => assigned_ids kv.2 kv'.2)
                         entries entries' = map JStr gen
                    /\ length gen = sum_with (fun kv => need_ids kv.2) entries).
    { intros st1 entries' st2 Hit. apply for_items_threaded in Hit. split.
      - eapply threaded_Forall2; [exact Hit|].
        apply Forall_forall. intros kv _ s kv' s' [Hk Hr].
        apply add_ids_structure in Hr as [Hfr _]. by rewrite Hk.
      - apply (threaded_generated _
                 (fun kv kv' => assigned_ids kv.2 kv'.2)
                 (fun kv => need_ids kv.2)) in Hit; [done|].
        eapply Forall_impl; [exact IH|].
        intros kv Hkv [ex0 d0] kv' [ex1 d1] [_ Hr]. by apply Hkv. }
    destruct (needs_id entries) eqn:Hneeds.
    + apply bind_Some in Hrun as (new_id & [ex1 d1] & Hfresh & Hrun).
      apply bind_Some in Hrun as (entries' & st2 & Hrun & Hret).
      apply ret_Some in Hret as [-> <-].
      destruct (Hitems _ _ _ Hrun) as [Hfr (gen & Hgen & Hids & Hlen)].
      apply generated_fresh_id in Hfresh.
      exists ([new_id] ++ gen). split; [by eapply generated_app|]. split.
      * cbn [assigned_ids]. rewrite Hneeds.
        unfold dict_get_default. rewrite dict_get_set_eq.
        rewrite zip_flat_dict_set, Hids; [done | done |].
        unfold needs_id in Hneeds. apply andb_true_iff in Hneeds as [_ H].
        by apply negb_true_iff in H.
      * cbn [need_ids]. rewrite Hneeds. simpl. by rewrite Hlen.
    + apply bind_Some in Hrun as (entries' & st2 & Hrun & Hret).
      apply ret_Some in Hret as [-> <-].
      destruct (Hitems _ _ _ Hrun) as [_ (gen & Hgen & Hids & Hlen)].
      exists gen. split; [done|]. split.
      * cbn [assigned_ids]. by rewrite Hneeds.
      * cbn [need_ids]. by rewrite Hneeds.
Qed.

Lemma after_draws_0 st : after_draws 0 st = st.
Proof.
  destruct st as [ex draws]. unfold after_draws. simpl.
  by rewrite drop_0, union_empty_l_L.
Qed.

Lemma after_draws_add n m st :
  after_draws m (after_draws n st) = after_draws (n + m) st.
Proof.
  destruct st as [ex draws]. unfold after_draws. simpl.
  rewrite drop_drop, <- take_take_drop, map_app, list_to_set_app_L.
  f_equal. rewrite (assoc_L (∪)).
  by rewrite (comm_L (∪) (list_to_set (map format_04x (take m (drop n draws))))).
Qed.

Lemma fresh_draws_after n st : fresh_draws st -> fresh_draws (after_draws n st).
Proof.
  destruct st as [ex draws]. unfold fresh_draws, after_draws. simpl.
  intros [Hnd Hex].
  rewrite <- (take_drop n draws), map_app in Hnd.
  apply NoDup_app in Hnd as (_ & Hdisj & Hnd).
  split; [done|]. intros r Hr. rewrite elem_of_union, elem_of_list_to_set.
  intros [Hin | Hin].
  - apply (Hdisj _ Hin). apply list_elem_of_In, in_map, list_elem_of_In, Hr.
  - apply (Hex r); [|done]. rewrite <- (take_drop n draws).
    apply elem_of_app. by right.
Qed.

Lemma fresh_id_total ex r draws :
  fresh_draws (ex, r :: draws) ->
  fresh_id (ex, r :: draws)
  = Some (format_04x r, after_draws 1 (ex, r :: draws)).
Proof.
  intros [_ Hex]. unfold fresh_id, after_draws. simpl.
  rewrite bool_decide_eq_false_2 by (apply Hex; constructor).
  rewrite drop_0. by rewrite union_empty_r_L.
Qed.

Lemma threaded_total {A B} (f : A -> M B) (g : list A -> M (list B))
    (need : A -> nat) :
  (forall st, g [] st = Some ([], st)) ->
  (forall a l st,
      g (a :: l) st =
        match f a st with
        | Some (b, st1) =>
            match g l st1 with
            | Some (rest, st2) => Some (b :: rest, st2)
            | None => None
            end
        | None => None
        end) ->
  forall l,
    Forall (fun a => forall st,
                fresh_draws st -> (need a <= length st.2)%nat ->
                exists b, f a st = Some (b, after_draws (need a) st)) l ->
    forall st,
      fresh_draws st -> (sum_with need l <= length st.2)%nat ->
      exists l', g l st = Some (l', after_draws (sum_with need l) st).
Proof.
  intros Hnil Hcons l Hall. induction Hall as [|a l Ha _ IH];
    intros st Hfresh Hlen.
  - exists []. by rewrite Hnil, after_draws_0.
  - simpl in Hlen. destruct (Ha st Hfresh) as (b & Hb); [lia|].
    destruct (IH (after_draws (need a) st)) as (rest & Hrest).
    + by apply fresh_draws_after.
    + destruct st as [ex draws]. simpl in *. rewrite length_drop. lia.
    + exists (b :: rest). rewrite Hcons, Hb, Hrest. simpl.
      by rewrite after_draws_add.
Qed.

Lemma for_each_cons f a items st :
  for_each f (a :: items) st =
    match f a st with
    | Some (b, st1) =>
        match for_each f items st1 with
        | Some (rest, st2) => Some (b :: rest, st2)
        | None => None
        end
    | None => None
    end.
Proof.
  change (for_each f (a :: items) st)
    with (bind (f a)
            (fun b => bind (for_each f items)
                        (fun rest => ret (b :: rest))) st).
  unfold bind, ret. destruct (f a st) as [[b st1]|]; [|done].
  by destruct (for_each f items st1) as [[rest st2]|].
Qed.

(** A run returns when the draws are enough: with draws that are never
    rejected, it takes one draw for each dict due to receive an id. *)
Lemma add_ids_total T :
  forall st,
    fresh_draws st -> (need_ids T <= length st.2)%nat ->
    exists T', add_ids_to_nodes T st = Some (T', after_draws (need_ids T) st).
Proof.
  induction T as [| | | | |items IH|entries IH] using json_ind;
    intros st Hfresh Hlen;
    try (eexists; cbn; by rewrite after_draws_0).
  - cbn [add_ids_to_nodes need_ids] in *.
    destruct (threaded_total add_ids_to_nodes (for_each add_ids_to_nodes)
                need_ids (fun _ => eq_refl)
                (for_each_cons add_ids_to_nodes) items IH st Hfresh Hlen)
      as (items' & Hrun).
    exists (JList items'). unfold bind, ret. by rewrite Hrun.
  - assert (Hitems : forall st1,
               fresh_draws st1 ->
               (sum_with (fun kv => need_ids kv.2) entries
                <= length st1.2)%nat ->
               exists entries',
                 for_items add_ids_to_nodes entries st1
                 = Some (entries',
                         after_draws
                           (sum_with (fun kv => need_ids kv.2) entries) st1)).
    { clear st Hfresh Hlen.
      induction IH as [|[k v] entries Hv _ IHe]; intros st Hfresh Hlen.
      - exists []. by rewrite after_draws_0.
      - simpl in Hlen, Hv. destruct (Hv st Hfresh) as (v' & Hv'); [lia|].
        destruct (IHe (after_draws (need_ids v) st)) as (rest & Hrest).
        + by apply fresh_draws_after.
        + destruct st as [ex draws]. simpl in *. rewrite length_drop. lia.
        + exists ((k, v') :: rest). rewrite for_items_cons. simpl in Hv'.
          rewrite Hv', Hrest. simpl. by rewrite after_draws_add. }
    cbn [add_ids_to_nodes need_ids] in *.
    destruct (needs_id entries).
    + destruct st as [ex [|r draws]]; [simpl in Hlen; lia|].
      destruct (Hitems (after_draws 1 (ex, r :: draws))) as (entries' & Hrun).
      * by apply fresh_draws_after.
      * simpl in *. rewrite drop_0. lia.
      * eexists. unfold bind, ret. rewrite fresh_id_total by done.
        rewrite Hrun, after_draws_add. done.
    + destruct (Hitems st Hfresh) as (entries' & Hrun); [simpl in Hlen; lia|].
      eexists. unfold bind, ret. rewrite Hrun. done.
Qed.

Lemma id_frame_scalar v v' :
  id_frame v v' -> is_container v = false -> v' = v.
Proof. by inversion 1. Qed.

Lemma get_path_falsy p v :
  truthy v = false -> p <> [] -> get_path p v = None.
Proof.
  intros Hv Hp. destruct p as [|[k|i] p]; [done| |].
  - destruct v as [| | | | | |entries]; try done. by destruct entries.
  - destruct v as [| | | | |items|]; try done. by destruct items.
Qed.

(** A place of the tree that is not the [id] entry of a dict due to receive
    an id is still there in the frame, and holds the frame of what it held. *)
Lemma id_frame_get_path p :
  forall T T' v,
    id_frame T T' -> get_path p T = Some v -> kept_place T p ->
    exists v', get_path p T' = Some v' /\ id_frame v v'.
Proof.
  induction p as [|s p IH]; intros T T' v Hfr Hget Hkept.
  - injection Hget as <-. by exists T'.
  - assert (Hsub : forall x, get_path [s] T = Some x -> kept_place x p).
    { intros x Hx p0 entries -> Hp0.
      apply (Hkept (s :: p0) entries); [done|].
      destruct s as [k|i]; simpl in *.
      - destruct T as [| | | | | |e]; try done.
        destruct (dict_get e k); [|done]. by injection Hx as ->.
      - destruct T as [| | | | |l|]; try done.
        destruct (l !! i); [|done]. by injection Hx as ->. }
    destruct s as [k|i].
    + destruct T as [| | | | | |entries]; try done.
      simpl in Hget, Hsub.
      destruct (dict_get entries k) as [x|] eqn:Hx; [|done].
      specialize (Hsub x eq_refl).
      inversion Hfr as [| | ? entries' Hn He | ? entries' new_id Hn He];
        subst; [done| |].
      * assert (Hx' := dict_get_frame _ _ k He). rewrite Hx in Hx'.
        destruct Hx' as (x' & Hx' & Hfx).
        destruct (IH x x' v Hfx Hget Hsub) as (v' & Hv' & Hfv).
        exists v'. simpl. by rewrite Hx'.
      * destruct (decide (k = py "id")) as [-> | Hk].
        -- exfalso. destruct p as [|s p].
           ++ specialize (Hkept [] entries eq_refl eq_refl). congruence.
           ++ rewrite get_path_falsy in Hget; [done | | done].
              unfold needs_id, dict_get_default in Hn. rewrite Hx in Hn.
              apply andb_true_iff in Hn as [_ Hn].
              by apply negb_true_iff in Hn.
        -- assert (Hx' := dict_get_frame _ _ k He). rewrite Hx in Hx'.
           destruct Hx' as (x' & Hx' & Hfx).
           destruct (IH x x' v Hfx Hget Hsub) as (v' & Hv' & Hfv).
           exists v'. simpl. rewrite dict_get_set_ne by done. by rewrite Hx'.
    + destruct T as [| | | | |items|]; try done.
      simpl in Hget, Hsub.
      destruct (items !! i) as [x|] eqn:Hx; [|done].
      specialize (Hsub x eq_refl).
      inversion Hfr as [| ? items' Hl | |]; subst; [done|].
      destruct (Forall2_lookup_l _ _ _ _ _ Hl Hx) as (x' & Hx' & Hfx).
      destruct (IH x x' v Hfx Hget Hsub) as (v' & Hv' & Hfv).
      exists v'. simpl. by rewrite Hx'.
Qed.

Lemma dict_set_absent entries k v :
  dict_get entries k = None -> dict_set entries k v = entries ++ [(k, v)].
Proof.
  induction entries as [|[k0 v0] entries IH]; [done|]. simpl.
  destruct (bool_decide (k0 = k)); [done|]. intros H. by rewrite IH.
Qed.

(** On a tree that carries no [id] key, the ids of the returned tree are the
    assigned ones. *)
Lemma node_ids_assigned T :
  forall T', id_frame T T' -> node_ids T = [] ->
             node_ids T' = assigned_ids T T'.
Proof.
  induction T as [| | | | |items IH|entries IH] using json_ind;
    intros T' Hfr Hnone;
    try (by inversion Hfr; subst).
  - inversion Hfr as [| ? items' Hl | |]; subst; [done|].
    cbn [node_ids assigned_ids] in *.
    clear Hfr. induction Hl as [|v v' items items' Hv _ IHl]; [done|].
    inversion IH as [|? ? IHv IHitems]; subst.
    simpl in Hnone. apply app_eq_nil in Hnone as [Hv0 Hrest].
    simpl. by rewrite (IHv v' Hv Hv0), (IHl IHitems Hrest).
  - assert (Hvalues : forall entries',
               Forall2 (fun kv kv' => kv.1 = kv'.1 /\ id_frame kv.2 kv'.2)
                 entries entries' ->
               flat_map (fun kv => node_ids kv.2) entries = [] ->
               flat_map (fun kv => node_ids kv.2) entries'
               = zip_flat (fun kv kv' => assigned_ids kv.2 kv'.2)
                   entries entries').
    { intros entries' He. clear Hfr Hnone.
      induction He as [|kv kv' entries entries' [_ Hv] _ IHe]; [done|].
      inversion IH as [|? ? IHv IHentries]; subst.
      intros Hnil. simpl in Hnil. apply app_eq_nil in Hnil as [Hv0 Hrest].
      simpl. by rewrite (IHv _ Hv Hv0), (IHe IHentries Hrest). }
    cbn [node_ids] in Hnone. apply app_eq_nil in Hnone as [Hid Hrest].
    assert (Hget : dict_get entries (py "id") = None)
      by (by destruct (dict_get entries (py "id"))).
    inversion Hfr as [| | ? entries' Hn He | ? entries' new_id Hn He]; subst;
      [done| |].
    + assert (Hget' := dict_get_frame _ _ (py "id") He).
      rewrite Hget in Hget'.
      cbn [node_ids assigned_ids]. rewrite Hget', Hn. simpl.
      by apply Hvalues.
    + assert (Hget' := dict_get_frame _ _ (py "id") He).
      rewrite Hget in Hget'.
      cbn [node_ids assigned_ids]. rewrite Hn.
      unfold dict_get_default. rewrite dict_get_set_eq.
      rewrite zip_flat_dict_set; [|done|].
      * rewrite dict_set_absent by done.
        rewrite flat_map_app. simpl. rewrite app_nil_r.
        f_equal. by apply Hvalues.
      * unfold dict_get_default. by rewrite Hget.
Qed.

End IdentifierFacts.
Import IdentifierFacts.

(** ** Properties of the Edit Reconciler *)

Module ReconcilerClaims.

Lemma parse_loop_without uuid4 by_id edited l1 line l2 :
  split_nl edited = l1 ++ line :: l2 ->
  (forall st, process_paragraph uuid4 by_id st line = st) ->
  parse_loop uuid4 by_id edited =
    fold_left (process_paragraph uuid4 by_id) (l1 ++ l2) initial_state.
Proof.
  intros Hsplit Hline. unfold parse_loop.
  rewrite Hsplit, !fold_left_app. simpl. by rewrite Hline.
Qed.

(** C6.  A line [[DELETE:x]] of the edited text is dropped: the loop body
    leaves the state as it was, and the reconciler returns what it returns on
    the other lines alone. *)
Theorem deletion_lines_dropped uuid4 original edited l1 line l2 :
  delete_line line ->
  split_nl edited = l1 ++ line :: l2 ->
  (forall by_id st, process_paragraph uuid4 by_id st line = st)
  /\ _parse_edited_content uuid4 edited original =
       match index_by_id original ∅ with
       | Raise e => Raise e
       | Return by_id =>
           Return (path_updates
                     (fold_left (process_paragraph uuid4 by_id) (l1 ++ l2)
                        initial_state))
       end.
Proof.
  intros Hdel Hsplit.
  assert (Hinert : forall by_id st, process_paragraph uuid4 by_id st line = st)
    by (intros; by apply process_paragraph_delete).
  split; [done|].
  unfold _parse_edited_content.
  destruct (index_by_id original ∅) as [by_id|e]; [|done].
  by rewrite (parse_loop_without _ _ _ l1 line l2).
Qed.

Lemma deletion_lines_dropped_witness :
  delete_line (py "[DELETE:b2]")
  /\ split_nl (py "[ID:a1] Hi" ++ nl ++ py "[DELETE:b2]" ++ nl ++ py "[NEW] x")
     = [py "[ID:a1] Hi"] ++ py "[DELETE:b2]" :: [py "[NEW] x"]
  /\ _parse_edited_content uuid_const
       (py "[ID:a1] Hi" ++ nl ++ py "[DELETE:b2]" ++ nl ++ py "[NEW] x")
       [flat "a1" "Hello"; flat "b2" "World"]
     = Return [{| upd_path := None; upd_content := py "Hi"; upd_id := py "a1" |};
               {| upd_path := Some (py "new"); upd_content := py "x";
                  upd_id := py "519b" |}].
Proof.
  assert (H1 : delete_line (py "[DELETE:b2]")).
  { exists (py "b2"). split; [|reflexivity].
    change (py "b2") with [98; 50].
    rewrite !not_elem_of_cons. repeat split; [done | done | apply not_elem_of_nil]. }
  assert (H2 : split_nl (py "[ID:a1] Hi" ++ nl ++ py "[DELETE:b2]" ++ nl
                         ++ py "[NEW] x")
               = [py "[ID:a1] Hi"] ++ py "[DELETE:b2]" :: [py "[NEW] x"])
    by reflexivity.
  split; [exact H1|]. split; [exact H2|].
  rewrite (proj2 (deletion_lines_dropped uuid_const
                    [flat "a1" "Hello"; flat "b2" "World"] _ _ _ _ H1 H2)).
  reflexivity.
Defined.

(** C4, where the code departs from it: for every node [x] of the original
    list whose text is not empty, the response line [[ID:x]] alone makes the
    reconciler emit an update that replaces the text of [x] by the empty
    string. *)
Theorem bare_id_line_blanks_paragraph uuid4 x text :
  x <> [] -> Forall (fun c => is_alnum c = true) x -> text <> [] ->
  _parse_edited_content uuid4 (py "[ID:" ++ x ++ py "]")
    [{| flat_id := JStr x; flat_text := text |}]
  = Return [{| upd_path := None; upd_content := []; upd_id := x |}].
Proof.
  intros Hne Hx Htext.
  assert (Hns : Forall (fun c => is_space c = false) x).
  { eapply Forall_impl; [exact Hx|]. intros c. apply is_alnum_not_space. }
  assert (Hstrip : strip (py "[ID:" ++ x ++ py "]") = py "[ID:" ++ x ++ [93]).
  { unfold strip.
    change (py "[ID:" ++ x ++ py "]") with (91 :: (73 :: 68 :: 58 :: x ++ [93])).
    rewrite lstrip_nonspace by done.
    change (91 :: 73 :: 68 :: 58 :: x ++ [93])
      with ([91; 73; 68; 58] ++ x ++ [93] ++ []).
    rewrite !rstrip_app_nonspace; [done| | |]; try done;
      by repeat constructor. }
  assert (Hline : 10 ∉ py "[ID:" ++ x ++ py "]").
  { change (py "[ID:") with [91; 73; 68; 58]. change (py "]") with [93].
    rewrite !elem_of_app, !elem_of_cons, elem_of_nil. intros H.
    decompose [or] H; try done.
    rewrite Forall_forall in Hx.
    match goal with H : 10 ∈ x |- _ => apply Hx in H; done end. }
  unfold _parse_edited_content, parse_loop. simpl index_by_id.
  rewrite split_nl_single by done. simpl fold_left.
  rewrite (process_paragraph_tagged _ _ _ _ x []) by done.
  unfold handle_existing. simpl.
  rewrite bool_decide_eq_false_2 by apply not_elem_of_empty.
  rewrite lookup_insert_eq. simpl.
  rewrite bool_decide_eq_true_2 by (intros H; by apply Htext).
  done.
Qed.

Lemma bare_id_line_blanks_paragraph_witness :
  py "a1" <> [] /\ Forall (fun c => is_alnum c = true) (py "a1")
  /\ py "Hello" <> []
  /\ _parse_edited_content uuid_const (py "[ID:a1]") [flat "a1" "Hello"]
     = Return [{| upd_path := None; upd_content := []; upd_id := py "a1" |}].
Proof.
  assert (H1 : py "a1" <> []) by discriminate.
  assert (H2 : Forall (fun c => is_alnum c = true) (py "a1"))
    by (by repeat constructor).
  assert (H3 : py "Hello" <> []) by discriminate.
  split; [exact H1|]. split; [exact H2|]. split; [exact H3|].
  exact (bare_id_line_blanks_paragraph uuid_const _ _ H1 H2 H3).
Defined.

(** C8, as worded, fails: the rendering of an empty paragraph is not
    [[ID:c3] (empty)]. *)
Lemma render_writes_empty_marker_fails : ~ render_writes_empty_marker.
Proof. intros H. specialize (H str_none). discriminate H. Qed.

(** C8, amended.  A flat node [c3] with empty text is rendered as [[ID:c3] ]
    (the tag and a space); when the original list gives [c3] the empty text,
    neither the line [[ID:c3] (empty)] nor the rendered line echoed back
    makes the reconciler emit an update. *)
Theorem empty_marker_round_trip str_other uuid4 original by_id node :
  index_by_id original ∅ = Return by_id ->
  by_id !! py "c3" = Some node ->
  flat_text node = [] ->
  dump_flattened_nodes str_other
    [{| flat_id := JStr (py "c3"); flat_text := [] |}] = py "[ID:c3] "
  /\ _parse_edited_content uuid4 (py "[ID:c3] (empty)") original = Return []
  /\ _parse_edited_content uuid4
       (dump_flattened_nodes str_other
          [{| flat_id := JStr (py "c3"); flat_text := [] |}]) original
     = Return [].
Proof.
  intros Hidx Hget Htext. split; [reflexivity|].
  assert (Hs : Forall (fun c => is_alnum c = true) (py "c3"))
    by (by repeat constructor).
  assert (Hstep : forall rest,
             strip rest = py "(empty)" \/ strip rest = [] ->
             path_updates
               (process_paragraph uuid4 by_id initial_state
                  (py "[ID:" ++ py "c3" ++ py "] " ++ rest)) = []).
  { intros rest Hrest.
    rewrite process_paragraph_dump_line by done.
    destruct Hrest as [Hr | Hr]; rewrite Hr;
      by apply (handle_existing_same by_id initial_state _ _ node). }
  unfold _parse_edited_content. rewrite Hidx. split; f_equal.
  - apply (Hstep (py "(empty)")). by left.
  - apply (Hstep []). by right.
Qed.

Lemma empty_marker_round_trip_witness :
  index_by_id [flat "a1" "Hello"; flat "c3" ""] ∅
  = Return (<[py "c3" := flat "c3" ""]> (<[py "a1" := flat "a1" "Hello"]> ∅))
  /\ (<[py "c3" := flat "c3" ""]> (<[py "a1" := flat "a1" "Hello"]> ∅)
        : gmap pystr FlatNode) !! py "c3" = Some (flat "c3" "")
  /\ flat_text (flat "c3" "") = []
  /\ dump_flattened_nodes str_none
       [{| flat_id := JStr (py "c3"); flat_text := [] |}] = py "[ID:c3] "
  /\ _parse_edited_content uuid_const (py "[ID:c3] (empty)")
       [flat "a1" "Hello"; flat "c3" ""] = Return []
  /\ _parse_edited_content uuid_const
       (dump_flattened_nodes str_none
          [{| flat_id := JStr (py "c3"); flat_text := [] |}])
       [flat "a1" "Hello"; flat "c3" ""] = Return [].
Proof.
  assert (H1 : index_by_id [flat "a1" "Hello"; flat "c3" ""] ∅
               = Return (<[py "c3" := flat "c3" ""]>
                           (<[py "a1" := flat "a1" "Hello"]> ∅)))
    by reflexivity.
  assert (H2 : (<[py "c3" := flat "c3" ""]>
                  (<[py "a1" := flat "a1" "Hello"]> ∅)
                  : gmap pystr FlatNode) !! py "c3" = Some (flat "c3" ""))
    by apply lookup_insert_eq.
  assert (H3 : flat_text (flat "c3" "") = []) by reflexivity.
  split; [exact H1|]. split; [exact H2|]. split; [exact H3|].
  exact (empty_marker_round_trip str_none uuid_const _ _ _ H1 H2 H3).
Defined.

Lemma roundtrip_safe_spec node :
  roundtrip_safe node = true ->
  exists s, flat_id node = JStr s /\ s <> []
            /\ Forall (fun c => is_alnum c = true) s
            /\ (10 ∉ flat_text node)
            /\ strip (flat_text node) = flat_text node
            /\ flat_text node <> py "(empty)".
Proof.
  unfold roundtrip_safe. destruct (flat_id node) as [| | | |s| |]; try done.
  rewrite !andb_true_iff, !negb_true_iff.
  intros ((((Hne & Hal) & Hnl) & Htrim) & Hph).
  exists s. repeat split.
  - by destruct s.
  - by apply forallb_Forall.
  - by apply bool_decide_eq_false in Hnl.
  - by apply bool_decide_eq_true in Htrim.
  - by apply bool_decide_eq_false in Hph.
Qed.

(** The lookup table of a list of nodes with pairwise distinct string ids
    sends every id to its node. *)
Lemma index_by_id_lookup l :
  forall acc,
    Forall (fun n => is_str (flat_id n) = true) l ->
    NoDup (map flat_id l) ->
    exists m, index_by_id l acc = Return m
              /\ (forall n s, n ∈ l -> flat_id n = JStr s -> m !! s = Some n)
              /\ (forall s, JStr s ∉ map flat_id l -> m !! s = acc !! s).
Proof.
  induction l as [|n l IH]; intros acc Hstr Hnd.
  - exists acc. split; [done|]. split; [|done].
    intros n s Hin. by apply elem_of_nil in Hin.
  - inversion Hstr as [|? ? Hn Hl]; subst.
    simpl in Hnd. apply NoDup_cons in Hnd as [Hnotin Hnd].
    destruct (flat_id n) as [| | | |s| |] eqn:Hid; try done.
    destruct (IH (<[s := n]> acc) Hl Hnd) as (m & Hm & Hin & Hout).
    exists m. simpl. rewrite Hid. split; [done|]. split.
    + intros n' s' Hn' Hs'. apply elem_of_cons in Hn' as [-> | Hn'].
      * rewrite Hid in Hs'. injection Hs' as <-.
        rewrite Hout by done. apply lookup_insert_eq.
      * by apply Hin.
    + intros s' Hs'. simpl in Hs'. apply not_elem_of_cons in Hs' as [Hne Hs'].
      rewrite Hout by done. apply lookup_insert_ne. congruence.
Qed.

(** Rendered lines of safe nodes, read back against a table that knows the
    nodes, add no update. *)
Lemma fold_dump_lines str_other uuid4 by_id l :
  forall st,
    Forall (fun n => roundtrip_safe n = true
                     /\ forall s, flat_id n = JStr s -> by_id !! s = Some n) l ->
    path_updates
      (fold_left (process_paragraph uuid4 by_id) (map (dump_line str_other) l) st)
    = path_updates st.
Proof.
  induction l as [|n l IH]; intros st Hl; [done|].
  inversion Hl as [|? ? [Hsafe Hget] Hl']; subst.
  simpl. rewrite IH by done.
  apply roundtrip_safe_spec in Hsafe
    as (s & Hid & Hne & Hal & _ & Htrim & Hph).
  unfold dump_line, fstr. rewrite Hid.
  rewrite process_paragraph_dump_line by done.
  rewrite Htrim, bool_decide_eq_false_2 by done.
  by apply (handle_existing_same by_id st s _ n); [apply Hget|].
Qed.

Lemma dump_line_no_newline str_other n :
  roundtrip_safe n = true -> 10 ∉ dump_line str_other n.
Proof.
  intros Hsafe.
  apply roundtrip_safe_spec in Hsafe as (s & Hid & _ & Hal & Hnl & _).
  unfold dump_line, fstr. rewrite Hid.
  change (py "[ID:") with [91; 73; 68; 58]. change (py "] ") with [93; 32].
  rewrite !elem_of_app, !elem_of_cons, elem_of_nil.
  intros H. decompose [or] H; try done.
  rewrite Forall_forall in Hal.
  match goal with H : 10 ∈ s |- _ => apply Hal in H; done end.
Qed.

(** C1, as worded, fails: a node whose text is the placeholder [(empty)] is
    rendered as [[ID:a1] (empty)] and read back as the empty text, which
    differs from the original. *)
Lemma round_trip_identity_fails : ~ round_trip_identity.
Proof.
  intros H.
  specialize (H str_none uuid_const tree_placeholder eq_refl).
  vm_compute in H. discriminate H.
Qed.

(** The same failure on a text with leading and trailing whitespace: the
    text is read back stripped. *)
Lemma round_trip_padded_text :
  _parse_edited_content uuid_const
    (dump_flattened_nodes str_none (flatten_nodes_to_list tree_padded []))
    (flatten_nodes_to_list tree_padded [])
  = Return [{| upd_path := None; upd_content := py "Hello";
               upd_id := py "a1" |}].
Proof. reflexivity. Qed.

(** C1, amended.  When the model echoes the rendered document, the
    reconciler returns the empty list, provided the flat nodes have pairwise
    distinct ids that are non-empty alphanumeric strings, and texts without
    newline, without leading or trailing whitespace, and other than the
    placeholder [(empty)]. *)
Theorem round_trip_identity_safe str_other uuid4 T :
  forallb roundtrip_safe (flatten_nodes_to_list T []) = true ->
  NoDup (map flat_id (flatten_nodes_to_list T [])) ->
  _parse_edited_content uuid4
    (dump_flattened_nodes str_other (flatten_nodes_to_list T []))
    (flatten_nodes_to_list T [])
  = Return [].
Proof.
  generalize (flatten_nodes_to_list T []). intros l.
  intros Hsafe Hnd. apply forallb_Forall in Hsafe.
  assert (Hstr : Forall (fun n => is_str (flat_id n) = true) l).
  { eapply Forall_impl; [exact Hsafe|]. intros n Hn. simpl in Hn.
    apply roundtrip_safe_spec in Hn as (s & -> & _). done. }
  destruct (index_by_id_lookup l ∅ Hstr Hnd) as (m & Hm & Hin & _).
  unfold _parse_edited_content. rewrite Hm. f_equal.
  unfold parse_loop, dump_flattened_nodes.
  destruct l as [|n l]; [done|].
  rewrite split_nl_join.
  - rewrite fold_dump_lines; [done|].
    apply Forall_forall. intros n' Hn'. split.
    + rewrite Forall_forall in Hsafe. by apply Hsafe.
    + intros s Hs. by apply Hin.
  - done.
  - apply Forall_forall. intros line Hline.
    apply list_elem_of_In, in_map_iff in Hline as (n' & <- & Hn').
    apply list_elem_of_In in Hn'.
    apply dump_line_no_newline.
    rewrite Forall_forall in Hsafe. by apply Hsafe.
Qed.

Lemma round_trip_identity_safe_witness :
  forallb roundtrip_safe (flatten_nodes_to_list tree_two_paragraphs []) = true
  /\ NoDup (map flat_id (flatten_nodes_to_list tree_two_paragraphs []))
  /\ _parse_edited_content uuid_const
       (dump_flattened_nodes str_none
          (flatten_nodes_to_list tree_two_paragraphs []))
       (flatten_nodes_to_list tree_two_paragraphs [])
     = Return [].
Proof.
  assert (H1 : forallb roundtrip_safe
                 (flatten_nodes_to_list tree_two_paragraphs []) = true)
    by reflexivity.
  assert (H2 : NoDup (map flat_id
                        (flatten_nodes_to_list tree_two_paragraphs []))).
  { change (NoDup [JStr (py "a1"); JStr (py "b2")]).
    apply NoDup_cons. split.
    - rewrite list_elem_of_singleton. discriminate.
    - apply NoDup_singleton. }
  split; [exact H1|]. split; [exact H2|].
  exact (round_trip_identity_safe str_none uuid_const _ H1 H2).
Defined.

End ReconcilerClaims.

(** ** Duplicate ids in the output of the Edit Reconciler *)

Module DuplicateClaims.

#[local] Arguments parse_line : simpl never.

Section Loop.

Variable uuid4 : nat -> pystr.
Variable by_id : gmap pystr FlatNode.

Lemma process_paragraph_effect st line :
  line_effect uuid4 line st (process_paragraph uuid4 by_id st line).
Proof.
  assert (Htag : line_tag line = (parse_line (strip line)).1.2) by done.
  unfold process_paragraph.
  destruct (parse_line (strip line)) as [[is_new parsed] final].
  simpl in Htag.
  destruct (nonempty (strip line)); simpl; [|by apply line_skip].
  destruct parsed as [tag|]; simpl.
  - destruct (nonempty tag) eqn:Hne; simpl.
    + destruct is_new.
      * unfold handle_new. simpl.
        destruct (bool_decide (tag ∈ processed_ids st)) eqn:Hin;
          [by apply line_skip|].
        apply bool_decide_eq_false in Hin.
        apply (line_tagged _ _ _ _ tag); simpl; eauto.
      * unfold handle_existing.
        destruct (bool_decide (tag ∈ processed_ids st)) eqn:Hin;
          [by apply line_skip|].
        apply bool_decide_eq_false in Hin.
        destruct (startswith final (py "[ID:") && (length final <? 15)%nat);
          [by apply line_skip|].
        destruct (by_id !! tag) as [node|];
          [destruct (bool_decide (final ≠ flat_text node))|];
          apply (line_tagged _ _ _ _ tag); simpl; eauto.
    + destruct is_new; [|by apply line_skip].
      unfold handle_new. simpl. by eapply line_synthesized.
  - destruct is_new; [|by apply line_skip].
    unfold handle_new. simpl. by eapply line_synthesized.
Qed.

Lemma loop_invariant_initial lines :
  loop_invariant uuid4 lines initial_state.
Proof.
  split; simpl.
  - intros u Hu. by apply elem_of_nil in Hu.
  - intros s Hs. by apply elem_of_empty in Hs.
  - intros u Hu. by apply elem_of_nil in Hu.
  - constructor.
Qed.

Lemma filter_snoc {A} (f : A -> bool) l x :
  List.filter f (l ++ [x]) = List.filter f l ++ (if f x then [x] else []).
Proof. rewrite List.filter_app. simpl. by destruct (f x). Qed.

Lemma loop_invariant_step lines line st st' :
  line ∈ lines ->
  loop_invariant uuid4 lines st ->
  line_effect uuid4 line st st' ->
  loop_invariant uuid4 lines st'.
Proof.
  intros Hline [Horigin Htags Hexisting Hmods] Heff.
  destruct Heff as [-> | tag Htag Hnotin Hproc Hcalls Hupd
                        | u Hupd Hid Hpath Hproc Hcalls].
  - by split.
  - assert (Hkeep : forall u, u ∈ path_updates st ->
               upd_id u ∈ {[tag]} ∪ processed_ids st
               \/ exists k, (k < uuid_calls st)%nat
                            /\ upd_id u = synthesized uuid4 k).
    { intros u Hu. destruct (Horigin u Hu) as [H | H]; [left | by right].
      by apply elem_of_union_r. }
    assert (Htags' : forall s, s ∈ {[tag]} ∪ processed_ids st ->
               exists l, l ∈ lines /\ line_tag l = Some s).
    { intros s. rewrite elem_of_union, elem_of_singleton.
      intros [-> | Hs]; [by exists line | by apply Htags]. }
    destruct Hupd as [Hupd | (u & Hupd & Hid)];
      split; rewrite ?Hupd, ?Hproc, ?Hcalls; try done.
    + intros u Hu Hp. apply elem_of_union_r. by apply Hexisting.
    + intros u' Hu'. apply elem_of_app in Hu' as [Hu' | Hu']; [by apply Hkeep|].
      apply list_elem_of_singleton in Hu' as ->. left. rewrite Hid.
      apply elem_of_union_l. by apply elem_of_singleton.
    + intros u' Hu' Hp.
      apply elem_of_app in Hu' as [Hu' | Hu'].
      * apply elem_of_union_r. by apply Hexisting.
      * apply list_elem_of_singleton in Hu' as ->. rewrite Hid.
        apply elem_of_union_l. by apply elem_of_singleton.
    + rewrite filter_snoc, map_app.
      destruct (is_modification u) eqn:Hmod; [|by rewrite app_nil_r].
      apply NoDup_app. split; [done|]. split; [|apply NoDup_singleton].
      intros x Hx Hx'. simpl in Hx'. apply list_elem_of_singleton in Hx' as ->.
      apply list_elem_of_In, in_map_iff in Hx as (u' & Hid' & Hu').
      apply filter_In in Hu' as [Hu' Hmod'].
      apply list_elem_of_In in Hu'.
      apply Hnotin. rewrite <- Hid, <- Hid'. apply Hexisting; [done|].
      unfold is_modification in Hmod'. by destruct (upd_path u').
  - split; rewrite ?Hupd, ?Hproc, ?Hcalls; try done.
    + intros u' Hu'. apply elem_of_app in Hu' as [Hu' | Hu'].
      * destruct (Horigin u' Hu') as [H | (k & Hk & H)]; [by left|].
        right. exists k. split; [lia | done].
      * apply list_elem_of_singleton in Hu' as ->. right.
        exists (uuid_calls st). split; [lia | done].
    + intros u' Hu' Hp.
      apply elem_of_app in Hu' as [Hu' | Hu']; [by apply Hexisting|].
      apply list_elem_of_singleton in Hu' as ->. congruence.
    + rewrite filter_snoc. unfold is_modification at 2. rewrite Hpath.
      by rewrite app_nil_r.
Qed.

Lemma loop_invariant_fold lines rest :
  forall st,
    (forall line, line ∈ rest -> line ∈ lines) ->
    loop_invariant uuid4 lines st ->
    loop_invariant uuid4 lines
      (fold_left (process_paragraph uuid4 by_id) rest st).
Proof.
  induction rest as [|line rest IH]; intros st Hsub Hinv; [done|].
  simpl. apply IH.
  - intros l Hl. apply Hsub. by constructor.
  - apply (loop_invariant_step lines line st); [|done|].
    + apply Hsub. constructor.
    + apply process_paragraph_effect.
Qed.

Lemma fresh_supply_spec lines :
  fresh_supply uuid4 lines = true ->
  (forall i j, (i < length lines)%nat -> (j < length lines)%nat ->
               synthesized uuid4 i = synthesized uuid4 j -> i = j)
  /\ (forall k line, (k < length lines)%nat -> line ∈ lines ->
                     line_tag line <> Some (synthesized uuid4 k)).
Proof.
  unfold fresh_supply. rewrite andb_true_iff. intros [Hnd Htags].
  apply bool_decide_eq_true in Hnd. split.
  - intros i j Hi Hj Heq.
    change (map (synthesized uuid4) (seq 0 (length lines)))
      with (synthesized uuid4 <$> seq 0 (length lines)) in Hnd.
    rewrite NoDup_alt in Hnd. apply (Hnd i j (synthesized uuid4 i)).
    + rewrite list_lookup_fmap, lookup_seq_lt by done. done.
    + rewrite list_lookup_fmap, lookup_seq_lt by done. simpl. by rewrite Heq.
  - intros k line Hk Hline.
    rewrite forallb_forall in Htags.
    assert (Hin : In k (seq 0 (length lines))) by (apply in_seq; lia).
    specialize (Htags k Hin). rewrite forallb_forall in Htags.
    apply list_elem_of_In in Hline. specialize (Htags line Hline).
    apply negb_true_iff, bool_decide_eq_false in Htags. done.
Qed.

Lemma line_effect_calls line st st' :
  line_effect uuid4 line st st' -> (uuid_calls st' <= S (uuid_calls st))%nat.
Proof. intros [-> | ? ? ? ? -> ? | ? ? ? ? ? ->]; lia. Qed.

Lemma nodup_step lines line st st' :
  fresh_supply uuid4 lines = true ->
  line ∈ lines ->
  (uuid_calls st < length lines)%nat ->
  loop_invariant uuid4 lines st ->
  NoDup (map upd_id (path_updates st)) ->
  line_effect uuid4 line st st' ->
  NoDup (map upd_id (path_updates st')).
Proof.
  intros Hfresh Hline Hcalls [Horigin Htags _ _] Hnd Heff.
  apply fresh_supply_spec in Hfresh as [Hinj Hsep].
  assert (Hsnoc : forall u, upd_id u ∉ map upd_id (path_updates st) ->
             NoDup (map upd_id (path_updates st ++ [u]))).
  { intros u Hu. rewrite map_app. apply NoDup_app. split; [done|].
    split; [|apply NoDup_singleton].
    intros x Hx Hx'. simpl in Hx'. apply list_elem_of_singleton in Hx' as ->.
    done. }
  destruct Heff as [-> | tag Htag Hnotin Hproc _ Hupd
                        | u Hupd Hid _ _ _]; [done| |].
  - destruct Hupd as [-> | (u & -> & Hid)]; [done|].
    apply Hsnoc. rewrite Hid. intros Hin.
    apply list_elem_of_In, in_map_iff in Hin as (u' & Hid' & Hu').
    apply list_elem_of_In in Hu'.
    destruct (Horigin u' Hu') as [H | (k & Hk & H)].
    + apply Hnotin. by rewrite <- Hid'.
    + apply (Hsep k line); [lia | done |]. by rewrite Htag, <- Hid', H.
  - rewrite Hupd. apply Hsnoc. rewrite Hid. intros Hin.
    apply list_elem_of_In, in_map_iff in Hin as (u' & Hid' & Hu').
    apply list_elem_of_In in Hu'.
    destruct (Horigin u' Hu') as [H | (k & Hk & H)].
    + rewrite Hid' in H. destruct (Htags _ H) as (l & Hl & Hltag).
      by apply (Hsep (uuid_calls st) l).
    + assert (k = uuid_calls st); [|lia].
      apply Hinj; [lia | done |]. by rewrite <- H.
Qed.

Lemma nodup_fold lines rest :
  forall st,
    fresh_supply uuid4 lines = true ->
    (forall line, line ∈ rest -> line ∈ lines) ->
    (uuid_calls st + length rest <= length lines)%nat ->
    loop_invariant uuid4 lines st ->
    NoDup (map upd_id (path_updates st)) ->
    NoDup (map upd_id
             (path_updates (fold_left (process_paragraph uuid4 by_id) rest st))).
Proof.
  induction rest as [|line rest IH]; intros st Hfresh Hsub Hcalls Hinv Hnd;
    [done|].
  simpl in *.
  assert (Hline : line ∈ lines) by (apply Hsub; constructor).
  assert (Heff := process_paragraph_effect st line).
  apply IH; try done.
  - intros l Hl. apply Hsub. by constructor.
  - apply line_effect_calls in Heff. lia.
  - by apply (loop_invariant_step lines line st).
  - apply (nodup_step lines line st); try done. lia.
Qed.

End Loop.

(** C5, as worded, fails: the id synthesized for an untagged [[NEW]] line can
    be the id of another update. *)
Lemma duplicate_free_output_fails : ~ duplicate_free_output.
Proof.
  intros H.
  specialize (H uuid_const
                (py "[ID:519b] New text" ++ nl ++ py "[NEW] Extra")
                [flat "519b" "Old text"] _ eq_refl).
  vm_compute in H. apply NoDup_cons in H as [H _].
  apply H. constructor.
Qed.

(** C5, amended.  No id appears in more than one of the updates that modify
    an existing node, whose ids come from [[ID:...]] tags and go through the
    processed set.  The ids synthesized for untagged [[NEW]] lines are not
    looked up in that set: the whole output is duplicate-free when the ids
    [uuid.uuid4()] supplies are pairwise distinct and differ from the tags of
    the response. *)
Theorem tagged_ids_duplicate_free uuid4 edited original updates :
  _parse_edited_content uuid4 edited original = Return updates ->
  NoDup (map upd_id (List.filter is_modification updates))
  /\ (fresh_supply uuid4 (split_nl edited) = true ->
      NoDup (map upd_id updates)).
Proof.
  unfold _parse_edited_content.
  destruct (index_by_id original ∅) as [by_id|]; [|done].
  intros [= <-]. unfold parse_loop. split.
  - apply inv_modifications with (uuid4 := uuid4) (lines := split_nl edited).
    apply loop_invariant_fold; [done|]. apply loop_invariant_initial.
  - intros Hfresh.
    apply nodup_fold with (lines := split_nl edited); try done.
    + apply loop_invariant_initial.
    + constructor.
Qed.

Lemma tagged_ids_duplicate_free_witness :
  _parse_edited_content uuid_seq
    (py "[ID:a1] Hello!" ++ nl ++ py "[NEW] Extra" ++ nl ++ py "[NEW] More")
    [flat "a1" "Hello"]
  = Return [{| upd_path := None; upd_content := py "Hello!"; upd_id := py "a1" |};
            {| upd_path := Some (py "new"); upd_content := py "Extra";
               upd_id := py "0000" |};
            {| upd_path := Some (py "new"); upd_content := py "More";
               upd_id := py "0001" |}]
  /\ fresh_supply uuid_seq
       (split_nl (py "[ID:a1] Hello!" ++ nl ++ py "[NEW] Extra" ++ nl
                  ++ py "[NEW] More")) = true
  /\ NoDup [py "a1"; py "0000"; py "0001"].
Proof.
  assert (H1 : _parse_edited_content uuid_seq
                 (py "[ID:a1] Hello!" ++ nl ++ py "[NEW] Extra" ++ nl
                  ++ py "[NEW] More")
                 [flat "a1" "Hello"]
               = Return [{| upd_path := None; upd_content := py "Hello!";
                            upd_id := py "a1" |};
                         {| upd_path := Some (py "new");
                            upd_content := py "Extra"; upd_id := py "0000" |};
                         {| upd_path := Some (py "new");
                            upd_content := py "More"; upd_id := py "0001" |}])
    by reflexivity.
  assert (H2 : fresh_supply uuid_seq
                 (split_nl (py "[ID:a1] Hello!" ++ nl ++ py "[NEW] Extra" ++ nl
                            ++ py "[NEW] More")) = true)
    by reflexivity.
  split; [exact H1|]. split; [exact H2|].
  exact (proj2 (tagged_ids_duplicate_free _ _ _ _ H1) H2).
Defined.

End DuplicateClaims.

(** ** Properties of the Tree Flattener and of the orchestrator *)

Module PipelineClaims.

(** C9, at the input where the code departs from it: a node with a blank
    [text] and a content list of text items passes the leaf test through its
    content, and is then emitted with its own blank text. *)
Theorem flatten_emits_blank_text :
  flatten_nodes_to_list tree_blank_text []
  = [{| flat_id := JStr (py "a1"); flat_text := [] |}]
  /\ strip (flat_text {| flat_id := JStr (py "a1"); flat_text := [] |}) = [].
Proof. split; reflexivity. Qed.

Section Orchestrator.

Variable str_other : json -> pystr.
Variable uuid4 : nat -> pystr.
Variable history : Type.
Variable format_user_prompt : pystr -> pystr -> pystr -> pystr.
Variable system_prompt : pystr.
Variable exn_str : exn -> pystr.

(** C7, where the code departs from it: when the generation service returns
    the empty string, the branch that builds [{error, message}] reads the
    local name [logging] before it is bound; the [UnboundLocalError] is
    caught by the handler of the function, and the result is
    [{original, error: str(e), message}].  It has an [error] key and no
    [path_updates] key, but it is not the result of the empty-output
    branch. *)
Theorem empty_generation_result jsonnode message selected_nodes_ids chat_history :
  let r := process_jsonnode str_other uuid4 history generate_nothing
             format_user_prompt system_prompt exn_str
             jsonnode message selected_nodes_ids chat_history in
  r = [(py "original",
        RStr (dump_flattened_nodes str_other
                (flatten_nodes_to_list jsonnode [])));
       (py "error", RStr (exn_str (UnboundLocalError (py "logging"))));
       (py "message", RStr message)]
  /\ (forall e, r <> [(py "error", RStr e); (py "message", RStr message)])
  /\ result_get r (py "error")
     = Some (RStr (exn_str (UnboundLocalError (py "logging"))))
  /\ result_get r (py "path_updates") = None.
Proof.
  assert (Hr : process_jsonnode str_other uuid4 history generate_nothing
                 format_user_prompt system_prompt exn_str
                 jsonnode message selected_nodes_ids chat_history
               = [(py "original",
                   RStr (dump_flattened_nodes str_other
                           (flatten_nodes_to_list jsonnode [])));
                  (py "error",
                   RStr (exn_str (UnboundLocalError (py "logging"))));
                  (py "message", RStr message)])
    by reflexivity.
  cbv zeta. rewrite Hr. repeat split; try reflexivity.
  intros e. discriminate.
Qed.

Variable generate_text : pystr -> pystr -> history -> outcome pystr.

(** The results [process_jsonnode] can return, all built from the flattening
    of the tree it was given. *)
Lemma process_jsonnode_shape jsonnode message selected_nodes_ids chat_history :
  let flattened := flatten_nodes_to_list jsonnode [] in
  let dumpstr := dump_flattened_nodes str_other flattened in
  let r := process_jsonnode str_other uuid4 history generate_text
             format_user_prompt system_prompt exn_str
             jsonnode message selected_nodes_ids chat_history in
  (exists edited updates,
      generate_text
        (format_user_prompt dumpstr message
           (dump_flattened_nodes str_other
              (List.filter (selected selected_nodes_ids) flattened)))
        system_prompt chat_history = Return edited
      /\ _parse_edited_content uuid4 edited flattened = Return updates
      /\ r = [(py "original", RStr dumpstr); (py "edited", RStr edited);
              (py "message", RStr message);
              (py "path_updates", RUpdates updates)])
  \/ (exists e, r = [(py "original", RStr dumpstr);
                     (py "error", RStr (exn_str e));
                     (py "message", RStr message)]).
Proof.
  cbv zeta. unfold process_jsonnode.
  destruct (generate_text _ _ _) as [edited|e] eqn:Hgen; [|right; by exists e].
  destruct (length edited =? 0)%nat.
  - right. by exists (UnboundLocalError (py "logging")).
  - destruct (_parse_edited_content _ _ _) as [updates|e] eqn:Hparse.
    + left. by exists edited, updates.
    + right. by exists e.
Qed.

(** C2, amended.  The orchestrator does not run the Node Identifier: it
    flattens the tree as the caller supplied it.  The [original] field of the
    result, when present, is the rendering of the flattening of that tree;
    [path_updates], when present, is the reconciliation of the generated text
    against that flattening; and no flat node has the id [None]: a node that
    arrives without id is not given one and is not emitted. *)
Theorem orchestrator_flattens_tree_as_received
    jsonnode message selected_nodes_ids chat_history :
  let flattened := flatten_nodes_to_list jsonnode [] in
  let dumpstr := dump_flattened_nodes str_other flattened in
  let r := process_jsonnode str_other uuid4 history generate_text
             format_user_prompt system_prompt exn_str
             jsonnode message selected_nodes_ids chat_history in
  (result_get r (py "original") = None
   \/ result_get r (py "original") = Some (RStr dumpstr))
  /\ (result_get r (py "path_updates") = None
      \/ exists edited updates,
           generate_text
             (format_user_prompt dumpstr message
                (dump_flattened_nodes str_other
                   (List.filter (selected selected_nodes_ids) flattened)))
             system_prompt chat_history = Return edited
           /\ _parse_edited_content uuid4 edited flattened = Return updates
           /\ result_get r (py "path_updates") = Some (RUpdates updates))
  /\ Forall (fun n => flat_id n <> JNull) flattened.
Proof.
  cbv zeta.
  destruct (process_jsonnode_shape jsonnode message selected_nodes_ids
              chat_history)
    as [(edited & updates & Hgen & Hparse & ->) | (e & ->)];
    (split; [by right|]); (split; [|apply flatten_ids_not_none]).
  - right. by exists edited, updates.
  - by left.
Qed.

End Orchestrator.

(** The only tree the Node Identifier can make of [tree_without_id]. *)
Lemma add_ids_tree_without_id st tree' st' :
  add_ids_to_nodes tree_without_id st = Some (tree', st') ->
  exists new_id,
    tree' = JDict [(py "type", JStr (py "paragraph"));
                   (py "text", JStr (py "Hello"));
                   (py "id", JStr new_id)].
Proof.
  change (add_ids_to_nodes tree_without_id st)
    with (match fresh_id st with
          | Some (new_id, st1) =>
              Some (JDict [(py "type", JStr (py "paragraph"));
                           (py "text", JStr (py "Hello"));
                           (py "id", JStr new_id)], st1)
          | None => None
          end).
  destruct (fresh_id st) as [[new_id st1]|]; [|done].
  intros [= <- <-]. by exists new_id.
Qed.

(** C2, as worded, fails: on a tree whose node has no id, the orchestrator
    renders the empty flattening, not the flattening of the identified
    tree. *)
Lemma orchestrator_assigns_ids_fails : ~ orchestrator_assigns_ids.
Proof.
  intros H.
  destruct (H str_none uuid_const generate_line format_plain [] exn_text
              tree_without_id (py "fix it") [])
    as (draws & tree' & st' & Hadd & Heq).
  apply add_ids_tree_without_id in Hadd as (new_id & ->).
  apply (f_equal (fun r => result_get r (py "original"))) in Heq.
  destruct (process_jsonnode_shape str_none uuid_const unit format_plain []
              exn_text generate_line
              (JDict [(py "type", JStr (py "paragraph"));
                      (py "text", JStr (py "Hello"));
                      (py "id", JStr new_id)])
              (py "fix it") [] tt)
    as [(edited & updates & _ & _ & Hr) | (e & Hr)];
    rewrite Hr in Heq; discriminate Heq.
Qed.

End PipelineClaims.

(** ** Properties of the Node Identifier *)

Module IdentifierClaims.

(** C10.  The tree a run of the Node Identifier returns is the frame of the
    tree it was given: an [id] is set on the dicts that have a [type] key and
    no truthy [id], and nothing else changes.  Every place of the tree other
    than the [id] entry of such a dict is kept and holds the frame of what it
    held; a string, number, boolean or null found there, the id of a node
    that was identified already among them, is exactly the same.  Such a run
    exists whenever the draws are enough. *)
Theorem identifier_frame T st :
  (forall T' st',
      add_ids_to_nodes T st = Some (T', st') ->
      id_frame T T'
      /\ forall p v,
           get_path p T = Some v -> kept_place T p ->
           exists v', get_path p T' = Some v' /\ id_frame v v'
                      /\ (is_container v = false -> v' = v))
  /\ (fresh_draws st -> (need_ids T <= length st.2)%nat ->
      exists T',
        add_ids_to_nodes T st = Some (T', after_draws (need_ids T) st)).
Proof.
  split; [|apply add_ids_total].
  intros T' st' Hrun. apply add_ids_structure in Hrun as [Hfr _].
  split; [done|]. intros p v Hget Hkept.
  destruct (id_frame_get_path p T T' v Hfr Hget Hkept) as (v' & Hv' & Hfv).
  exists v'. split; [done|]. split; [done|]. by apply id_frame_scalar.
Qed.

Lemma identifier_frame_witness :
  add_ids_to_nodes tree_one_id (∅, [7])
  = Some (JList [JDict [(py "type", JStr (py "paragraph"));
                        (py "id", JStr (py "00a0"))];
                 JDict [(py "type", JStr (py "paragraph"));
                        (py "id", JStr (py "0007"))]],
          ({[py "0007"]} ∪ ∅, []))
  /\ get_path [Index 0; Key (py "id")]
       (JList [JDict [(py "type", JStr (py "paragraph"));
                      (py "id", JStr (py "00a0"))];
               JDict [(py "type", JStr (py "paragraph"));
                      (py "id", JStr (py "0007"))]])
     = Some (JStr (py "00a0")).
Proof.
  assert (H : add_ids_to_nodes tree_one_id (∅, [7])
              = Some (JList [JDict [(py "type", JStr (py "paragraph"));
                                    (py "id", JStr (py "00a0"))];
                             JDict [(py "type", JStr (py "paragraph"));
                                    (py "id", JStr (py "0007"))]],
                      ({[py "0007"]} ∪ ∅, [])))
    by reflexivity.
  split; [exact H|].
  destruct (proj2 (proj1 (identifier_frame tree_one_id (∅, [7])) _ _ H)
              [Index 0; Key (py "id")] (JStr (py "00a0")) eq_refl)
    as (v' & Hv' & _ & Hsame).
  - intros p0 entries Hp Hp0.
    destruct p0 as [|s0 [|s1 p0]]; [discriminate Hp | |].
    + injection Hp as <-. by injection Hp0 as <-.
    + injection Hp as _ _ Hp. by destruct p0.
  - by rewrite Hv', (Hsame eq_refl).
Defined.

(** C3, as worded, fails: an id drawn for a node can be the id another node
    carried already. *)
Lemma id_uniqueness_fails : ~ id_uniqueness.
Proof.
  intros H.
  destruct (H tree_one_id [160]
              (JList [JDict [(py "type", JStr (py "paragraph"));
                             (py "id", JStr (py "00a0"))];
                      JDict [(py "type", JStr (py "paragraph"));
                             (py "id", JStr (py "00a0"))]])
              ({[py "00a0"]} ∪ ∅, []) eq_refl) as [_ Hnd].
  change (NoDup [JStr (py "00a0"); JStr (py "00a0")]) in Hnd.
  apply NoDup_cons in Hnd as [Hnotin _]. apply Hnotin. constructor.
Qed.

(** C3, amended.  After a run of the Node Identifier that started with the
    empty set, every dict with a [type] key has a truthy id, and the ids the
    run generated are pairwise distinct renderings of drawn values, one for
    each dict that was due to receive an id, in document order: no two of
    these dicts share an id.  The ids that were on the tree already are not
    looked at; when the tree carried no [id] key, no two nodes of the
    returned tree share an id.  A run returns when the draws are enough: with
    draws whose renderings are pairwise distinct, one draw for each dict due
    to receive an id. *)
Theorem identifier_uniqueness T draws :
  (forall T' ex' draws',
      add_ids_to_nodes T (∅, draws) = Some (T', (ex', draws')) ->
      ids_assigned T' = true
      /\ (exists gen,
             assigned_ids T T' = map JStr gen
             /\ NoDup gen
             /\ length gen = need_ids T
             /\ ex' = list_to_set gen
             /\ forall g, g ∈ gen -> exists r, r ∈ draws /\ g = format_04x r)
      /\ (node_ids T = [] -> NoDup (node_ids T')))
  /\ (NoDup (map format_04x draws) ->
      (need_ids T <= length draws)%nat ->
      exists T',
        add_ids_to_nodes T (∅, draws)
        = Some (T', after_draws (need_ids T) (∅, draws))).
Proof.
  split.
  - intros T' ex' draws' Hrun.
    destruct (add_ids_structure _ _ _ _ Hrun) as [Hfr Hassigned].
    apply add_ids_generation in Hrun
      as (gen & [Hset (used & Hdraws & Hused) Hnd _] & Hids & Hlen).
    split; [done|]. split.
    + exists gen. repeat split; try done.
      * by rewrite Hset, union_empty_r_L.
      * intros g Hg. destruct (Hused g Hg) as (r & Hr & ->).
        exists r. split; [|done]. rewrite Hdraws. apply elem_of_app. by left.
    + intros Hnone. rewrite (node_ids_assigned T T' Hfr Hnone), Hids.
      change (NoDup (JStr <$> gen)). apply NoDup_fmap_2; [|done].
      by intros x y [= ->].
  - intros Hnd Hlen. apply add_ids_total; [|done].
    split; [done|]. intros r _. apply not_elem_of_empty.
Qed.

Lemma identifier_uniqueness_witness :
  NoDup (map format_04x scenario_draws)
  /\ (need_ids tree_scenario <= length scenario_draws)%nat
  /\ exists T',
       add_ids_to_nodes tree_scenario (∅, scenario_draws)
       = Some (T', after_draws (need_ids tree_scenario)
                     (∅, scenario_draws)).
Proof.
  assert (H1 : NoDup (map format_04x scenario_draws)).
  { refine (bool_decide_unpack _ _). by vm_compute. }
  assert (H2 : (need_ids tree_scenario <= length scenario_draws)%nat)
    by (vm_compute; lia).
  split; [exact H1|]. split; [exact H2|].
  exact (proj2 (identifier_uniqueness tree_scenario scenario_draws)
           H1 H2).
Defined.

End IdentifierClaims.

(** * Further properties *)

(** ** The loop of the Edit Reconciler *)

Module ReconcilerLaws.

#[local] Arguments parse_line : simpl never.

(** The group of a match of the id pattern is a non-empty run of
    alphanumerics. *)
Lemma re_search_group s :
  forall before g rest,
    re_search s = Some (before, g, rest) ->
    g <> [] /\ Forall (fun c => is_alnum c = true) g.
Proof.
  induction s as [|c s IH]; intros before g rest; simpl.
  - done.
  - destruct (match_id_at (c :: s)) as [[g' r']|] eqn:Hm.
    + intros [= <- <- <-]. apply match_id_at_spec in Hm as (? & ? & Htag & _).
      by destruct Htag as (_ & _ & ? & ?).
    + destruct (re_search s) as [[[b' g'] r']|]; [|done].
      intros [= <- <- <-]. by eapply IH.
Qed.

(** What [parse_line] returns: whether the line starts with [[NEW]], a
    non-empty tag if any, and a text that is stripped and is not the
    placeholder. *)
Lemma parse_line_shape s is_new tag final :
  parse_line s = (is_new, tag, final) ->
  is_new = startswith s (py "[NEW]")
  /\ (forall t, tag = Some t -> t <> [])
  /\ (strip s = s -> strip final = final)
  /\ final <> py "(empty)".
Proof.
  unfold parse_line. cbv zeta.
  set (c := if startswith s (py "[NEW]") then _ else s).
  intros [= <- <- <-]. split; [done|].
  assert (Hc : strip s = s -> strip c = c).
  { intros Hs. subst c. destruct (startswith s (py "[NEW]")); [|done].
    apply strip_idem. }
  split; [|split].
  - intros t. destruct (re_search c) as [[[b g] r]|] eqn:Hre; [|done].
    intros [= <-]. apply re_search_group in Hre as [Hne Hal].
    by rewrite strip_alnum.
  - intros Hs.
    destruct (bool_decide _); [done|].
    destruct (re_search c) as [[[b g] r]|]; [apply strip_idem | by apply Hc].
  - destruct (bool_decide _) eqn:Hb; [done|].
    by apply bool_decide_eq_false in Hb.
Qed.

Section Loop.

Variable uuid4 : nat -> pystr.
Variable by_id : gmap pystr FlatNode.

(** Every iteration of the loop has one of the five effects. *)
Lemma process_paragraph_effects st line :
  paragraph_effect uuid4 by_id st line (process_paragraph uuid4 by_id st line).
Proof.
  unfold process_paragraph.
  destruct (parse_line (strip line)) as [[is_new tag] final] eqn:Hp.
  destruct (nonempty (strip line)); simpl; [|constructor].
  assert (Hcontent : line_content line = final)
    by (unfold line_content; by rewrite Hp).
  assert (Htag : line_tag line = tag) by (unfold line_tag; by rewrite Hp).
  apply parse_line_shape in Hp as (Hnew & Hne & _ & _).
  assert (Hnl : new_line line = is_new) by done.
  destruct tag as [t|].
  - change (default [] (Some t)) with t.
    assert (Ht : nonempty t = true)
      by (specialize (Hne t eq_refl); by destruct t).
    rewrite Ht. cbn [negb]. destruct is_new.
    + unfold handle_new. rewrite andb_true_l.
      case_bool_decide as Hin; [constructor|].
      rewrite <- Hcontent. by apply effect_new_tagged.
    + unfold handle_existing.
      case_bool_decide as Hin; [constructor|].
      destruct (startswith final (py "[ID:") && (length final <? 15)%nat);
        [constructor|].
      destruct (by_id !! t) as [node|] eqn:Hget; [|by apply effect_mark].
      case_bool_decide as Hdiff; [|by apply effect_mark].
      rewrite <- Hcontent.
      apply (effect_modify _ _ _ _ t node); try done. by rewrite Hcontent.
  - change (default [] None) with (@nil N).
    destruct is_new; [|constructor].
    unfold handle_new. cbn [andb]. rewrite <- Hcontent.
    by apply effect_new_untagged.
Qed.

(** A property of the loop variables that every iteration keeps holds when
    the loop ends. *)
Lemma fold_paragraphs (I : parse_state -> Prop) lines :
  forall st,
    I st ->
    (forall st line,
        line ∈ lines -> I st -> I (process_paragraph uuid4 by_id st line)) ->
    I (fold_left (process_paragraph uuid4 by_id) lines st).
Proof.
  induction lines as [|line lines IH]; intros st Hst Hstep; [done|].
  simpl. apply IH.
  - apply Hstep; [by left|done].
  - intros st0 l Hl. apply Hstep. by right.
Qed.

End Loop.

(** *** Lines of a response *)

Lemma split_nl_nonempty s : split_nl s <> [].
Proof.
  induction s as [|c s IH]; [done|]. simpl.
  destruct (c =? 10); [done|]. by destruct (split_nl s).
Qed.

(** A newline ends the last line of what comes before it. *)
Lemma split_nl_newline a b :
  split_nl (a ++ 10 :: b) = split_nl a ++ split_nl b.
Proof.
  induction a as [|c a IH]; [done|]. simpl. rewrite IH.
  destruct (c =? 10); [done|].
  pose proof (split_nl_nonempty a). by destruct (split_nl a).
Qed.

(** The characters of a line are characters of the text. *)
Lemma split_nl_elem s :
  forall line c, line ∈ split_nl s -> c ∈ line -> c ∈ s.
Proof.
  induction s as [|x s IH]; intros line c; simpl.
  - rewrite list_elem_of_singleton. by intros ->.
  - destruct (x =? 10).
    + rewrite elem_of_cons. intros [->|Hl] Hc; [by apply elem_of_nil in Hc|].
      right. by eapply IH.
    + pose proof (split_nl_nonempty s) as Hne.
      destruct (split_nl s) as [|l ls]; [done|].
      rewrite elem_of_cons. intros [->|Hl] Hc.
      * apply elem_of_cons in Hc as [->|Hc]; [by left|].
        right. apply (IH l); [by left|done].
      * right. apply (IH line); [by right|done].
Qed.

Lemma lstrip_elem s c : c ∈ lstrip s -> c ∈ s.
Proof.
  induction s as [|x s IH]; [done|]. simpl.
  destruct (is_space x); [|done]. intros H. right. by apply IH.
Qed.

Lemma rstrip_elem s c : c ∈ rstrip s -> c ∈ s.
Proof.
  revert c. induction s as [|x s IH]; intros c; [done|]. simpl.
  destruct (rstrip s) as [|y r].
  - destruct (is_space x); [by intros H; apply elem_of_nil in H|].
    rewrite list_elem_of_singleton. intros ->. by left.
  - rewrite elem_of_cons. intros [->|H]; [by left|]. right. by apply IH.
Qed.

Lemma strip_elem s c : c ∈ strip s -> c ∈ s.
Proof. intros H. by apply lstrip_elem, rstrip_elem. Qed.

(** Trailing whitespace is taken off behind a visible character. *)
Lemma rstrip_app_visible p s :
  rstrip s <> [] -> rstrip (p ++ s) = p ++ rstrip s.
Proof.
  intros Hs. induction p as [|c p IH]; [done|].
  simpl. rewrite IH. by destruct (p ++ rstrip s) eqn:H; [destruct p|].
Qed.

Lemma remove_first_prefix old s : remove_first old (old ++ s) = s.
Proof.
  destruct (old ++ s) eqn:H; simpl; rewrite <- H; by rewrite strip_prefix_app.
Qed.

(** The text of a line is stripped and is not the placeholder. *)
Lemma line_content_stripped line :
  strip (line_content line) = line_content line
  /\ line_content line <> py "(empty)".
Proof.
  unfold line_content.
  destruct (parse_line (strip line)) as [[is_new tag] final] eqn:Hp.
  apply parse_line_shape in Hp as (_ & _ & Hs & He).
  split; [|done]. apply Hs, strip_idem.
Qed.

(** *** The lookup table *)

(** An entry of the table is a node of the list, under its id. *)
Lemma index_by_id_elem nodes :
  forall acc m s n,
    index_by_id nodes acc = Return m -> m !! s = Some n ->
    (n ∈ nodes /\ flat_id n = JStr s) \/ acc !! s = Some n.
Proof.
  induction nodes as [|node nodes IH]; intros acc m s n; simpl.
  - intros [= <-]. by right.
  - destruct (flat_id node) as [| | | |s0| |] eqn:Hid; try done;
      intros Hm Hs; destruct (IH _ _ _ _ Hm Hs) as [[Hin Hn]|Hacc];
      try (left; split; [by right|done]); try (by right).
    destruct (decide (s0 = s)) as [->|Hne].
    + rewrite lookup_insert_eq in Hacc. injection Hacc as <-.
      left. split; [by left|done].
    + rewrite lookup_insert_ne in Hacc by done. by right.
Qed.

(** Building the table raises exactly when a node has a list or a dict as
    id, and the exception is [TypeError]. *)
Lemma index_by_id_outcome nodes :
  forall acc,
    match index_by_id nodes acc with
    | Raise e =>
        e = TypeError /\ Exists (fun n => is_container (flat_id n) = true) nodes
    | Return _ => Forall (fun n => is_container (flat_id n) = false) nodes
    end.
Proof.
  induction nodes as [|node nodes IH]; intros acc; simpl; [done|].
  assert (Hrest : forall acc',
             is_container (flat_id node) = false ->
             match index_by_id nodes acc' with
             | Raise e =>
                 e = TypeError
                 /\ Exists (fun n => is_container (flat_id n) = true)
                      (node :: nodes)
             | Return _ =>
                 Forall (fun n => is_container (flat_id n) = false)
                   (node :: nodes)
             end).
  { intros acc' Hnode. specialize (IH acc').
    destruct (index_by_id nodes acc').
    - by constructor.
    - destruct IH as [-> IH]. split; [done|]. by apply Exists_cons_tl. }
  destruct (flat_id node) eqn:Hid; try (by apply Hrest);
    (split; [done|]); apply Exists_cons_hd; by rewrite Hid.
Qed.

Section LoopLaws.

Variable uuid4 : nat -> pystr.
Variable by_id : gmap pystr FlatNode.

(** An iteration only appends to [path_updates] and only adds to
    [processed_ids]. *)
Lemma process_paragraph_grows st line :
  (exists more,
      path_updates (process_paragraph uuid4 by_id st line)
      = path_updates st ++ more)
  /\ processed_ids st ⊆ processed_ids (process_paragraph uuid4 by_id st line).
Proof.
  destruct (process_paragraph_effects uuid4 by_id st line); simpl;
    (split; [|set_solver]); try (by eexists);
    exists []; by rewrite app_nil_r.
Qed.

Lemma fold_paragraphs_grow lines :
  forall st,
    (exists more,
        path_updates (fold_left (process_paragraph uuid4 by_id) lines st)
        = path_updates st ++ more)
    /\ processed_ids st
       ⊆ processed_ids (fold_left (process_paragraph uuid4 by_id) lines st).
Proof.
  induction lines as [|line lines IH]; intros st; simpl.
  - split; [|done]. exists []. by rewrite app_nil_r.
  - destruct (IH (process_paragraph uuid4 by_id st line)) as [[m2 H2] Hs2].
    destruct (process_paragraph_grows st line) as [[m1 H1] Hs1].
    split; [|by etrans].
    exists (m1 ++ m2). by rewrite H2, H1, app_assoc.
Qed.

(** Once a line has been through the loop, it has no effect on the states
    that follow, unless it is a [[NEW]] line without tag. *)
Lemma process_paragraph_settled st line st2 :
  (new_line line = true -> line_tag line <> None) ->
  processed_ids (process_paragraph uuid4 by_id st line) ⊆ processed_ids st2 ->
  process_paragraph uuid4 by_id st2 line = st2.
Proof.
  unfold new_line, line_tag, process_paragraph.
  destruct (parse_line (strip line)) as [[is_new tag] final] eqn:Hp.
  apply parse_line_shape in Hp as (Hnew & Hne & _ & _). rewrite <- Hnew.
  destruct (nonempty (strip line)); [|done]. cbn [negb fst snd].
  intros Htagged.
  destruct tag as [t|].
  - change (default [] (Some t)) with t.
    assert (Ht : nonempty t = true)
      by (specialize (Hne t eq_refl); by destruct t).
    rewrite Ht. cbn [negb]. destruct is_new.
    + unfold handle_new. rewrite andb_true_l.
      repeat case_bool_decide; try done; simpl; set_solver.
    + unfold handle_existing.
      repeat case_bool_decide; try done;
        destruct (startswith final (py "[ID:") && (length final <? 15)%nat);
        try done; destruct (by_id !! t); simpl;
        repeat case_bool_decide; simpl; set_solver.
  - destruct is_new; [|done]. by specialize (Htagged eq_refl).
Qed.

(** A line without an opening bracket has no effect. *)
Lemma process_paragraph_no_bracket st line :
  91 ∉ line -> process_paragraph uuid4 by_id st line = st.
Proof.
  intros Hline.
  assert (Hs : 91 ∉ strip line) by (intros H; by apply Hline, strip_elem).
  apply process_paragraph_untagged; [|by apply re_search_no_bracket].
  unfold startswith.
  destruct (strip_prefix (py "[NEW]") (strip line)) as [r|] eqn:Hp; [|done].
  apply strip_prefix_Some in Hp. rewrite Hp in Hs.
  exfalso. apply Hs. by left.
Qed.

(** What the parser reads on a line [[NEW]t] whose text has no bracket. *)
Lemma parse_line_new t :
  91 ∉ t ->
  parse_line (strip (py "[NEW]" ++ t)) = (true, None, read_text t).
Proof.
  intros Ht.
  assert (Hstrip : strip (py "[NEW]" ++ t) = py "[NEW]" ++ rstrip t).
  { unfold strip. change (py "[NEW]" ++ t) with (91 :: py "NEW]" ++ t).
    rewrite lstrip_nonspace by done.
    change (91 :: py "NEW]" ++ t) with (py "[NEW]" ++ t).
    apply rstrip_app_nonspace. by repeat constructor. }
  rewrite Hstrip. unfold parse_line. cbv zeta.
  replace (startswith (py "[NEW]" ++ rstrip t) (py "[NEW]")) with true
    by (unfold startswith; by rewrite strip_prefix_app).
  rewrite remove_first_prefix, strip_rstrip.
  rewrite re_search_no_bracket
    by (intros H; by apply Ht, strip_elem).
  done.
Qed.

End LoopLaws.

(** What the parser reads on a line that starts with an id tag, in any of
    the forms the pattern allows. *)
Lemma parse_line_id_tag colon ws g rest :
  id_tag colon ws g ->
  parse_line (strip (py "[ID" ++ colon ++ ws ++ g ++ 93 :: rest))
  = (false, Some g, read_text rest).
Proof.
  intros Htag.
  assert (Hstrip : strip (py "[ID" ++ colon ++ ws ++ g ++ 93 :: rest)
                   = py "[ID" ++ colon ++ ws ++ g ++ 93 :: rstrip rest).
  { unfold strip.
    change (py "[ID" ++ colon ++ ws ++ g ++ 93 :: rest)
      with (91 :: py "ID" ++ colon ++ ws ++ g ++ 93 :: rest).
    rewrite lstrip_nonspace by done.
    change (91 :: py "ID" ++ colon ++ ws ++ g ++ 93 :: rest)
      with (py "[ID" ++ colon ++ ws ++ g ++ 93 :: rest).
    rewrite !app_assoc.
    rewrite rstrip_app_visible; [by rewrite rstrip_cons_nonspace|].
    by rewrite rstrip_cons_nonspace. }
  rewrite Hstrip. unfold parse_line, re_sub1. cbv zeta.
  replace (startswith (py "[ID" ++ colon ++ ws ++ g ++ 93 :: rstrip rest)
             (py "[NEW]")) with false by reflexivity.
  rewrite (re_search_here _ g (rstrip rest))
    by (apply match_id_at_spec; by exists colon, ws).
  destruct Htag as (_ & _ & Hne & Hal).
  rewrite app_nil_l. by rewrite strip_alnum, strip_rstrip.
Qed.

(** *** Properties of [_parse_edited_content] *)

(** X1.  A modification names a node of the original list and changes its
    text: every update with path [None] the reconciler returns carries the id
    of some original node whose text differs from the content of the update.
    An id tag of the response that no original node carries gives no
    modification. *)
Theorem modifications_name_changed_nodes uuid4 edited original updates u :
  _parse_edited_content uuid4 edited original = Return updates ->
  u ∈ updates -> upd_path u = None ->
  exists node,
    node ∈ original /\ flat_id node = JStr (upd_id u)
    /\ flat_text node <> upd_content u.
Proof.
  unfold _parse_edited_content.
  destruct (index_by_id original ∅) as [by_id|] eqn:Hidx; [|done].
  intros [= <-]. unfold parse_loop.
  revert u. apply (fold_paragraphs uuid4 by_id
    (fun st => forall u, u ∈ path_updates st -> upd_path u = None ->
       exists node, node ∈ original /\ flat_id node = JStr (upd_id u)
                    /\ flat_text node <> upd_content u)).
  - intros u Hu. by apply elem_of_nil in Hu.
  - intros st line _ Hst.
    destruct (process_paragraph_effects uuid4 by_id st line)
      as [|tag|tag node Hnew Htag Hfresh Hget Hdiff|tag|];
      simpl; try done; intros u Hu Hpath;
      apply elem_of_app in Hu as [Hu|Hu]; try (by apply Hst);
      apply list_elem_of_singleton in Hu as ->; try done.
    simpl. exists node.
    destruct (index_by_id_elem _ _ _ _ _ Hidx Hget) as [[Hin Hid]|Hempty];
      [|by rewrite lookup_empty in Hempty].
    by repeat split.
Qed.

Lemma modifications_name_changed_nodes_witness :
  exists node,
    node ∈ [flat "a1" "Hello"; flat "b2" "World"]
    /\ flat_id node = JStr (py "b2") /\ flat_text node <> py "Earth".
Proof.
  assert (H1 : _parse_edited_content uuid_const
                 (py "[ID:a1] Hello" ++ nl ++ py "[ID:b2] Earth" ++ nl
                  ++ py "[ID:zz] Moon")
                 [flat "a1" "Hello"; flat "b2" "World"]
               = Return [{| upd_path := None; upd_content := py "Earth";
                            upd_id := py "b2" |}])
    by reflexivity.
  refine (modifications_name_changed_nodes _ _ _ _
            {| upd_path := None; upd_content := py "Earth";
               upd_id := py "b2" |} H1 _ _); [by left | reflexivity].
Defined.

(** X2.  The content of every update is stripped of leading and trailing
    whitespace and is never the placeholder [(empty)], and its path is [None]
    or ['new']. *)
Theorem update_contents_stripped uuid4 edited original updates :
  _parse_edited_content uuid4 edited original = Return updates ->
  Forall (fun u => strip (upd_content u) = upd_content u
                   /\ upd_content u <> py "(empty)"
                   /\ (upd_path u = None \/ upd_path u = Some (py "new")))
    updates.
Proof.
  unfold _parse_edited_content.
  destruct (index_by_id original ∅) as [by_id|]; [|done].
  intros [= <-]. unfold parse_loop.
  apply (fold_paragraphs uuid4 by_id (fun st => Forall _ (path_updates st)));
    [by constructor|].
  intros st line _ Hst.
  destruct (line_content_stripped line) as [Hstrip Hne].
  destruct (process_paragraph_effects uuid4 by_id st line); simpl; try done;
    (apply Forall_app; split; [done|]); repeat constructor; simpl; done.
Qed.

Lemma update_contents_stripped_witness :
  Forall (fun u => strip (upd_content u) = upd_content u
                   /\ upd_content u <> py "(empty)"
                   /\ (upd_path u = None \/ upd_path u = Some (py "new")))
    [{| upd_path := None; upd_content := py "Hi"; upd_id := py "a1" |};
     {| upd_path := Some (py "new"); upd_content := [];
        upd_id := py "519b" |}].
Proof.
  assert (H1 : _parse_edited_content uuid_const
                 (py "  [ID: a1]   Hi  " ++ nl ++ py "[NEW] (empty)")
                 [flat "a1" "Hello"]
               = Return [{| upd_path := None; upd_content := py "Hi";
                            upd_id := py "a1" |};
                         {| upd_path := Some (py "new"); upd_content := [];
                            upd_id := py "519b" |}])
    by reflexivity.
  exact (update_contents_stripped _ _ _ _ H1).
Defined.

(** X3.  The updates follow the lines of the response: what is returned for
    a response is kept, in place, when further lines are added to the
    response. *)
Theorem earlier_updates_kept uuid4 a b original updates :
  _parse_edited_content uuid4 a original = Return updates ->
  exists more,
    _parse_edited_content uuid4 (a ++ nl ++ b) original
    = Return (updates ++ more).
Proof.
  unfold _parse_edited_content.
  destruct (index_by_id original ∅) as [by_id|]; [|done].
  intros [= <-]. unfold parse_loop.
  change (a ++ nl ++ b) with (a ++ 10 :: b).
  rewrite split_nl_newline, fold_left_app.
  destruct (fold_paragraphs_grow uuid4 by_id (split_nl b)
              (fold_left (process_paragraph uuid4 by_id) (split_nl a)
                 initial_state)) as [[more Hmore] _].
  exists more. by rewrite Hmore.
Qed.

Lemma earlier_updates_kept_witness :
  exists more,
    _parse_edited_content uuid_const
      (py "[ID:a1] Hi" ++ nl ++ py "[ID:a1] Ho" ++ nl ++ py "[NEW] x")
      [flat "a1" "Hello"]
    = Return ([{| upd_path := None; upd_content := py "Hi";
                  upd_id := py "a1" |}] ++ more).
Proof.
  assert (H1 : _parse_edited_content uuid_const (py "[ID:a1] Hi")
                 [flat "a1" "Hello"]
               = Return [{| upd_path := None; upd_content := py "Hi";
                            upd_id := py "a1" |}])
    by reflexivity.
  exact (earlier_updates_kept uuid_const _
           (py "[ID:a1] Ho" ++ nl ++ py "[NEW] x") _ _ H1).
Defined.

(** X4.  The first occurrence of a line wins: a line of the response that
    occurs again further down is ignored there, so the result is the one of
    the response without the second occurrence.  The exception is a [[NEW]]
    line without id tag, which adds a node each time. *)
Theorem repeated_line_ignored uuid4 a line b c original :
  10 ∉ line ->
  (new_line line = true -> line_tag line <> None) ->
  _parse_edited_content uuid4
    (a ++ nl ++ line ++ nl ++ b ++ nl ++ line ++ nl ++ c) original
  = _parse_edited_content uuid4 (a ++ nl ++ line ++ nl ++ b ++ nl ++ c)
      original.
Proof.
  intros Hline Htagged. unfold _parse_edited_content.
  destruct (index_by_id original ∅) as [by_id|]; [|done].
  do 2 f_equal. unfold parse_loop.
  change (a ++ nl ++ line ++ nl ++ b ++ nl ++ line ++ nl ++ c)
    with (a ++ 10 :: (line ++ 10 :: (b ++ 10 :: (line ++ 10 :: c)))).
  change (a ++ nl ++ line ++ nl ++ b ++ nl ++ c)
    with (a ++ 10 :: (line ++ 10 :: (b ++ 10 :: c))).
  rewrite !split_nl_newline, !(split_nl_single line) by done.
  rewrite !fold_left_app. simpl. rewrite ?fold_left_app. simpl.
  f_equal. apply process_paragraph_settled with
    (st := fold_left (process_paragraph uuid4 by_id) (split_nl a)
             initial_state); [done|].
  apply fold_paragraphs_grow.
Qed.

Lemma repeated_line_ignored_witness :
  _parse_edited_content uuid_const
    (py "[ID:a1] Hi" ++ nl ++ py "[ID:b2] Earth" ++ nl ++ py "[NEW] x" ++ nl
     ++ py "[ID:b2] Earth" ++ nl ++ py "[ID:a1] Ho")
    [flat "a1" "Hello"; flat "b2" "World"]
  = _parse_edited_content uuid_const
      (py "[ID:a1] Hi" ++ nl ++ py "[ID:b2] Earth" ++ nl ++ py "[NEW] x" ++ nl
       ++ py "[ID:a1] Ho")
      [flat "a1" "Hello"; flat "b2" "World"].
Proof.
  assert (H1 : 10 ∉ py "[ID:b2] Earth")
    by (refine (bool_decide_unpack _ _); by vm_compute).
  assert (H2 : new_line (py "[ID:b2] Earth") = true ->
               line_tag (py "[ID:b2] Earth") <> None) by done.
  exact (repeated_line_ignored uuid_const (py "[ID:a1] Hi")
           (py "[ID:b2] Earth") (py "[NEW] x") (py "[ID:a1] Ho")
           [flat "a1" "Hello"; flat "b2" "World"] H1 H2).
Defined.

(** X5.  The reconciler raises exactly when a node of the original list has
    a list or a dict as id, which cannot be a key of the lookup table; the
    exception is [TypeError], whatever the response.  In every other case it
    returns a list of updates. *)
Theorem unhashable_id_raises uuid4 edited original :
  match _parse_edited_content uuid4 edited original with
  | Raise e =>
      e = TypeError
      /\ Exists (fun n => is_container (flat_id n) = true) original
  | Return _ => Forall (fun n => is_container (flat_id n) = false) original
  end.
Proof.
  unfold _parse_edited_content.
  pose proof (index_by_id_outcome original ∅) as H.
  by destruct (index_by_id original ∅).
Qed.

(** X6.  A response without an opening bracket, plain prose for one, gives
    no update: when the ids of the original nodes are hashable, the result
    is the empty list. *)
Theorem plain_response_no_updates uuid4 edited original :
  91 ∉ edited ->
  Forall (fun n => is_container (flat_id n) = false) original ->
  _parse_edited_content uuid4 edited original = Return [].
Proof.
  intros Hplain Hids. unfold _parse_edited_content.
  pose proof (index_by_id_outcome original ∅) as Hidx.
  destruct (index_by_id original ∅) as [by_id|e].
  - f_equal. unfold parse_loop.
    apply (fold_paragraphs uuid4 by_id (fun st => path_updates st = []));
      [done|].
    intros st line Hline Hst.
    rewrite process_paragraph_no_bracket; [done|].
    intros H. apply Hplain. by apply (split_nl_elem _ line).
  - destruct Hidx as [_ Hex]. apply Exists_exists in Hex as (n & Hn & Hc).
    rewrite Forall_forall in Hids. specialize (Hids n Hn). congruence.
Qed.

Lemma plain_response_no_updates_witness :
  _parse_edited_content uuid_const
    (py "Sure, I have made the text shorter." ++ nl ++ py "Hello")
    [flat "a1" "Hello"; {| flat_id := JInt 7; flat_text := py "World" |}]
  = Return [].
Proof.
  assert (H1 : 91 ∉ py "Sure, I have made the text shorter." ++ nl
                    ++ py "Hello")
    by (refine (bool_decide_unpack _ _); by vm_compute).
  assert (H2 : Forall (fun n => is_container (flat_id n) = false)
                 [flat "a1" "Hello";
                  {| flat_id := JInt 7; flat_text := py "World" |}])
    by (by repeat constructor).
  exact (plain_response_no_updates uuid_const _ _ H1 H2).
Defined.

(** X7.  A line [[NEW]t] without bracket in [t], added to a response, adds
    one update at the end: path ['new'], the text of the line stripped, with
    [(empty)] read as the empty string, and as id the first four characters
    of the next [uuid.uuid4()]. *)
Theorem untagged_new_line_appends uuid4 a t original by_id :
  10 ∉ t -> 91 ∉ t ->
  index_by_id original ∅ = Return by_id ->
  _parse_edited_content uuid4 (a ++ nl ++ py "[NEW]" ++ t) original
  = Return
      (path_updates (parse_loop uuid4 by_id a)
       ++ [{| upd_path := Some (py "new");
              upd_content := read_text t;
              upd_id :=
                take 4 (uuid4 (uuid_calls (parse_loop uuid4 by_id a))) |}]).
Proof.
  intros Hnl Hbr Hidx. unfold _parse_edited_content. rewrite Hidx.
  f_equal. unfold parse_loop.
  change (a ++ nl ++ py "[NEW]" ++ t) with (a ++ 10 :: (py "[NEW]" ++ t)).
  rewrite split_nl_newline, fold_left_app.
  rewrite split_nl_single.
  2: { change (py "[NEW]") with [91; 78; 69; 87; 93].
       rewrite elem_of_app, !elem_of_cons, elem_of_nil.
       intros H. decompose [or] H; done. }
  cbn [fold_left]. unfold process_paragraph.
  rewrite parse_line_new by done.
  assert (Hvisible : nonempty (strip (py "[NEW]" ++ t)) = true).
  { destruct (strip (py "[NEW]" ++ t)) eqn:Hs; [|done].
    assert (Hv : strip (py "[NEW]" ++ t) <> []).
    { apply strip_visible. exists 91. split; [by left|done]. }
    congruence. }
  rewrite Hvisible. reflexivity.
Qed.

Lemma untagged_new_line_appends_witness :
  _parse_edited_content uuid_seq
    ((py "[ID:a1] Hi" ++ nl ++ py "[NEW] one") ++ nl ++ py "[NEW]" ++ py " two ")
    [flat "a1" "Hello"]
  = Return [{| upd_path := None; upd_content := py "Hi"; upd_id := py "a1" |};
            {| upd_path := Some (py "new"); upd_content := py "one";
               upd_id := py "0000" |};
            {| upd_path := Some (py "new"); upd_content := py "two";
               upd_id := py "0001" |}].
Proof.
  assert (H1 : 10 ∉ py " two ")
    by (refine (bool_decide_unpack _ _); by vm_compute).
  assert (H2 : 91 ∉ py " two ")
    by (refine (bool_decide_unpack _ _); by vm_compute).
  assert (H3 : index_by_id [flat "a1" "Hello"] ∅
               = Return (<[py "a1" := flat "a1" "Hello"]> ∅))
    by reflexivity.
  rewrite (untagged_new_line_appends uuid_seq
             (py "[ID:a1] Hi" ++ nl ++ py "[NEW] one") (py " two ")
             [flat "a1" "Hello"] _ H1 H2 H3).
  reflexivity.
Defined.

(** X8.  The parser reads the id of a line in every form the pattern allows:
    [[ID:x]], [[ID: x]], [[ID x]] and [[IDx]] all give the tag [x], and the
    text of the line is what follows the closing bracket, stripped, with
    [(empty)] read as the empty string. *)
Theorem id_tag_forms_read colon ws g rest :
  id_tag colon ws g ->
  line_tag (py "[ID" ++ colon ++ ws ++ g ++ py "]" ++ rest) = Some g
  /\ line_content (py "[ID" ++ colon ++ ws ++ g ++ py "]" ++ rest)
     = read_text rest
  /\ new_line (py "[ID" ++ colon ++ ws ++ g ++ py "]" ++ rest) = false.
Proof.
  intros Htag. unfold line_tag, line_content, new_line.
  change (py "]" ++ rest) with (93 :: rest).
  pose proof (parse_line_id_tag colon ws g rest Htag) as Hp.
  rewrite Hp. repeat split.
  by apply parse_line_shape in Hp as (<- & _).
Qed.

Lemma id_tag_forms_read_witness :
  line_tag (py "[ID" ++ [] ++ py "  " ++ py "a1" ++ py "]" ++ py " Hi ")
  = Some (py "a1")
  /\ line_content (py "[ID" ++ [] ++ py "  " ++ py "a1" ++ py "]" ++ py " Hi ")
     = read_text (py " Hi ")
  /\ new_line (py "[ID" ++ [] ++ py "  " ++ py "a1" ++ py "]" ++ py " Hi ")
     = false.
Proof.
  assert (H1 : id_tag [] (py "  ") (py "a1")).
  { split; [by left|]. split; [by repeat constructor|].
    split; [done | by repeat constructor]. }
  exact (id_tag_forms_read [] (py "  ") (py "a1") (py " Hi ") H1).
Defined.

End ReconcilerLaws.

(** ** The order and the origin of the flat nodes *)

Module FlattenerLaws.

Lemma emit_leaf_acc node node_id acc :
  emit_leaf node node_id acc = acc ++ emit_leaf node node_id [].
Proof.
  unfold emit_leaf.
  destruct (dict_get node (py "text")) as [[]|];
    try (destruct (dict_get node (py "content")) as [[]|];
         try (by rewrite app_nil_r);
         destruct (nonempty _); by rewrite ?app_nil_r);
    done.
Qed.

Lemma for_other_attrs_acc entries :
  Forall (fun kv => forall acc,
              flatten_nodes_to_list kv.2 acc
              = acc ++ flatten_nodes_to_list kv.2 []) entries ->
  forall acc,
    for_other_attrs flatten_nodes_to_list entries acc
    = acc ++ flat_others entries.
Proof.
  unfold flat_others.
  induction 1 as [|[k v] entries Hv _ IH]; intros acc; simpl.
  - by rewrite app_nil_r.
  - rewrite IH. destruct (other_key k && (is_dict v || is_list v)).
    + simpl in Hv. by rewrite Hv, app_assoc.
    + done.
Qed.

(** Flattening into a list appends to it what flattening into the empty list
    gives. *)
Lemma flatten_acc node :
  forall acc,
    flatten_nodes_to_list node acc = acc ++ flatten_nodes_to_list node [].
Proof.
  induction node as [| | | | |items IH|entries IH] using json_ind;
    intros acc; try (by rewrite app_nil_r).
  - cbn [flatten_nodes_to_list]. revert acc.
    induction IH as [|v items Hv _ IHl]; intros acc; simpl.
    + by rewrite app_nil_r.
    + rewrite IHl, (IHl (flatten_nodes_to_list v [])), Hv. by rewrite app_assoc.
  - rewrite !flatten_nodes_to_list_dict. cbv zeta.
    destruct (is_leaf_node entries && negb (is_none (node_id_of entries)));
      [apply emit_leaf_acc|].
    assert (Hsub : forall key items,
               dict_get entries key = Some (JList items) ->
               forall acc,
                 fold_left (fun r item => flatten_nodes_to_list item r)
                   items acc
                 = acc ++ fold_left
                            (fun r item => flatten_nodes_to_list item r)
                            items []).
    { intros key items Hget.
      apply dict_get_In, list_elem_of_In in Hget.
      rewrite Forall_forall in IH. exact (IH _ Hget). }
    rewrite !for_other_attrs_acc by done.
    destruct (dict_get entries (py "children")) as [[| | | | |children|]|]
      eqn:Hchildren;
      destruct (dict_get entries (py "content")) as [[| | | | |content|]|]
        eqn:Hcontent;
      rewrite ?app_nil_l; try done;
      try (rewrite (Hsub _ _ Hchildren acc));
      try (rewrite (Hsub _ _ Hcontent (acc ++ _)));
      try (rewrite (Hsub _ _ Hcontent acc));
      try (rewrite (Hsub _ _ Hcontent
                      (fold_left
                         (fun r item => flatten_nodes_to_list item r)
                         children [])));
      by rewrite ?app_assoc.
Qed.

Lemma fold_flatten items acc :
  fold_left (fun r item => flatten_nodes_to_list item r) items acc
  = acc ++ flat_map (fun item => flatten_nodes_to_list item []) items.
Proof.
  revert acc. induction items as [|v items IH]; intros acc; simpl.
  - by rewrite app_nil_r.
  - by rewrite IH, flatten_acc, app_assoc.
Qed.


(** A dict that is not emitted as a leaf gives the flat nodes under its
    [children], then those under its [content], then those of its other
    attributes. *)
Lemma flatten_dict_parts entries :
  is_leaf_node entries && negb (is_none (node_id_of entries)) = false ->
  flatten_nodes_to_list (JDict entries) []
  = flat_under (py "children") entries ++ flat_under (py "content") entries
    ++ flat_others entries.
Proof.
  intros Hleaf. rewrite flatten_nodes_to_list_dict. cbv zeta. rewrite Hleaf.
  rewrite for_other_attrs_acc
    by (apply Forall_forall; intros kv _; apply flatten_acc).
  unfold flat_under.
  destruct (dict_get entries (py "children")) as [[| | | | |children|]|];
    destruct (dict_get entries (py "content")) as [[| | | | |content|]|];
    rewrite ?fold_flatten, ?app_nil_l, ?app_nil_r; try done.
  by rewrite app_assoc.
Qed.



(** X9.  The flattener appends: flattening a node into a list that holds
    nodes already leaves them in front, followed by the flat nodes of the
    node; and the flat nodes of a list are those of its items, item after
    item in the order of the list. *)
Theorem flatten_document_order node items result :
  flatten_nodes_to_list node result = result ++ flatten_nodes_to_list node []
  /\ flatten_nodes_to_list (JList items) result
     = result ++ flat_map (fun item => flatten_nodes_to_list item []) items.
Proof. split; [apply flatten_acc | apply fold_flatten]. Qed.

(** X10.  In a dict that is not emitted as a leaf, the order of the keys
    does not matter: the flat nodes found under [children] come first, then
    those under [content], then those of the dicts and lists under the other
    keys ([id], [text] and [attrs] are not searched). *)
Theorem flatten_dict_order entries :
  is_leaf_node entries && negb (is_none (node_id_of entries)) = false ->
  flatten_nodes_to_list (JDict entries) []
  = flat_under (py "children") entries ++ flat_under (py "content") entries
    ++ flat_others entries.
Proof. apply flatten_dict_parts. Qed.

Lemma flatten_dict_order_witness :
  flatten_nodes_to_list tree_three_places []
  = [flat "c1" "Child"; flat "a1" "Hello"; flat "m1" "Note"].
Proof.
  assert (H1 : is_leaf_node
                 [(py "type", JStr (py "doc"));
                  (py "marks",
                   JList [JDict [(py "id", JStr (py "m1"));
                                 (py "text", JStr (py "Note"))]]);
                  (py "content",
                   JList [JDict [(py "id", JStr (py "a1"));
                                 (py "text", JStr (py "Hello"))]]);
                  (py "children",
                   JList [JDict [(py "id", JStr (py "c1"));
                                 (py "text", JStr (py "Child"))]])]
               && negb (is_none
                          (node_id_of
                             [(py "type", JStr (py "doc"));
                              (py "marks",
                               JList [JDict [(py "id", JStr (py "m1"));
                                             (py "text", JStr (py "Note"))]]);
                              (py "content",
                               JList [JDict [(py "id", JStr (py "a1"));
                                             (py "text", JStr (py "Hello"))]]);
                              (py "children",
                               JList [JDict [(py "id", JStr (py "c1"));
                                             (py "text", JStr (py "Child"))]])]))
               = false) by reflexivity.
  unfold tree_three_places. rewrite (flatten_dict_order _ H1). reflexivity.
Defined.



(** X12.  Every flat node has a text that is not blank, provided no dict of
    the tree passes the leaf test while its own [text] is a blank string. *)
Theorem flat_texts_visible node :
  all_dicts (fun d => negb (blank_text_leaf d)) node = true ->
  Forall (fun n => strip (flat_text n) <> []) (flatten_nodes_to_list node []).
Proof. apply flatten_texts_visible. Qed.

Lemma flat_texts_visible_witness :
  Forall (fun n => strip (flat_text n) <> [])
    (flatten_nodes_to_list tree_two_paragraphs []).
Proof.
  assert (H1 : all_dicts (fun d => negb (blank_text_leaf d))
                 tree_two_paragraphs = true) by reflexivity.
  exact (flat_texts_visible tree_two_paragraphs H1).
Defined.

(** X13.  The text extracted from a content list whose items all carry a
    string under [text] is these strings joined by single spaces: a space is
    put between two text runs whether or not the document has one there. *)
Theorem text_runs_joined content texts :
  Forall2 (fun item text =>
             exists d, item = JDict d
                       /\ dict_get d (py "text") = Some (JStr text))
    content texts ->
  _extract_text_from_content content = join (py " ") texts.
Proof.
  intros H. unfold _extract_text_from_content. f_equal.
  induction H as [|item text content texts (d & -> & Hget) _ IH]; [done|].
  cbn [flat_map extract_item]. by rewrite Hget, IH.
Qed.

Lemma text_runs_joined_witness :
  _extract_text_from_content [text_run "Hel"; text_run "lo"] = py "Hel lo".
Proof.
  assert (H1 : Forall2
                 (fun item text =>
                    exists d, item = JDict d
                              /\ dict_get d (py "text") = Some (JStr text))
                 [text_run "Hel"; text_run "lo"] [py "Hel"; py "lo"]).
  { repeat constructor; eexists; (split; [reflexivity|reflexivity]). }
  exact (text_runs_joined _ _ H1).
Defined.

End FlattenerLaws.

(** ** Dump/Render and the orchestrator *)

Module PipelineLaws.

Section Orchestrator.

Variable str_other : json -> pystr.
Variable uuid4 : nat -> pystr.
Variable history : Type.
Variable generate_text : pystr -> pystr -> history -> outcome pystr.
Variable format_user_prompt : pystr -> pystr -> pystr -> pystr.
Variable system_prompt : pystr.
Variable exn_str : exn -> pystr.

(** X14.  The rendering has one line per flat node, in the order of the
    list: when no id and no text holds a newline, splitting the rendering of
    a non-empty list at the newlines gives back the lines [[ID:id] text] of
    its nodes. *)
Theorem dump_one_line_per_node nodes :
  nodes <> [] ->
  Forall (fun n => (10 ∉ fstr str_other (flat_id n)) /\ (10 ∉ flat_text n))
    nodes ->
  split_nl (dump_flattened_nodes str_other nodes)
  = map (dump_line str_other) nodes.
Proof.
  intros Hne Hnodes. unfold dump_flattened_nodes.
  apply split_nl_join; [by destruct nodes|].
  apply Forall_forall. intros line Hline.
  apply list_elem_of_In, in_map_iff in Hline as (n & <- & Hn).
  rewrite Forall_forall in Hnodes.
  destruct (Hnodes n (proj2 (list_elem_of_In _ _) Hn)) as [Hid Htext].
  unfold dump_line.
  change (py "[ID:") with [91; 73; 68; 58]. change (py "] ") with [93; 32].
  rewrite !elem_of_app, !elem_of_cons, elem_of_nil.
  intros H. decompose [or] H; done.
Qed.

(** X15.  The result of the orchestrator always gives the instruction back
    under [message], and it has either an [error] or the [path_updates] and
    the [edited] text, never both and never neither. *)
Theorem result_keys jsonnode message selected_nodes_ids chat_history :
  let r := process_jsonnode str_other uuid4 history generate_text
             format_user_prompt system_prompt exn_str
             jsonnode message selected_nodes_ids chat_history in
  result_get r (py "message") = Some (RStr message)
  /\ (result_get r (py "error") = None
      <-> result_get r (py "path_updates") <> None)
  /\ (result_get r (py "edited") = None
      <-> result_get r (py "path_updates") = None).
Proof.
  cbv zeta. unfold process_jsonnode.
  destruct (generate_text _ _ _) as [edited|e]; [|by repeat split].
  destruct (length edited =? 0)%nat; [by repeat split|].
  destruct (_parse_edited_content _ _ _); by repeat split.
Qed.

(** X16.  A document in which a leaf carries a list or a dict as id cannot
    be edited: whatever the generation service answers, the result of the
    orchestrator is an error result without [path_updates]. *)
Theorem unhashable_id_fails_edit
    jsonnode message selected_nodes_ids chat_history :
  Exists (fun n => is_container (flat_id n) = true)
    (flatten_nodes_to_list jsonnode []) ->
  let r := process_jsonnode str_other uuid4 history generate_text
             format_user_prompt system_prompt exn_str
             jsonnode message selected_nodes_ids chat_history in
  result_get r (py "path_updates") = None
  /\ exists e, result_get r (py "error") = Some (RStr (exn_str e)).
Proof.
  intros Hids. cbv zeta. unfold process_jsonnode.
  destruct (generate_text _ _ _) as [edited|e]; [|split; [done | by exists e]].
  destruct (length edited =? 0)%nat;
    [split; [done | by exists (UnboundLocalError (py "logging"))]|].
  unfold _parse_edited_content.
  pose proof (ReconcilerLaws.index_by_id_outcome
                (flatten_nodes_to_list jsonnode []) ∅) as Hidx.
  destruct (index_by_id (flatten_nodes_to_list jsonnode []) ∅) as [by_id|e].
  - apply Exists_exists in Hids as (n & Hn & Hc).
    rewrite Forall_forall in Hidx. specialize (Hidx n Hn). congruence.
  - split; [done | by exists e].
Qed.

End Orchestrator.

Lemma dump_one_line_per_node_witness :
  split_nl (dump_flattened_nodes str_none
              [flat "a1" "Hello"; flat "b2" "World"])
  = [py "[ID:a1] Hello"; py "[ID:b2] World"].
Proof.
  assert (H1 : [flat "a1" "Hello"; flat "b2" "World"] <> []) by done.
  assert (H2 : Forall
                 (fun n => (10 ∉ fstr str_none (flat_id n))
                           /\ (10 ∉ flat_text n))
                 [flat "a1" "Hello"; flat "b2" "World"]).
  { repeat constructor; refine (bool_decide_unpack _ _); by vm_compute. }
  exact (dump_one_line_per_node str_none _ H1 H2).
Defined.

Lemma unhashable_id_fails_edit_witness :
  let r := process_jsonnode str_none uuid_const unit generate_line
             format_plain (py "system") exn_text
             tree_list_id (py "Shorten") [] tt in
  result_get r (py "path_updates") = None
  /\ exists e, result_get r (py "error") = Some (RStr (exn_text e)).
Proof.
  assert (H1 : Exists (fun n => is_container (flat_id n) = true)
                 (flatten_nodes_to_list tree_list_id [])).
  { apply Exists_cons_hd. reflexivity. }
  exact (unhashable_id_fails_edit str_none uuid_const unit generate_line
           format_plain (py "system") exn_text
           tree_list_id (py "Shorten") [] tt H1).
Defined.

End PipelineLaws.

(** ** The ids of the Node Identifier *)

Module IdentifierLaws.

Lemma upto_elem n :
  forall start r, r ∈ upto n start <-> start <= r < start + N.of_nat n.
Proof.
  induction n as [|n IH]; intros start r; simpl upto.
  - rewrite elem_of_nil. lia.
  - rewrite elem_of_cons, IH. lia.
Qed.

Lemma randint_range_elem r : r <= 65535 -> r ∈ randint_range.
Proof.
  intros Hr. unfold randint_range. apply upto_elem.
  rewrite N2Nat.id. lia.
Qed.

(** [format_04x], checked on every value of the range. *)
Lemma format_04x_checked :
  forallb
    (fun r =>
       (length (format_04x r) =? 4)%nat
       && forallb hex_char (format_04x r)
       && (hex_value (format_04x r) =? r))
    randint_range = true.
Proof. vm_compute. reflexivity. Qed.

Lemma format_04x_range r :
  r <= 65535 ->
  length (format_04x r) = 4%nat
  /\ Forall (fun c => hex_char c = true) (format_04x r)
  /\ hex_value (format_04x r) = r.
Proof.
  intros Hr. pose proof format_04x_checked as H.
  rewrite forallb_forall in H.
  specialize (H r (proj1 (list_elem_of_In _ _) (randint_range_elem r Hr))).
  apply andb_true_iff in H as [H Hv]. apply andb_true_iff in H as [Hl Hc].
  repeat split.
  - by apply Nat.eqb_eq.
  - by apply forallb_Forall.
  - by apply N.eqb_eq.
Qed.

Lemma hex_char_alnum c : hex_char c = true -> is_alnum c = true.
Proof.
  unfold hex_char, is_alnum.
  rewrite !orb_true_iff, !andb_true_iff, !N.leb_le. lia.
Qed.

(** A tree whose dicts all have their ids goes through the pass unchanged,
    and the pass draws nothing. *)
Lemma add_ids_assigned T :
  ids_assigned T = true -> forall st, add_ids_to_nodes T st = Some (T, st).
Proof.
  induction T as [| | | | |items IH|entries IH] using json_ind;
    intros Hok st; try done.
  - cbn [add_ids_to_nodes ids_assigned] in *. unfold bind.
    assert (Hitems : forall st, for_each add_ids_to_nodes items st
                                = Some (items, st)).
    { clear st. induction IH as [|v items Hv _ IHl]; intros st; [done|].
      simpl in Hok. apply andb_true_iff in Hok as [Hokv Hok].
      rewrite for_each_cons, (Hv Hokv), (IHl Hok). done. }
    by rewrite Hitems.
  - cbn [add_ids_to_nodes ids_assigned] in *.
    apply andb_true_iff in Hok as [Hneed Hok].
    apply negb_true_iff in Hneed. rewrite Hneed. unfold bind.
    assert (Hitems : forall st, for_items add_ids_to_nodes entries st
                                = Some (entries, st)).
    { clear st Hneed.
      induction IH as [|[k v] entries Hv _ IHl]; intros st; [done|].
      simpl in Hok. apply andb_true_iff in Hok as [Hokv Hok].
      rewrite for_items_cons. simpl in Hv. rewrite (Hv Hokv), (IHl Hok). done. }
    by rewrite Hitems.
Qed.

(** X17.  An id of the generator is four lower-case hexadecimal digits, for
    every value [random.randint(0, 0xFFFF)] can return; the parser of the
    reconciler reads it back from the line the renderer writes for a node
    with this id. *)
Theorem format_04x_shape str_other r text :
  r <= 65535 ->
  length (format_04x r) = 4%nat
  /\ Forall (fun c => hex_char c = true) (format_04x r)
  /\ line_tag (dump_line str_other
                 {| flat_id := JStr (format_04x r); flat_text := text |})
     = Some (format_04x r).
Proof.
  intros Hr. destruct (format_04x_range r Hr) as (Hlen & Hhex & _).
  repeat split; try done.
  unfold dump_line, line_tag. simpl flat_id. simpl flat_text. cbn [fstr].
  change (py "[ID:" ++ format_04x r ++ py "] " ++ text)
    with (py "[ID" ++ [58] ++ [] ++ format_04x r ++ 93 :: (32 :: text)).
  rewrite ReconcilerLaws.parse_line_id_tag; [done|].
  split; [by right|]. split; [done|]. split; [apply format_04x_nonempty|].
  eapply Forall_impl; [exact Hhex|]. apply hex_char_alnum.
Qed.

Lemma format_04x_shape_witness :
  length (format_04x 6699) = 4%nat
  /\ Forall (fun c => hex_char c = true) (format_04x 6699)
  /\ line_tag (dump_line str_none
                 {| flat_id := JStr (format_04x 6699);
                    flat_text := py "Hello" |})
     = Some (format_04x 6699).
Proof.
  assert (H1 : 6699 <= 65535) by lia.
  exact (format_04x_shape str_none 6699 (py "Hello") H1).
Defined.

(** X18.  Two different values of the range [0 .. 0xFFFF] give different
    ids: the generator can make 65536 ids, one for each value that
    [random.randint(0, 0xFFFF)] can return. *)
Theorem format_04x_injective r1 r2 :
  r1 <= 65535 -> r2 <= 65535 -> r1 <> r2 ->
  format_04x r1 <> format_04x r2.
Proof.
  intros H1 H2 Hne Heq. apply Hne.
  destruct (format_04x_range r1 H1) as (_ & _ & <-).
  destruct (format_04x_range r2 H2) as (_ & _ & <-).
  by rewrite Heq.
Qed.

Lemma format_04x_injective_witness : format_04x 255 <> format_04x 4080.
Proof.
  assert (H1 : 255 <= 65535) by lia.
  assert (H2 : 4080 <= 65535) by lia.
  assert (H3 : 255 <> 4080) by lia.
  exact (format_04x_injective 255 4080 H1 H2 H3).
Defined.

(** X19.  The id the generator returns is the rendering of the first draw
    whose rendering is not in [existing_ids]: it is not in the set, and
    every draw before it rendered to an id of the set. *)
Theorem hex_id_first_free existing draws new_id draws' :
  generate_random_hex_id existing draws = Some (new_id, draws') ->
  (new_id ∉ existing)
  /\ exists skipped r,
       draws = skipped ++ r :: draws'
       /\ new_id = format_04x r
       /\ Forall (fun x => format_04x x ∈ existing) skipped.
Proof.
  intros H.
  apply generate_random_hex_id_spec in H as (skipped & r & H1 & H2 & H3 & H4).
  split; [done|]. by exists skipped, r.
Qed.

Lemma hex_id_first_free_witness :
  (py "0008" ∉ ({[py "0007"]} : gset pystr))
  /\ exists skipped r,
       [7; 7; 8; 9] = skipped ++ r :: [9]
       /\ py "0008" = format_04x r
       /\ Forall (fun x => format_04x x ∈ ({[py "0007"]} : gset pystr)) skipped.
Proof.
  assert (H1 : generate_random_hex_id {[py "0007"]} [7; 7; 8; 9]
               = Some (py "0008", [9])) by reflexivity.
  exact (hex_id_first_free _ _ _ _ H1).
Defined.

(** X20.  When every id of the range is taken, the generator finds none:
    whatever values [random.randint(0, 0xFFFF)] returns, each is rejected,
    and the loop of [_generate_random_hex_id] does not end. *)
Theorem hex_id_exhaustion existing draws :
  (forall r, r <= 65535 -> format_04x r ∈ existing) ->
  Forall (fun r => r <= 65535) draws ->
  generate_random_hex_id existing draws = None.
Proof.
  intros Hfull Hdraws.
  induction Hdraws as [|r draws Hr _ IH]; [done|].
  simpl. by rewrite bool_decide_eq_true_2 by (by apply Hfull).
Qed.

Lemma hex_id_exhaustion_witness :
  generate_random_hex_id every_hex_id [0; 6699; 65535] = None.
Proof.
  assert (H1 : forall r, r <= 65535 -> format_04x r ∈ every_hex_id).
  { intros r Hr. unfold every_hex_id. apply elem_of_list_to_set.
    apply list_elem_of_In, in_map, list_elem_of_In.
    by apply randint_range_elem. }
  assert (H2 : Forall (fun r => r <= 65535) [0; 6699; 65535])
    by (repeat constructor; lia).
  exact (hex_id_exhaustion every_hex_id [0; 6699; 65535] H1 H2).
Defined.

(** X21.  The identification pass is idempotent: on the tree a pass
    returned, a second pass changes nothing and draws nothing, whatever the
    set of used ids and the draws it is given. *)
Theorem identifier_second_pass T st T' st' :
  add_ids_to_nodes T st = Some (T', st') ->
  forall st2, add_ids_to_nodes T' st2 = Some (T', st2).
Proof.
  intros H. apply add_ids_structure in H as [_ Hok].
  by apply add_ids_assigned.
Qed.

Lemma identifier_second_pass_witness :
  add_ids_to_nodes
    (JList [JDict [(py "type", JStr (py "paragraph"));
                   (py "id", JStr (py "00a0"))];
            JDict [(py "type", JStr (py "paragraph"));
                   (py "id", JStr (py "0007"))]]) (∅, [])
  = Some (JList [JDict [(py "type", JStr (py "paragraph"));
                        (py "id", JStr (py "00a0"))];
                 JDict [(py "type", JStr (py "paragraph"));
                        (py "id", JStr (py "0007"))]], (∅, [])).
Proof.
  assert (H1 : add_ids_to_nodes tree_one_id (∅, [7])
               = Some (JList [JDict [(py "type", JStr (py "paragraph"));
                                     (py "id", JStr (py "00a0"))];
                              JDict [(py "type", JStr (py "paragraph"));
                                     (py "id", JStr (py "0007"))]],
                       ({[py "0007"]} ∪ ∅, []))) by reflexivity.
  exact (identifier_second_pass _ _ _ _ H1 (∅, [])).
Defined.

End IdentifierLaws.

(** ** The flattened section outline *)

Module SectionLaws.

Lemma value_at_get {A} key (f : json -> A) dflt d :
  value_at key f dflt d =
    match dict_get d key with
    | Some v => f v
    | None => dflt
    end.
Proof.
  induction d as [|[k v] d IH]; [done|].
  simpl. by destruct (bool_decide (k = key)).
Qed.

Lemma dict_del_has d k : dict_has (dict_del d k) k = false.
Proof.
  unfold dict_has. induction d as [|[k' v] d IH]; [done|]. simpl.
  destruct (bool_decide (k' = k)) eqn:Hk; [done|]. simpl. by rewrite Hk.
Qed.

Lemma dict_del_absent d k : dict_has d k = false -> dict_del d k = d.
Proof.
  unfold dict_has. induction d as [|[k' v] d IH]; [done|]. simpl.
  destruct (bool_decide (k' = k)); [done|]. intros H. by rewrite IH.
Qed.

(** The equation of the source for a list of sections. *)
Lemma _flatten_recursive_list sections flattened :
  _flatten_recursive (JList sections) flattened
  = for_sections flatten_section sections flattened.
Proof. reflexivity. Qed.

Lemma after_nil w : after [] w = w.
Proof. by destruct w. Qed.

Lemma after_after a b w : after a (after b w) = after (a ++ b) w.
Proof. destruct w; simpl; [by rewrite app_assoc | done]. Qed.

Lemma for_sections_acc body sections :
  Forall (fun section => forall acc,
              body section acc = after acc (body section [])) sections ->
  forall acc,
    for_sections body sections acc = after acc (for_sections body sections []).
Proof.
  induction 1 as [|section sections Hs _ IH]; intros acc; simpl.
  - by rewrite app_nil_r.
  - rewrite Hs. destruct (body section []) as [out|e]; simpl; [|done].
    rewrite IH, (IH out), after_after. done.
Qed.

(** The walk appends to the list of the enclosing function: started with a
    list that holds sections already, it returns them followed by what it
    returns when started with the empty list. *)
Lemma walk_acc v :
  (forall acc, _flatten_recursive v acc = after acc (_flatten_recursive v []))
  /\ (forall acc, flatten_section v acc = after acc (flatten_section v [])).
Proof.
  induction v as [| | | |s|items IH|entries IH] using json_ind;
    try (split; intros acc; done).
  - split; intros acc; [|done]. destruct s; simpl; [|done].
    by rewrite app_nil_r.
  - split; intros acc.
    + rewrite !_flatten_recursive_list. apply for_sections_acc.
      eapply Forall_impl; [exact IH|]. by intros section [_ H].
    + simpl. destruct (list_has items (py "children")); [done|].
      simpl. by destruct (list_has items (py "title")); rewrite ?app_nil_r.
  - split; intros acc.
    + destruct entries; simpl; [|done]. by rewrite app_nil_r.
    + unfold flatten_section. rewrite !value_at_get.
      destruct (dict_get entries (py "children")) as [children|] eqn:Hget.
      * apply FlattenerFacts.dict_get_In, list_elem_of_In in Hget.
        rewrite Forall_forall in IH. destruct (IH _ Hget) as [Hc _].
        simpl in Hc. rewrite Hc.
        destruct (_flatten_recursive children []) as [out|e]; simpl; [|done].
        destruct (dict_has _ _); by rewrite ?app_assoc.
      * simpl. destruct (dict_has _ _); by rewrite ?app_nil_r.
Qed.

Lemma for_sections_cons body section sections acc :
  for_sections body (section :: sections) acc =
    match body section acc with
    | Done out => for_sections body sections out
    | Failed e => Failed e
    end.
Proof. reflexivity. Qed.

(** The walk of a list of sections: the first section, then the others. *)
Lemma _flatten_recursive_cons section sections :
  _flatten_recursive (JList (section :: sections)) [] =
    match flatten_section section [] with
    | Done out => after out (_flatten_recursive (JList sections) [])
    | Failed e => Failed e
    end.
Proof.
  rewrite _flatten_recursive_list, for_sections_cons.
  destruct (flatten_section section []) as [out|e]; [|done].
  rewrite <- _flatten_recursive_list. apply walk_acc.
Qed.

(** The walk of one section dict: its children, then its copy. *)
Lemma flatten_section_dict d :
  flatten_section (JDict d) [] =
    after []
      (match dict_get d (py "children") with
       | Some children =>
           match _flatten_recursive children [] with
           | Done out => Done (out ++ titled_copy d)
           | Failed e => Failed e
           end
       | None => Done (titled_copy d)
       end).
Proof.
  rewrite after_nil. unfold flatten_section, titled_copy.
  rewrite value_at_get.
  destruct (dict_get d (py "children")) as [children|] eqn:Hget.
  - destruct (_flatten_recursive children []); [|done].
    destruct (dict_has _ _); by rewrite ?app_nil_r.
  - rewrite dict_del_absent by (unfold dict_has; by rewrite Hget).
    by destruct (dict_has _ _).
Qed.

(** A property of sections that holds of every copy the walk appends holds
    of the whole flattened list. *)
Lemma walk_Forall (P : json -> Prop) :
  (forall d, dict_has (dict_del d (py "children")) (py "title") = true ->
             P (JDict (dict_del d (py "children")))) ->
  (forall l, list_has l (py "children") = false ->
             list_has l (py "title") = true -> P (JList l)) ->
  forall v,
    (forall out, _flatten_recursive v [] = Done out -> Forall P out)
    /\ (forall out, flatten_section v [] = Done out -> Forall P out).
Proof.
  intros Hdict Hlist.
  induction v as [| | | |s|items IH|entries IH] using json_ind;
    try (split; intros out; done).
  - split; intros out; [|done]. destruct s; [|done]. by intros [= <-].
  - split; intros out.
    + revert out. induction IH as [|section sections [_ Hs] _ IHl];
        intros out.
      * by intros [= <-].
      * rewrite _flatten_recursive_cons.
        destruct (flatten_section section []) as [o1|] eqn:H1; [|done].
        destruct (_flatten_recursive (JList sections) []) as [o2|] eqn:H2;
          [|done].
        intros [= <-]. apply Forall_app. split; [by apply Hs | by apply IHl].
    + simpl. destruct (list_has items (py "children")) eqn:Hc; [done|].
      destruct (list_has items (py "title")) eqn:Ht; intros [= <-];
        [|done]. constructor; [by apply Hlist | done].
  - split; intros out.
    + destruct entries; [|done]. by intros [= <-].
    + rewrite flatten_section_dict, after_nil. unfold titled_copy.
      assert (Hcopy : Forall P
                        (if dict_has (dict_del entries (py "children"))
                              (py "title")
                         then [JDict (dict_del entries (py "children"))]
                         else [])).
      { destruct (dict_has _ _) eqn:Ht; [|done].
        constructor; [by apply Hdict | done]. }
      destruct (dict_get entries (py "children")) as [children|] eqn:Hget.
      * apply FlattenerFacts.dict_get_In, list_elem_of_In in Hget.
        rewrite Forall_forall in IH. destruct (IH _ Hget) as [Hc _].
        simpl in Hc.
        destruct (_flatten_recursive children []) as [o|]; [|done].
        intros [= <-]. apply Forall_app. split; [by apply Hc | done].
      * by intros [= <-].
Qed.

(** A list of flat sections goes through the walk as it is. *)
Lemma walk_flat_sections sections :
  Forall (fun s => flat_section s = true) sections ->
  _flatten_recursive (JList sections) [] = Done sections.
Proof.
  induction 1 as [|section sections Hs _ IH]; [done|].
  rewrite _flatten_recursive_cons, IH.
  destruct section as [| | | | |l|d]; try done; simpl in Hs;
    apply andb_true_iff in Hs as [Ht Hc]; apply negb_true_iff in Hc.
  - simpl. by rewrite Hc, Ht.
  - rewrite flatten_section_dict, after_nil. unfold titled_copy.
    assert (Hget : dict_get d (py "children") = None).
    { unfold dict_has in Hc. by destruct (dict_get d (py "children")). }
    by rewrite Hget, dict_del_absent, Ht.
Qed.

(** The walk of an outline does not fail, and what it returns are dicts. *)
Lemma walk_outline v :
  (outline v = true ->
   exists out, _flatten_recursive v [] = Done out
               /\ Forall (fun s => is_dict s = true) out)
  /\ (forall d, v = JDict d ->
        value_at (py "children") outline true d = true ->
        exists out, flatten_section v [] = Done out
                    /\ Forall (fun s => is_dict s = true) out).
Proof.
  induction v as [| | | |s|items IH|entries IH] using json_ind;
    [split; [done | intros d [=]] ..| |].
  - split; [|intros d [=]]. cbn [outline]. intros Hok.
    induction IH as [|section sections [_ Hs] _ IHl];
      [by exists []|].
    simpl in Hok. apply andb_true_iff in Hok as [Hsection Hok].
    destruct section as [| | | | | |d]; try done.
    destruct (Hs d eq_refl Hsection) as (o1 & H1 & Hd1).
    destruct (IHl Hok) as (o2 & H2 & Hd2).
    exists (o1 ++ o2). rewrite _flatten_recursive_cons, H1, H2.
    split; [done | by apply Forall_app].
  - split; [done|]. intros d Heq.
    assert (d = entries) as -> by congruence. clear Heq.
    rewrite value_at_get.
    rewrite flatten_section_dict, after_nil. unfold titled_copy.
    assert (Hcopy : Forall (fun s => is_dict s = true)
                      (if dict_has (dict_del entries (py "children"))
                            (py "title")
                       then [JDict (dict_del entries (py "children"))]
                       else []))
      by (destruct (dict_has _ _); by repeat constructor).
    destruct (dict_get entries (py "children")) as [children|] eqn:Hget.
    + intros Hok.
      apply FlattenerFacts.dict_get_In, list_elem_of_In in Hget.
      rewrite Forall_forall in IH. destruct (IH _ Hget) as [Hc _].
      destruct (Hc Hok) as (o & Ho & Hd). simpl in Ho. rewrite Ho.
      eexists. split; [done|]. by apply Forall_app.
    + intros _. by eexists.
Qed.

(** X22.  Every section of the flattened list has a title and no children:
    the copies that go to the list are those in which ['title' in copy]
    holds, and their [children] key has been deleted. *)
Theorem flat_sections_titled sections flattened :
  _flatten_sections sections = Done flattened ->
  Forall (fun section => flat_section section = true) flattened.
Proof.
  apply (walk_Forall (fun section => flat_section section = true)).
  - intros d Ht. simpl. by rewrite Ht, dict_del_has.
  - intros l Hc Ht. simpl. by rewrite Ht, Hc.
Qed.

Lemma flat_sections_titled_witness :
  Forall (fun section => flat_section section = true)
    [JDict [(py "title", JStr (py "1.1")); (py "lines", JStr (py "2-5"))];
     JDict [(py "title", JStr (py "1")); (py "lines", JStr (py "1-9"))];
     JDict [(py "title", JStr (py "2")); (py "lines", JStr (py "10-12"))]].
Proof.
  assert (H1 : _flatten_sections outline_two_levels
               = Done [JDict [(py "title", JStr (py "1.1"));
                              (py "lines", JStr (py "2-5"))];
                       JDict [(py "title", JStr (py "1"));
                              (py "lines", JStr (py "1-9"))];
                       JDict [(py "title", JStr (py "2"));
                              (py "lines", JStr (py "10-12"))]])
    by reflexivity.
  exact (flat_sections_titled _ _ H1).
Defined.

(** X23.  Flattening is idempotent: the flattened list, flattened again, is
    returned as it is. *)
Theorem flatten_sections_idempotent sections flattened :
  _flatten_sections sections = Done flattened ->
  _flatten_sections (JList flattened) = Done flattened.
Proof.
  intros H. apply walk_flat_sections.
  revert H. apply (walk_Forall (fun section => flat_section section = true)).
  - intros d Ht. simpl. by rewrite Ht, dict_del_has.
  - intros l Hc Ht. simpl. by rewrite Ht, Hc.
Qed.

Lemma flatten_sections_idempotent_witness :
  _flatten_sections
    (JList [JDict [(py "title", JStr (py "1.1"));
                   (py "lines", JStr (py "2-5"))];
            JDict [(py "title", JStr (py "1"));
                   (py "lines", JStr (py "1-9"))];
            JDict [(py "title", JStr (py "2"));
                   (py "lines", JStr (py "10-12"))]])
  = Done [JDict [(py "title", JStr (py "1.1")); (py "lines", JStr (py "2-5"))];
          JDict [(py "title", JStr (py "1")); (py "lines", JStr (py "1-9"))];
          JDict [(py "title", JStr (py "2")); (py "lines", JStr (py "10-12"))]].
Proof.
  assert (H1 : _flatten_sections outline_two_levels
               = Done [JDict [(py "title", JStr (py "1.1"));
                              (py "lines", JStr (py "2-5"))];
                       JDict [(py "title", JStr (py "1"));
                              (py "lines", JStr (py "1-9"))];
                       JDict [(py "title", JStr (py "2"));
                              (py "lines", JStr (py "10-12"))]])
    by reflexivity.
  exact (flatten_sections_idempotent _ _ H1).
Defined.

(** X24.  The flattened list is in post-order: a section comes after the
    sections of its [children] and before the sections that follow it in its
    list; what is listed for it is its copy without the [children] key, and
    only if it has a title. *)
Theorem sections_post_order d children rest below following :
  dict_get d (py "children") = Some children ->
  _flatten_sections children = Done below ->
  _flatten_sections (JList rest) = Done following ->
  _flatten_sections (JList (JDict d :: rest))
  = Done (below ++ titled_copy d ++ following).
Proof.
  unfold _flatten_sections. intros Hget Hbelow Hrest.
  rewrite _flatten_recursive_cons, flatten_section_dict, after_nil.
  rewrite Hget, Hbelow, Hrest. simpl. by rewrite app_assoc.
Qed.

Lemma sections_post_order_witness :
  _flatten_sections outline_two_levels
  = Done [JDict [(py "title", JStr (py "1.1")); (py "lines", JStr (py "2-5"))];
          JDict [(py "title", JStr (py "1")); (py "lines", JStr (py "1-9"))];
          JDict [(py "title", JStr (py "2")); (py "lines", JStr (py "10-12"))]].
Proof.
  assert (H1 : dict_get
                 [(py "title", JStr (py "1")); (py "lines", JStr (py "1-9"));
                  (py "children",
                   JList [JDict [(py "title", JStr (py "1.1"));
                                 (py "lines", JStr (py "2-5"))];
                          JDict [(py "lines", JStr (py "6-9"))]])]
                 (py "children")
               = Some (JList [JDict [(py "title", JStr (py "1.1"));
                                     (py "lines", JStr (py "2-5"))];
                              JDict [(py "lines", JStr (py "6-9"))]]))
    by reflexivity.
  assert (H2 : _flatten_sections
                 (JList [JDict [(py "title", JStr (py "1.1"));
                                (py "lines", JStr (py "2-5"))];
                         JDict [(py "lines", JStr (py "6-9"))]])
               = Done [JDict [(py "title", JStr (py "1.1"));
                              (py "lines", JStr (py "2-5"))]])
    by reflexivity.
  assert (H3 : _flatten_sections
                 (JList [JDict [(py "title", JStr (py "2"));
                                (py "lines", JStr (py "10-12"))]])
               = Done [JDict [(py "title", JStr (py "2"));
                              (py "lines", JStr (py "10-12"))]])
    by reflexivity.
  unfold outline_two_levels.
  rewrite (sections_post_order _ _ _ _ _ H1 H2 H3). reflexivity.
Defined.

(** X25.  On an outline, a list of dicts whose [children], where present,
    are outlines again, the walk raises no exception, and every section of
    the flattened list is a dict. *)
Theorem outline_flattens sections :
  outline sections = true ->
  exists flattened,
    _flatten_sections sections = Done flattened
    /\ Forall (fun section => is_dict section = true) flattened.
Proof. apply walk_outline. Qed.

Lemma outline_flattens_witness :
  exists flattened,
    _flatten_sections outline_two_levels = Done flattened
    /\ Forall (fun section => is_dict section = true) flattened.
Proof.
  assert (H1 : outline outline_two_levels = true) by reflexivity.
  exact (outline_flattens outline_two_levels H1).
Defined.

End SectionLaws.

(** ** The diff extracted from an answer *)

Module DiffLaws.

Lemma split_nl_no_newline s : Forall (fun line => 10 ∉ line) (split_nl s).
Proof.
  induction s as [|c s IH]; simpl.
  - constructor; [apply not_elem_of_nil | done].
  - destruct (c =? 10) eqn:Hc.
    + constructor; [apply not_elem_of_nil | done].
    + pose proof (ReconcilerLaws.split_nl_nonempty s) as Hne.
      destruct (split_nl s) as [|l ls]; [done|].
      apply Forall_cons in IH as [Hl Hls].
      constructor; [|done]. apply not_elem_of_cons. split; [|done].
      apply N.eqb_neq in Hc. congruence.
Qed.

(** Joining the lines of a text with newlines gives the text back. *)
Lemma join_split_nl s : join nl (split_nl s) = s.
Proof.
  induction s as [|c s IH]; [done|]. simpl.
  pose proof (ReconcilerLaws.split_nl_nonempty s) as Hne.
  destruct (c =? 10) eqn:Hc.
  - apply N.eqb_eq in Hc as ->.
    destruct (split_nl s) as [|l ls]; [done|].
    change (join nl ([] :: l :: ls)) with ([] ++ nl ++ join nl (l :: ls)).
    by rewrite IH.
  - destruct (split_nl s) as [|l ls]; [done|].
    rewrite <- IH. by destruct ls.
Qed.

Lemma startswith_app s p t :
  startswith s p = true -> startswith (s ++ t) p = true.
Proof.
  unfold startswith.
  destruct (strip_prefix p s) as [r|] eqn:Hp; [|done]. intros _.
  apply strip_prefix_Some in Hp as ->.
  by rewrite <- app_assoc, strip_prefix_app.
Qed.

Lemma startswith_join lines line rest p :
  lines = line :: rest -> startswith line p = true ->
  startswith (join nl lines) p = true.
Proof.
  intros -> Hline. destruct rest; [done|].
  cbn [join]. by apply startswith_app.
Qed.

(** The index the loop finds: the lines before it do not start with [---],
    the line at it does. *)
Lemma find_diff_start_spec lines :
  forall i,
    match find_diff_start i lines with
    | Some diff_start =>
        exists j line,
          diff_start = (i + j)%nat
          /\ Forall (fun l => startswith l (py "---") = false) (take j lines)
          /\ drop j lines = line :: drop (S j) lines
          /\ startswith line (py "---") = true
    | None => Forall (fun l => startswith l (py "---") = false) lines
    end.
Proof.
  induction lines as [|line lines IH]; intros i; simpl; [done|].
  destruct (startswith line (py "---")) eqn:Hline.
  - exists 0%nat, line. rewrite Nat.add_0_r. by repeat split.
  - specialize (IH (S i)).
    destruct (find_diff_start (S i) lines) as [k|].
    + destruct IH as (j & l & -> & Hbefore & Hdrop & Hl).
      exists (S j), l. repeat split; try done; [lia|].
      simpl. by constructor.
    + by constructor.
Qed.

(** X26.  What [_extract_diff] returns is the answer from its first line
    that starts with [---] on: the lines of the answer are lines that do not
    start with [---], followed by the lines of the result, and the result
    starts with [---].  When no line of the answer starts with [---], the
    result is the empty string. *)
Theorem extract_diff_tail response :
  (_extract_diff response = []
   /\ Forall (fun line => startswith line (py "---") = false)
        (split_nl response))
  \/ (startswith (_extract_diff response) (py "---") = true
      /\ exists before,
           Forall (fun line => startswith line (py "---") = false) before
           /\ split_nl response = before ++ split_nl (_extract_diff response)).
Proof.
  unfold _extract_diff. cbv zeta.
  pose proof (find_diff_start_spec (split_nl response) 0) as H.
  pose proof (split_nl_no_newline response) as Hnl.
  destruct (find_diff_start 0 (split_nl response)) as [k|]; [|by left].
  right. destruct H as (j & line & -> & Hbefore & Hdrop & Hline).
  rewrite Nat.add_0_l. split.
  - by apply (startswith_join _ line (drop (S j) (split_nl response))).
  - exists (take j (split_nl response)). split; [done|].
    rewrite split_nl_join.
    + by rewrite take_drop.
    + by rewrite Hdrop.
    + by apply Forall_drop.
Qed.

(** X27.  [_extract_diff] is idempotent: applied to its own result, it
    returns it unchanged. *)
Theorem extract_diff_idempotent response :
  _extract_diff (_extract_diff response) = _extract_diff response.
Proof.
  unfold _extract_diff at 2 3. cbv zeta.
  pose proof (find_diff_start_spec (split_nl response) 0) as H.
  destruct (find_diff_start 0 (split_nl response)) as [k|]; [|done].
  destruct H as (j & line & -> & _ & Hdrop & Hline).
  rewrite Nat.add_0_l. unfold _extract_diff. cbv zeta.
  rewrite split_nl_join;
    [|by rewrite Hdrop | apply Forall_drop, split_nl_no_newline].
  rewrite Hdrop. simpl. rewrite Hline. by rewrite drop_0.
Qed.

(** X28.  An answer that starts with [---] is a diff already and is
    returned as it is, character for character. *)
Theorem extract_diff_whole response :
  startswith response (py "---") = true ->
  _extract_diff response = response.
Proof.
  intros Hstart. unfold _extract_diff. cbv zeta.
  pose proof (ReconcilerLaws.split_nl_nonempty response) as Hne.
  pose proof (join_split_nl response) as Hjoin.
  destruct (split_nl response) as [|line rest] eqn:Hsplit; [done|].
  assert (Hline : startswith line (py "---") = true).
  { unfold startswith in *.
    destruct (strip_prefix (py "---") response) as [r|] eqn:Hp; [|done].
    apply strip_prefix_Some in Hp. rewrite Hp in Hsplit.
    change (py "---" ++ r) with (45 :: 45 :: 45 :: r) in Hsplit.
    simpl in Hsplit.
    pose proof (ReconcilerLaws.split_nl_nonempty r) as Hr.
    destruct (split_nl r) as [|l ls]; [done|].
    injection Hsplit as <- <-.
    change (45 :: 45 :: 45 :: l) with (py "---" ++ l).
    by rewrite strip_prefix_app. }
  simpl. by rewrite Hline.
Qed.

Lemma extract_diff_whole_witness :
  _extract_diff (py "--- original" ++ nl ++ py "+++ modified" ++ nl
                 ++ py "@@ -1 +1 @@")
  = py "--- original" ++ nl ++ py "+++ modified" ++ nl ++ py "@@ -1 +1 @@".
Proof.
  assert (H1 : startswith
                 (py "--- original" ++ nl ++ py "+++ modified" ++ nl
                  ++ py "@@ -1 +1 @@") (py "---") = true) by reflexivity.
  exact (extract_diff_whole _ H1).
Defined.

End DiffLaws.
